(** * The wallet service of pkg/wallet/service.go

    A shallow embedding of the in-memory ledger (accounts, payments, favorites)
    and of its partitioned aggregation routines, with the properties of the
    ledger stated and proved over it.

    Conventions of the embedding.
    - [types.Money] and [int64] are [Z] values; every arithmetic operation of
      the source is written with the two's complement wrap-around of a 64-bit
      signed integer ([Int64.add], [Int64.sub], [Int64.mul]).  Go's [int] is
      taken to be 64 bits wide (amd64, arm64).
    - The slices of the service hold pointers, each to a struct allocated by
      the operation that appended it.  A pointer is modelled by the index of
      its slot; a write through the pointer is [setAt] at that index.
    - [uuid.New().String()] is an external generator: the string it returns is
      an explicit argument of the operations that call it.
    - A goroutine that only publishes its result under the mutex is modelled
      by the value it computes; the order in which the goroutines reach the
      mutex is chosen by an oracle ([completionOrder]). *)

From Stdlib Require Import ZArith String List Bool Lia Permutation.
Import ListNotations.
Local Open Scope Z_scope.

(** ** 64-bit signed integers *)

Module Int64.

Definition half : Z := 9223372036854775808.
Definition modulus : Z := 18446744073709551616.
Definition min_int : Z := - half.
Definition max_int : Z := half - 1.

Definition in_range (z : Z) : Prop := min_int <= z <= max_int.

Definition wrap (z : Z) : Z := (z + half) mod modulus - half.

Definition add (x y : Z) : Z := wrap (x + y).
Definition sub (x y : Z) : Z := wrap (x - y).
Definition mul (x y : Z) : Z := wrap (x * y).
(* Go's integer division truncates toward zero. *)
Definition quot (x y : Z) : Z := wrap (Z.quot x y).

End Int64.

(** ** pkg/types *)

Definition Money := Z.
Definition Phone := string.
Definition PaymentCategory := string.
Definition PaymentStatus := string.
Bind Scope string_scope with Phone PaymentCategory PaymentStatus.

Definition PaymentStatusOk : PaymentStatus := "OK"%string.
Definition PaymentStatusFail : PaymentStatus := "FAIL"%string.
Definition PaymentStatusInProgress : PaymentStatus := "INPROGRESS"%string.

Module Account.
Record t : Type := mk { ID : Z; Phone : Phone; Balance : Money }.
Definition setBalance (a : t) (b : Money) : t :=
  {| ID := ID a; Phone := Phone a; Balance := b |}.
End Account.

Module Payment.
Record t : Type := mk {
  ID : string;
  AccountID : Z;
  Amount : Money;
  Category : PaymentCategory;
  Status : PaymentStatus
}.
Definition setStatus (p : t) (st : PaymentStatus) : t :=
  {| ID := ID p; AccountID := AccountID p; Amount := Amount p;
     Category := Category p; Status := st |}.
End Payment.

Module Favorite.
Record t : Type := mk {
  ID : string;
  AccountID : Z;
  Name : string;
  Amount : Money;
  Category : PaymentCategory
}.
End Favorite.

(** ** Errors and results *)

Inductive error : Type :=
| ErrPhoneRegistered
| ErrAmountMustBePositive
| ErrAccountNotFound
| ErrNotEnoughBalance
| ErrPaymentNotFound
| ErrFavoriteNotFound.

Inductive result (A : Type) : Type :=
| Ok (a : A)
| Err (e : error).
Arguments Ok {A} a.
Arguments Err {A} e.

(** ** The service *)

Record Service : Type := mkService {
  nextAccountID : Z;
  accounts : list Account.t;
  payments : list Payment.t;
  favorites : list Favorite.t
}.

(* The zero value [&Service{}]. *)
Definition emptyService : Service :=
  {| nextAccountID := 0; accounts := []; payments := []; favorites := [] |}.

Definition withAccounts (s : Service) (l : list Account.t) : Service :=
  {| nextAccountID := nextAccountID s; accounts := l;
     payments := payments s; favorites := favorites s |}.

Definition withPayments (s : Service) (l : list Payment.t) : Service :=
  {| nextAccountID := nextAccountID s; accounts := accounts s;
     payments := l; favorites := favorites s |}.

Definition withFavorites (s : Service) (l : list Favorite.t) : Service :=
  {| nextAccountID := nextAccountID s; accounts := accounts s;
     payments := payments s; favorites := l |}.

(** ** Slices of pointers *)

Section Slices.
Context {A : Type}.

(* [for _, x := range l { if test(x) { found = x; break } }]: the slot and the
   pointee of the first element that passes the test. *)
Fixpoint findFrom (test : A -> bool) (l : list A) (i : nat) : option (nat * A) :=
  match l with
  | [] => None
  | x :: rest => if test x then Some (i, x) else findFrom test rest (S i)
  end.

Definition findFirst (test : A -> bool) (l : list A) : option (nat * A) :=
  findFrom test l 0.

(* A write through the pointer held by slot [i]. *)
Fixpoint setAt (i : nat) (x : A) (l : list A) : list A :=
  match l, i with
  | [], _ => []
  | _ :: rest, O => x :: rest
  | y :: rest, S i' => y :: setAt i' x rest
  end.

(* [l[j]] for an [int] index; [None] is the run-time panic. *)
Definition index (l : list A) (j : Z) : option A :=
  if j <? 0 then None else nth_error l (Z.to_nat j).

(* [l[lo:hi]]; [None] is the run-time panic (bounds out of range).  Go lets
   [hi] reach the capacity of the slice; the one caller, the driver of
   SumPaymentsWithProgress, cuts [hi] at the length before it slices. *)
Definition slice (l : list A) (lo hi : Z) : option (list A) :=
  if (0 <=? lo) && (lo <=? hi) && (hi <=? Z.of_nat (length l))
  then Some (firstn (Z.to_nat (hi - lo)) (skipn (Z.to_nat lo) l))
  else None.

End Slices.

Definition len {A : Type} (l : list A) : Z := Z.of_nat (length l).

(** ** Ledger operations *)

Definition findAccount (accountID : Z) (l : list Account.t) : option (nat * Account.t) :=
  findFirst (fun acc => Account.ID acc =? accountID) l.

Definition findPayment (paymentID : string) (l : list Payment.t) : option (nat * Payment.t) :=
  findFirst (fun payment => String.eqb (Payment.ID payment) paymentID) l.

Definition findFavorite (favoriteID : string) (l : list Favorite.t) : option (nat * Favorite.t) :=
  findFirst (fun favorite => String.eqb (Favorite.ID favorite) favoriteID) l.

Definition RegisterAccount (phone : Phone) (s : Service) : result Account.t * Service :=
  match findFirst (fun account => String.eqb (Account.Phone account) phone) (accounts s) with
  | Some _ => (Err ErrPhoneRegistered, s)
  | None =>
      let next := Int64.add (nextAccountID s) 1 in
      let account := {| Account.ID := next; Account.Phone := phone; Account.Balance := 0 |} in
      (Ok account,
       {| nextAccountID := next; accounts := accounts s ++ [account];
          payments := payments s; favorites := favorites s |})
  end.

Definition Deposit (accountID : Z) (amount : Money) (s : Service) : option error * Service :=
  if amount <=? 0 then (Some ErrAmountMustBePositive, s)
  else match findAccount accountID (accounts s) with
       | None => (Some ErrAccountNotFound, s)
       | Some (ptr, account) =>
           let account' := Account.setBalance account (Int64.add (Account.Balance account) amount) in
           (None, withAccounts s (setAt ptr account' (accounts s)))
       end.

Definition Pay (uuid : string) (accountID : Z) (amount : Money) (category : PaymentCategory)
  (s : Service) : result Payment.t * Service :=
  if amount <=? 0 then (Err ErrAmountMustBePositive, s)
  else match findAccount accountID (accounts s) with
       | None => (Err ErrAccountNotFound, s)
       | Some (ptr, account) =>
           if Account.Balance account <? amount then (Err ErrNotEnoughBalance, s)
           else
             let account' := Account.setBalance account (Int64.sub (Account.Balance account) amount) in
             let payment := {| Payment.ID := uuid; Payment.AccountID := accountID;
                               Payment.Amount := amount; Payment.Category := category;
                               Payment.Status := PaymentStatusInProgress |} in
             (Ok payment,
              {| nextAccountID := nextAccountID s;
                 accounts := setAt ptr account' (accounts s);
                 payments := payments s ++ [payment];
                 favorites := favorites s |})
       end.

Definition FindAccountByID (accountID : Z) (s : Service) : result (nat * Account.t) :=
  match findAccount accountID (accounts s) with
  | None => Err ErrAccountNotFound
  | Some found => Ok found
  end.

Definition FindPaymentByID (paymentID : string) (s : Service) : result (nat * Payment.t) :=
  match findPayment paymentID (payments s) with
  | Some found => Ok found
  | None => Err ErrPaymentNotFound
  end.

Definition Reject (paymentID : string) (s : Service) : option error * Service :=
  match FindPaymentByID paymentID s with
  | Err err => (Some err, s)
  | Ok (pptr, payment) =>
      match FindAccountByID (Payment.AccountID payment) s with
      | Err err => (Some err, s)
      | Ok (aptr, account) =>
          let payment' := Payment.setStatus payment PaymentStatusFail in
          let account' := Account.setBalance account
                            (Int64.add (Account.Balance account) (Payment.Amount payment)) in
          (None,
           {| nextAccountID := nextAccountID s;
              accounts := setAt aptr account' (accounts s);
              payments := setAt pptr payment' (payments s);
              favorites := favorites s |})
      end
  end.

Definition Repeat (uuid : string) (paymentID : string) (s : Service) : result Payment.t * Service :=
  match FindPaymentByID paymentID s with
  | Err err => (Err err, s)
  | Ok (_, payment) =>
      match FindAccountByID (Payment.AccountID payment) s with
      | Err err => (Err err, s)
      | Ok (_, account) =>
          if Payment.Amount payment >? Account.Balance account then (Err ErrNotEnoughBalance, s)
          else Pay uuid (Account.ID account) (Payment.Amount payment) (Payment.Category payment) s
      end
  end.

Definition FavoritePayment (uuid : string) (paymentID : string) (name : string) (s : Service)
  : result Favorite.t * Service :=
  match FindPaymentByID paymentID s with
  | Err err => (Err err, s)
  | Ok (_, payment) =>
      let favorite := {| Favorite.ID := uuid; Favorite.AccountID := Payment.AccountID payment;
                         Favorite.Name := name; Favorite.Amount := Payment.Amount payment;
                         Favorite.Category := Payment.Category payment |} in
      (Ok favorite, withFavorites s (favorites s ++ [favorite]))
  end.

Definition FindFavoriteByID (favoriteID : string) (s : Service) : result (nat * Favorite.t) :=
  match findFavorite favoriteID (favorites s) with
  | Some found => Ok found
  | None => Err ErrFavoriteNotFound
  end.

Definition PayFromFavorite (uuid : string) (favoriteID : string) (s : Service)
  : result Payment.t * Service :=
  match FindFavoriteByID favoriteID s with
  | Err err => (Err err, s)
  | Ok (_, favorite) =>
      match FindAccountByID (Favorite.AccountID favorite) s with
      | Err err => (Err err, s)
      | Ok (_, account) =>
          if Favorite.Amount favorite >? Account.Balance account then (Err ErrNotEnoughBalance, s)
          else Pay uuid (Account.ID account) (Favorite.Amount favorite) (Favorite.Category favorite) s
      end
  end.

(** ** Goroutines *)

Section Scheduling.
Context {A : Type}.

(* Take the [k]-th pending goroutine out of the pending ones. *)
Fixpoint extract (k : nat) (l : list A) {struct l} : option (A * list A) :=
  match l with
  | [] => None
  | x :: rest =>
      match k with
      | O => Some (x, rest)
      | S k' =>
          match extract k' rest with
          | Some (y, rest') => Some (y, x :: rest')
          | None => None
          end
      end
  end.

(* The scheduler: at each step the oracle names the pending goroutine that
   reaches the mutex next (an exhausted oracle names the oldest one). *)
Fixpoint interleave (fuel : nat) (oracle : list nat) (pending : list A) : list A :=
  match fuel with
  | O => []
  | S fuel' =>
      match extract (Nat.modulo (hd O oracle) (length pending)) pending with
      | Some (x, rest) => x :: interleave fuel' (tl oracle) rest
      | None => []
      end
  end.

Definition completionOrder (oracle : list nat) (spawned : list A) : list A :=
  interleave (length spawned) oracle spawned.

End Scheduling.

(* The values of [i] in [for i := 0; i < n; i++]. *)
Definition iterations (n : Z) : list Z := map Z.of_nat (seq 0 (Z.to_nat n)).

(** ** Aggregation engine *)

Section Worker.
Context {B : Type}.
(* What one round of the inner loop does with [s.payments[j]]. *)
Variable body : B -> Payment.t -> B.

(* [for j := lowerEnd; j < higherEnd; j++ { if j > len(ps)-1 { break }; body }].
   The loop makes at most [higherEnd - lowerEnd] rounds, the fuel that [worker]
   gives it; [None] is the panic of an index out of range. *)
Fixpoint rangeLoop (fuel : nat) (ps : list Payment.t) (j higherEnd : Z) (acc : B) : option B :=
  if j <? higherEnd then
    match fuel with
    | O => None
    | S fuel' =>
        if j >? Int64.sub (len ps) 1 then Some acc
        else match index ps j with
             | None => None
             | Some payment => rangeLoop fuel' ps (Int64.add j 1) higherEnd (body acc payment)
             end
    end
  else Some acc.

(* The goroutine of one iteration; [None] is a panic. *)
Definition worker (ps : list Payment.t) (paysPerRoutine iteration : Z) (init : B) : option B :=
  let lowerEnd := Int64.mul iteration paysPerRoutine in
  let higherEnd := Int64.add (Int64.mul iteration paysPerRoutine) paysPerRoutine in
  rangeLoop (Z.to_nat (higherEnd - lowerEnd)) ps lowerEnd higherEnd init.

(* [mu.Lock(); total = merge(total, partial); mu.Unlock()], goroutine after
   goroutine in the order they finish; [wg.Wait()] returns after the last. *)
Definition joinAll {R : Type} (merge : R -> B -> R) (partials : list (option B)) (total : R)
  : option R :=
  fold_left (fun total partial =>
               match total, partial with
               | Some total, Some partial => Some (merge total partial)
               | _, _ => None
               end) partials (Some total).

End Worker.

Definition clampGoroutines (goroutines : Z) : Z :=
  if goroutines <? 1 then 1 else goroutines.

Definition SumPayments (oracle : list nat) (goroutines : Z) (s : Service) : option Money :=
  let goroutines := clampGoroutines goroutines in
  let paysPerRoutine := Int64.add (Int64.quot (len (payments s)) goroutines) 1 in
  let finished := completionOrder oracle (iterations goroutines) in
  joinAll Int64.add
    (map (fun i => worker (fun partialSum payment => Int64.add partialSum (Payment.Amount payment))
                     (payments s) paysPerRoutine i 0) finished)
    0.

Definition filterWorkers (filter : Payment.t -> bool) (oracle : list nat) (goroutines : Z)
  (s : Service) : option (list Payment.t) :=
  let goroutines := clampGoroutines goroutines in
  let paysPerRoutine := Int64.add (Int64.quot (len (payments s)) goroutines) 1 in
  let finished := completionOrder oracle (iterations goroutines) in
  joinAll (@app Payment.t)
    (map (fun i => worker (fun partialPayments payment =>
                             if filter payment then partialPayments ++ [payment]
                             else partialPayments)
                     (payments s) paysPerRoutine i []) finished)
    [].

Definition FilterPayments (oracle : list nat) (accountID : Z) (goroutines : Z) (s : Service)
  : option (result (list Payment.t)) :=
  match FindAccountByID accountID s with
  | Err err => Some (Err err)
  | Ok _ =>
      option_map Ok
        (filterWorkers (fun payment => Payment.AccountID payment =? accountID) oracle goroutines s)
  end.

Definition FilterPaymentsByFn (filter : Payment.t -> bool) (oracle : list nat) (goroutines : Z)
  (s : Service) : option (result (list Payment.t)) :=
  option_map Ok (filterWorkers filter oracle goroutines s).

Definition FilterMobile (payment : Payment.t) : bool :=
  String.eqb (Payment.Category payment) "mobile".

Module Progress.
Record t : Type := mk { Part : Z; Result : Money }.
End Progress.

(* The goroutine of one batch: [for _, pay := range payments { sum += pay.Amount }]. *)
Definition batchSum (batch : list Payment.t) : Money :=
  fold_left (fun sum pay => Int64.add sum (Payment.Amount pay)) batch 0.

(* The driver loop; the buffered channel is the queue of the entries sent. *)
Fixpoint progressLoop (batchSize : Z) (ps : list Payment.t) (todo : list Z)
  (progressChannel : list Progress.t) : option (list Progress.t) :=
  match todo with
  | [] => Some progressChannel
  | i :: todo' =>
      let batchStart := Int64.mul i batchSize in
      let batchEnd := Int64.mul (Int64.add 1 i) batchSize in
      let batchEnd := if batchEnd >? len ps then len ps else batchEnd in
      match slice ps batchStart batchEnd with
      | None => None
      | Some batch =>
          progressLoop batchSize ps todo'
            (progressChannel ++ [{| Progress.Part := i; Progress.Result := batchSum batch |}])
      end
  end.

Definition sumPaymentsWithProgressBy (batchSize : Z) (s : Service) : option (list Progress.t) :=
  let routines := Int64.add 1 (Int64.quot (len (payments s)) batchSize) in
  progressLoop batchSize (payments s) (iterations routines) [].

Definition batchSize : Z := 100000.

Definition SumPaymentsWithProgress (s : Service) : option (list Progress.t) :=
  sumPaymentsWithProgressBy batchSize s.

(** ** Sequences of calls *)

Inductive Call : Type :=
| CallRegisterAccount (phone : Phone)
| CallDeposit (accountID : Z) (amount : Money)
| CallPay (uuid : string) (accountID : Z) (amount : Money) (category : PaymentCategory)
| CallReject (paymentID : string)
| CallRepeat (uuid : string) (paymentID : string)
| CallFavoritePayment (uuid : string) (paymentID : string) (name : string)
| CallPayFromFavorite (uuid : string) (favoriteID : string).

Definition errorOf {A : Type} (r : result A * Service) : option error * Service :=
  match r with
  | (Ok _, s) => (None, s)
  | (Err err, s) => (Some err, s)
  end.

(* The error a call returns ([None] is [nil]) and the state it leaves. *)
Definition call (c : Call) (s : Service) : option error * Service :=
  match c with
  | CallRegisterAccount phone => errorOf (RegisterAccount phone s)
  | CallDeposit accountID amount => Deposit accountID amount s
  | CallPay uuid accountID amount category => errorOf (Pay uuid accountID amount category s)
  | CallReject paymentID => Reject paymentID s
  | CallRepeat uuid paymentID => errorOf (Repeat uuid paymentID s)
  | CallFavoritePayment uuid paymentID name => errorOf (FavoritePayment uuid paymentID name s)
  | CallPayFromFavorite uuid favoriteID => errorOf (PayFromFavorite uuid favoriteID s)
  end.

(* The state after a sequence of calls, whatever they return. *)
Definition run (calls : list Call) (s : Service) : Service :=
  fold_left (fun s c => snd (call c s)) calls s.

(* The state after a sequence of calls that all return [nil]. *)
Fixpoint runOk (calls : list Call) (s : Service) : option Service :=
  match calls with
  | [] => Some s
  | c :: rest =>
      match call c s with
      | (None, s') => runOk rest s'
      | (Some _, _) => None
      end
  end.

(** ** Quantities the properties speak of *)

Definition sumZ (l : list Z) : Z := fold_right Z.add 0 l.

Definition amounts (ps : list Payment.t) : list Z := map Payment.Amount ps.

(* The amount at a position of the collection (0 outside of it). *)
Definition amountAt (ps : list Payment.t) (j : nat) : Z :=
  match nth_error ps j with
  | Some payment => Payment.Amount payment
  | None => 0
  end.

(* The sum of the amounts at the positions [lo, hi). *)
Definition sumBetween (ps : list Payment.t) (lo hi : nat) : Z :=
  sumZ (map (amountAt ps) (seq lo (hi - lo))).

(* Deposit, Pay and Reject: the calls that move money directly. *)
Definition moneyCall (c : Call) : bool :=
  match c with
  | CallDeposit _ _ | CallPay _ _ _ _ | CallReject _ => true
  | _ => false
  end.

(* The sum of the amounts deposited to an account by a sequence of calls. *)
Fixpoint deposited (accountID : Z) (calls : list Call) : Z :=
  match calls with
  | [] => 0
  | CallDeposit accountID' amount :: rest =>
      (if accountID' =? accountID then amount else 0) + deposited accountID rest
  | _ :: rest => deposited accountID rest
  end.

(* The sum of the amounts of the payments an account made. *)
Fixpoint paid (accountID : Z) (calls : list Call) : Z :=
  match calls with
  | [] => 0
  | CallPay _ accountID' amount _ :: rest =>
      (if accountID' =? accountID then amount else 0) + paid accountID rest
  | _ :: rest => paid accountID rest
  end.

(* The amount of the payment of the account that a call to Reject names, as
   recorded in the collection [ps]. *)
Definition refundOf (accountID : Z) (ps : list Payment.t) (paymentID : string) : Z :=
  match findPayment paymentID ps with
  | Some (_, payment) =>
      if Payment.AccountID payment =? accountID then Payment.Amount payment else 0
  | None => 0
  end.

(* The sum of the amounts of the rejected payments of an account, counted once
   for each call to Reject. *)
Fixpoint refunded (accountID : Z) (ps : list Payment.t) (calls : list Call) : Z :=
  match calls with
  | [] => 0
  | CallReject paymentID :: rest => refundOf accountID ps paymentID + refunded accountID ps rest
  | _ :: rest => refunded accountID ps rest
  end.

Definition isRejectOf (paymentID : string) (c : Call) : bool :=
  match c with
  | CallReject paymentID' => String.eqb paymentID' paymentID
  | _ => false
  end.

(* The sum of the amounts of the payments of an account made by [calls] that no
   call of [all] rejects. *)
Fixpoint paidNeverRejected (accountID : Z) (all calls : list Call) : Z :=
  match calls with
  | [] => 0
  | CallPay uuid accountID' amount _ :: rest =>
      (if (accountID' =? accountID) && negb (existsb (isRejectOf uuid) all) then amount else 0)
      + paidNeverRejected accountID all rest
  | _ :: rest => paidNeverRejected accountID all rest
  end.

Definition isReject (c : Call) : bool :=
  match c with
  | CallReject _ => true
  | _ => false
  end.

(* The ledger of the package's tests ([fillData]); the strings u1 .. u11 stand
   for the identifiers drawn from the generator. *)
Definition fillCalls : list Call :=
  [ CallRegisterAccount "+992000000001"; CallDeposit 1 1000000;
    CallPay "u1" 1 1 "food"; CallPay "u2" 1 2 "mobile"; CallPay "u3" 1 3 "transport";
    CallPay "u4" 1 4 "mobile"; CallPay "u5" 1 5 "food"; CallPay "u6" 1 6 "auto";
    CallPay "u7" 1 7 "bank";
    CallRegisterAccount "+992000000002"; CallDeposit 2 2000000;
    CallPay "u8" 2 8 "mobile";
    CallRegisterAccount "+992000000003"; CallDeposit 3 3000000;
    CallPay "u9" 3 9 "auto"; CallPay "u10" 3 10 "food"; CallPay "u11" 3 11 "mobile" ]%string.

Definition fillData : Service := run fillCalls emptyService.

(* The balance the lookup of an account identifier reads. *)
Definition balanceOf (accountID : Z) (s : Service) : option Money :=
  match findAccount accountID (accounts s) with
  | Some (_, account) => Some (Account.Balance account)
  | None => None
  end.

(* The fields of a payment that no operation writes after its creation. *)
Definition entry (payment : Payment.t) : string * Z * Money :=
  (Payment.ID payment, Payment.AccountID payment, Payment.Amount payment).

(* The balance of an account when the payments that were rejected are left out
   of the amounts taken and every rejection is added. *)
Definition balanceLeavingRejectedOut (accountID : Z) (calls : list Call)
  (ps : list Payment.t) : Z :=
  deposited accountID calls - paidNeverRejected accountID calls calls
  + refunded accountID ps calls.

(* The balance of an account when every payment is taken and every rejection
   is added. *)
Definition balanceOfCalls (accountID : Z) (calls : list Call) (ps : list Payment.t) : Z :=
  deposited accountID calls - paid accountID calls + refunded accountID ps calls.

(* A fresh ledger with one registered account, and on it a deposit, a payment
   and the rejection of that payment. *)
Definition registered : Service :=
  snd (RegisterAccount "+992000000001" emptyService).

Definition rejectedOnce : list Call :=
  [ CallDeposit 1 100; CallPay "p1" 1 30 "auto"; CallReject "p1" ]%string.

(* The statuses the operations write. *)
Definition statusWritten (payment : Payment.t) : Prop :=
  Payment.Status payment = PaymentStatusInProgress
  \/ Payment.Status payment = PaymentStatusFail.

(* The part of a collection at the positions [i * width, i * width + width). *)
Definition chunk {A : Type} (l : list A) (width i : nat) : list A :=
  firstn width (skipn (i * width) l).

(* The progress entry of batch [i] for batches of [size] payments. *)
Definition entryOfBatch (ps : list Payment.t) (size i : nat) : Progress.t :=
  {| Progress.Part := Z.of_nat i;
     Progress.Result :=
       Int64.wrap (sumBetween ps (i * size) (Nat.min ((i + 1) * size) (length ps))) |}.

(* A slice of pointers this long (2^62 slots of 8 bytes) does not fit a 64-bit
   address space: every slice a Go program holds is shorter. *)
Definition maxLen : Z := 4611686018427387904.

(** ** Account history *)

Definition ExportAccountHistory (accountID : Z) (s : Service) : result (list Payment.t) :=
  match FindAccountByID accountID s with
  | Err err => Err err
  | Ok _ =>
      Ok (fold_left (fun payments payment =>
                       if Payment.AccountID payment =? accountID
                       then payments ++ [payment] else payments)
            (payments s) [])
  end.

(* The identifier and the phone of an account: the fields no operation writes
   after the registration. *)
Definition identity (account : Account.t) : Z * Phone :=
  (Account.ID account, Account.Phone account).

(* The fields of a payment that no operation writes after its creation,
   category included. *)
Definition written (payment : Payment.t) : string * Z * Money * PaymentCategory :=
  (Payment.ID payment, Payment.AccountID payment, Payment.Amount payment,
   Payment.Category payment).

(** ** strconv and strings *)

From Stdlib Require Import Ascii.

(* The functions of Go's library that the dumps use, as the library documents
   them: [strconv.AppendInt(_, i, 10)] and [strconv.Itoa] write an integer in
   decimal, with a minus sign for a negative one; [strconv.Atoi] reads an
   optional sign and decimal digits; [strings.Split] cuts a string at every
   separator. *)

Definition digitChar (d : Z) : ascii := ascii_of_nat (48 + Z.to_nat d).

(* The digits of a magnitude, least significant first, pushed in front of the
   buffer; twenty rounds are enough for the 64-bit integers. *)
Fixpoint formatBits (fuel : nat) (u : Z) (buf : string) : string :=
  match fuel with
  | O => buf
  | S fuel' =>
      if u <? 10 then String (digitChar u) buf
      else formatBits fuel' (u / 10) (String (digitChar (u mod 10)) buf)
  end.

Definition Itoa (i : Z) : string :=
  if i <? 0 then String "-"%char (formatBits 20 (- i) EmptyString)
  else formatBits 20 i EmptyString.

Definition digitValue (c : ascii) : option Z :=
  let n := Z.of_nat (nat_of_ascii c) in
  if (48 <=? n) && (n <=? 57) then Some (n - 48) else None.

(* What the loop of [strconv.ParseUint] over the bytes ends with: the number,
   or a syntax error at the first byte that is no digit, or a range error as
   soon as the number read so far is above the largest unsigned integer. *)
Inductive parsed : Type :=
| Value (n : Z)
| SyntaxError
| RangeError.

Definition maxUint64 : Z := 2 * Int64.half - 1.

Fixpoint parseDigits (s : string) (acc : Z) : parsed :=
  match s with
  | EmptyString => Value acc
  | String c rest =>
      match digitValue c with
      | Some d => if acc * 10 + d >? maxUint64 then RangeError
                  else parseDigits rest (acc * 10 + d)
      | None => SyntaxError
      end
  end.

(* The value [strconv.Atoi] returns; the source drops the error
   ([id, _ := strconv.Atoi(...)]).  With a syntax error the value is 0; with a
   range error, and for a number that does not fit 64 bits, it is the nearest
   bound. *)
Definition Atoi (s : string) : Z :=
  match s with
  | EmptyString => 0
  | String c rest =>
      let neg := Ascii.eqb c "-"%char in
      let digits := if neg || Ascii.eqb c "+"%char then rest else s in
      match digits with
      | EmptyString => 0
      | _ =>
          match parseDigits digits 0 with
          | SyntaxError => 0
          | RangeError => if neg then Int64.min_int else Int64.max_int
          | Value n =>
              if neg then (if n >? Int64.half then Int64.min_int else - n)
              else (if n >? Int64.max_int then Int64.max_int else n)
          end
      end
  end.

(* [strings.Split(s, sep)] for a separator of one byte. *)
Fixpoint Split (s : string) (sep : ascii) : list string :=
  match s with
  | EmptyString => [EmptyString]
  | String c rest =>
      if Ascii.eqb c sep then EmptyString :: Split rest sep
      else match Split rest sep with
           | field :: fields => String c field :: fields
           | [] => [String c EmptyString]
           end
  end.

(* [if records[len(records)-1] == "" { records = records[:len(records)-1] }];
   Split returns at least one string. *)
Definition dropEmptyLast (records : list string) : list string :=
  if String.eqb (last records EmptyString) EmptyString then removelast records else records.

Definition semicolon : ascii := ";"%char.
Definition newline : ascii := "010"%char.
Definition bar : ascii := "|"%char.

(** ** The dumps *)

(* A directory, as far as the service looks at it: the content of each file
   by its name.  Calls on which the operating system reports an error other
   than the absence of the directory are outside the model. *)
Definition Directory := string -> option string.

Definition emptyDirectory : Directory := fun _ => None.

Definition WriteFile (name content : string) (dir : Directory) : Directory :=
  fun name' => if String.eqb name' name then Some content else dir name'.

(* What a call of Import or ImportFromFile ends with: it returns [nil], or
   the error of the operating system for a missing file or directory, or it
   panics. *)
Inductive outcome : Type :=
| Returned (s : Service)
| NotExist
| Panicked.

Definition accountRecord (account : Account.t) (terminator : ascii) : string :=
  (Itoa (Account.ID account) ++ String semicolon (Account.Phone account)
   ++ String semicolon (Itoa (Account.Balance account)) ++ String terminator EmptyString)%string.

Definition paymentRecord (payment : Payment.t) : string :=
  (Payment.ID payment ++ String semicolon (Itoa (Payment.AccountID payment))
   ++ String semicolon (Itoa (Payment.Amount payment))
   ++ String semicolon (Payment.Category payment)
   ++ String semicolon (Payment.Status payment) ++ String newline EmptyString)%string.

Definition favoriteRecord (favorite : Favorite.t) : string :=
  (Favorite.ID favorite ++ String semicolon (Itoa (Favorite.AccountID favorite))
   ++ String semicolon (Favorite.Name favorite)
   ++ String semicolon (Itoa (Favorite.Amount favorite))
   ++ String semicolon (Favorite.Category favorite) ++ String newline EmptyString)%string.

(* [for _, x := range l { buffer = append(buffer, ...) }] *)
Definition dump {A : Type} (record : A -> string) (l : list A) : string :=
  fold_left (fun buffer x => (buffer ++ record x)%string) l EmptyString.

(* The bytes ExportToFile writes to the file. *)
Definition ExportToFile (s : Service) : string :=
  dump (fun account => accountRecord account bar) (accounts s).

(* The directory after Export: a missing directory is made, and a dump is
   written for each collection that is not empty. *)
Definition Export (dir : option Directory) (s : Service) : Directory :=
  let dir := match dir with Some dir => dir | None => emptyDirectory end in
  let dir := if negb (len (accounts s) =? 0)
             then WriteFile "accounts.dump"
                    (dump (fun account => accountRecord account newline) (accounts s)) dir
             else dir in
  let dir := if negb (len (payments s) =? 0)
             then WriteFile "payments.dump" (dump paymentRecord (payments s)) dir
             else dir in
  if negb (len (favorites s) =? 0)
  then WriteFile "favorites.dump" (dump favoriteRecord (favorites s)) dir
  else dir.

(* The content of a file of a directory that may be missing. *)
Definition fileOf (dir : option Directory) (name : string) : option string :=
  match dir with
  | Some dir => dir name
  | None => None
  end.

(* One round of the loop of ImportFromFile over the records; [None] is the
   panic of a field that the record does not have. *)
Definition importFileRecord (record : string) (s : Service) : option Service :=
  let fields := Split record semicolon in
  match nth_error fields 0, nth_error fields 1, nth_error fields 2 with
  | Some field0, Some field1, Some field2 =>
      let id := Atoi field0 in
      let phone := field1 in
      let balance := Atoi field2 in
      let account := {| Account.ID := id; Account.Phone := phone; Account.Balance := balance |} in
      Some (withAccounts s (accounts s ++ [account]))
  | _, _, _ => None
  end.

(* One round of a loop of Import over the records of a dump. *)
Definition importAccountRecord (record : string) (s : Service) : option Service :=
  let fields := Split record semicolon in
  match nth_error fields 0, nth_error fields 1, nth_error fields 2 with
  | Some field0, Some field1, Some field2 =>
      let accountID := Atoi field0 in
      let accountPhone := field1 in
      let accountBalance := Atoi field2 in
      let newAccount := {| Account.ID := accountID; Account.Phone := accountPhone;
                           Account.Balance := accountBalance |} in
      match findAccount accountID (accounts s) with
      | None => Some (withAccounts s (accounts s ++ [newAccount]))
      | Some (ptr, account) =>
          Some (withAccounts s
                  (setAt ptr {| Account.ID := Account.ID account;
                                Account.Phone := accountPhone;
                                Account.Balance := accountBalance |} (accounts s)))
      end
  | _, _, _ => None
  end.

Definition importPaymentRecord (record : string) (s : Service) : option Service :=
  let fields := Split record semicolon in
  match nth_error fields 0, nth_error fields 1, nth_error fields 2,
        nth_error fields 3, nth_error fields 4 with
  | Some field0, Some field1, Some field2, Some field3, Some field4 =>
      let paymentID := field0 in
      let paymentAccountID := Atoi field1 in
      let paymentAmount := Atoi field2 in
      let paymentCategory := field3 in
      let paymentStatus := field4 in
      let newPayment := {| Payment.ID := paymentID; Payment.AccountID := paymentAccountID;
                           Payment.Amount := paymentAmount;
                           Payment.Category := paymentCategory;
                           Payment.Status := paymentStatus |} in
      match findPayment paymentID (payments s) with
      | None => Some (withPayments s (payments s ++ [newPayment]))
      | Some (ptr, payment) =>
          Some (withPayments s
                  (setAt ptr {| Payment.ID := Payment.ID payment;
                                Payment.AccountID := paymentAccountID;
                                Payment.Amount := paymentAmount;
                                Payment.Category := paymentCategory;
                                Payment.Status := paymentStatus |} (payments s)))
      end
  | _, _, _, _, _ => None
  end.

Definition importFavoriteRecord (record : string) (s : Service) : option Service :=
  let fields := Split record semicolon in
  match nth_error fields 0, nth_error fields 1, nth_error fields 2,
        nth_error fields 3, nth_error fields 4 with
  | Some field0, Some field1, Some field2, Some field3, Some field4 =>
      let favoriteID := field0 in
      let favoriteAccountID := Atoi field1 in
      let favoriteName := field2 in
      let favoriteAmount := Atoi field3 in
      let favoriteCategory := field4 in
      let newFavorite := {| Favorite.ID := favoriteID; Favorite.AccountID := favoriteAccountID;
                            Favorite.Name := favoriteName; Favorite.Amount := favoriteAmount;
                            Favorite.Category := favoriteCategory |} in
      match findFavorite favoriteID (favorites s) with
      | None => Some (withFavorites s (favorites s ++ [newFavorite]))
      | Some (ptr, favorite) =>
          Some (withFavorites s
                  (setAt ptr {| Favorite.ID := Favorite.ID favorite;
                                Favorite.AccountID := favoriteAccountID;
                                Favorite.Name := favoriteName;
                                Favorite.Amount := favoriteAmount;
                                Favorite.Category := favoriteCategory |} (favorites s)))
      end
  | _, _, _, _, _ => None
  end.

(* [for _, record := range records { ... }] *)
Fixpoint importRecords (round : string -> Service -> option Service) (records : list string)
  (s : Service) : option Service :=
  match records with
  | [] => Some s
  | record :: rest =>
      match round record s with
      | Some s' => importRecords round rest s'
      | None => None
      end
  end.

(* [var max = int64(0); for _, acc := range s.accounts { if acc.ID > max { max = acc.ID } }] *)
Definition maxAccountID (l : list Account.t) : Z :=
  fold_left (fun max acc => if Account.ID acc >? max then Account.ID acc else max) l 0.

(* The file, when there is one, is read whole and cut at the bars. *)
Definition ImportFromFile (file : option string) (s : Service) : outcome :=
  match file with
  | None => NotExist
  | Some content =>
      let records := dropEmptyLast (Split content bar) in
      match importRecords importFileRecord records s with
      | Some s' => Returned s'
      | None => Panicked
      end
  end.

Definition importDump (round : string -> Service -> option Service) (content : string)
  (s : Service) : option Service :=
  importRecords round (dropEmptyLast (Split content newline)) s.

Definition Import (dir : option Directory) (s : Service) : outcome :=
  match dir with
  | None => NotExist
  | Some dir =>
      let afterAccounts :=
        match dir "accounts.dump"%string with
        | Some content =>
            match importDump importAccountRecord content s with
            | Some s' =>
                Some {| nextAccountID := maxAccountID (accounts s');
                        accounts := accounts s'; payments := payments s';
                        favorites := favorites s' |}
            | None => None
            end
        | None => Some s
        end in
      let afterPayments :=
        match afterAccounts with
        | Some s1 =>
            match dir "payments.dump"%string with
            | Some content => importDump importPaymentRecord content s1
            | None => Some s1
            end
        | None => None
        end in
      let afterFavorites :=
        match afterPayments with
        | Some s2 =>
            match dir "favorites.dump"%string with
            | Some content => importDump importFavoriteRecord content s2
            | None => Some s2
            end
        | None => None
        end in
      match afterFavorites with
      | Some s3 => Returned s3
      | None => Panicked
      end
  end.

(** ** HistoryToFiles *)

(* The loop of HistoryToFiles over the payments, from position [i] on, with
   the buffer and the directory it has reached; [total] is [len(payments)].
   [None] is the panic of the remainder of a division by zero. *)
Fixpoint historyLoop (total records : Z) (payments : list Payment.t) (i : Z)
  (buffer : string) (dir : Directory) : option Directory :=
  match payments with
  | [] => Some dir
  | payment :: rest =>
      let buffer := (buffer ++ paymentRecord payment)%string in
      if total <=? records then
        historyLoop total records rest (Int64.add i 1) buffer
          (WriteFile "payments.dump" buffer dir)
      else if records =? 0 then None
      else if (Z.rem (Int64.add i 1) records =? 0) || (i =? Int64.sub total 1) then
        historyLoop total records rest (Int64.add i 1) EmptyString
          (WriteFile ("payments" ++ Itoa (Int64.add (Int64.quot i records) 1) ++ ".dump")
             buffer dir)
      else historyLoop total records rest (Int64.add i 1) buffer dir
  end.

(* The directory after HistoryToFiles: a missing directory is made. *)
Definition HistoryToFiles (payments : list Payment.t) (dir : option Directory) (records : Z)
  : option Directory :=
  let dir := match dir with Some dir => dir | None => emptyDirectory end in
  historyLoop (len payments) records payments 0 EmptyString dir.

(** ** Strings that survive a dump *)

Fixpoint hasChar (c : ascii) (s : string) : bool :=
  match s with
  | EmptyString => false
  | String c' rest => Ascii.eqb c' c || hasChar c rest
  end.

(* A field that holds neither the separator of the fields nor the terminator
   of the records. *)
Definition fieldOf (terminator : ascii) (s : string) : Prop :=
  hasChar semicolon s = false /\ hasChar terminator s = false.

(* An integer of 64 bits. *)
Definition int64 (z : Z) : Prop := Int64.in_range z.

Definition dumpableAccount (terminator : ascii) (account : Account.t) : Prop :=
  int64 (Account.ID account) /\ int64 (Account.Balance account)
  /\ fieldOf terminator (Account.Phone account).

Definition dumpablePayment (payment : Payment.t) : Prop :=
  fieldOf newline (Payment.ID payment)
  /\ int64 (Payment.AccountID payment) /\ int64 (Payment.Amount payment)
  /\ fieldOf newline (Payment.Category payment)
  /\ fieldOf newline (Payment.Status payment).

Definition dumpableFavorite (favorite : Favorite.t) : Prop :=
  fieldOf newline (Favorite.ID favorite)
  /\ int64 (Favorite.AccountID favorite)
  /\ fieldOf newline (Favorite.Name favorite)
  /\ int64 (Favorite.Amount favorite)
  /\ fieldOf newline (Favorite.Category favorite).

(* A string of decimal digits. *)
Fixpoint allDigits (s : string) : Prop :=
  match s with
  | EmptyString => True
  | String c rest => (exists d, 0 <= d < 10 /\ c = digitChar d) /\ allDigits rest
  end.

(* The name of the file of the chunk of number [k]. *)
Definition chunkFile (k : Z) : string := ("payments" ++ Itoa k ++ ".dump")%string.

(* The records without their terminator. *)
Definition accountBody (account : Account.t) : string :=
  (Itoa (Account.ID account) ++ String semicolon (Account.Phone account)
   ++ String semicolon (Itoa (Account.Balance account)))%string.

Definition paymentBody (payment : Payment.t) : string :=
  (Payment.ID payment ++ String semicolon (Itoa (Payment.AccountID payment))
   ++ String semicolon (Itoa (Payment.Amount payment))
   ++ String semicolon (Payment.Category payment)
   ++ String semicolon (Payment.Status payment))%string.

Definition favoriteBody (favorite : Favorite.t) : string :=
  (Favorite.ID favorite ++ String semicolon (Itoa (Favorite.AccountID favorite))
   ++ String semicolon (Favorite.Name favorite)
   ++ String semicolon (Itoa (Favorite.Amount favorite))
   ++ String semicolon (Favorite.Category favorite))%string.

(* The identifiers of a collection after an import: those of before in their
   slots, new ones behind, and pairwise distinct if they were. *)
Definition keepsDistinct {K : Type} (before after : list K) : Prop :=
  (exists new, after = before ++ new) /\ (NoDup before -> NoDup after).

(** * Properties *)

(** ** Wrap-around arithmetic *)

Module Int64Facts.
Import Int64.

Lemma wrap_small (z : Z) : in_range z -> wrap z = z.
Proof.
  unfold in_range, wrap, min_int, max_int, half, modulus. intros H.
  rewrite Z.mod_small; lia.
Qed.

Lemma wrap_in_range (z : Z) : in_range (wrap z).
Proof.
  unfold in_range, wrap, min_int, max_int.
  assert (H : 0 <= (z + half) mod modulus < modulus)
    by (apply Z.mod_pos_bound; reflexivity).
  unfold half, modulus in *. lia.
Qed.

Lemma wrap_plus_l (a b : Z) : wrap (wrap a + b) = wrap (a + b).
Proof.
  unfold wrap. f_equal.
  replace ((a + half) mod modulus - half + b + half)
    with ((a + half) mod modulus + b) by lia.
  rewrite Zplus_mod_idemp_l. f_equal. lia.
Qed.

Lemma wrap_plus_r (a b : Z) : wrap (a + wrap b) = wrap (a + b).
Proof. rewrite (Z.add_comm a), wrap_plus_l. f_equal. lia. Qed.

Lemma wrap_minus_l (a b : Z) : wrap (wrap a - b) = wrap (a - b).
Proof. unfold Z.sub. apply wrap_plus_l. Qed.

Lemma add_small (x y : Z) : in_range (x + y) -> add x y = x + y.
Proof. apply wrap_small. Qed.

Lemma sub_small (x y : Z) : in_range (x - y) -> sub x y = x - y.
Proof. apply wrap_small. Qed.

Lemma mul_small (x y : Z) : in_range (x * y) -> mul x y = x * y.
Proof. apply wrap_small. Qed.

Lemma quot_small (x y : Z) : 0 <= x -> 0 < y -> in_range x -> quot x y = x / y.
Proof.
  intros Hx Hy Hr. unfold quot. rewrite Z.quot_div_nonneg by lia.
  apply wrap_small. unfold in_range, min_int, max_int, half in *.
  assert (0 <= x / y) by (apply Z.div_pos; lia).
  assert (x / y <= x).
  { apply Z.div_le_upper_bound; [lia|].
    rewrite <- (Z.mul_1_l x) at 1. apply Z.mul_le_mono_nonneg_r; lia. }
  lia.
Qed.

End Int64Facts.

(** ** Lookups and writes through pointers *)

Section SliceFacts.
Context {A : Type}.
Implicit Types (test : A -> bool) (l : list A).

Lemma findFrom_offset test l i :
  findFrom test l i =
  match findFrom test l 0 with
  | Some (j, x) => Some ((i + j)%nat, x)
  | None => None
  end.
Proof.
  revert i. induction l as [|y l IH]; intros i; simpl; auto.
  destruct (test y).
  - f_equal. f_equal. lia.
  - rewrite (IH (S i)), (IH 1%nat).
    destruct (findFrom test l 0) as [[j x]|]; auto.
    f_equal. f_equal. lia.
Qed.

Lemma findFirst_cons test y l :
  findFirst test (y :: l) =
  if test y then Some (O, y)
  else match findFirst test l with
       | Some (j, x) => Some (S j, x)
       | None => None
       end.
Proof.
  unfold findFirst. simpl. destruct (test y); auto.
  rewrite findFrom_offset. destruct (findFrom test l 0) as [[j x]|]; reflexivity.
Qed.

(* The slot found holds the value found, the value passes the test, and no
   earlier slot holds a value that does. *)
Lemma findFirst_Some test l j x :
  findFirst test l = Some (j, x) ->
  nth_error l j = Some x /\ test x = true
  /\ forall k y, (k < j)%nat -> nth_error l k = Some y -> test y = false.
Proof.
  revert j. induction l as [|y l IH]; intros j.
  - discriminate.
  - rewrite findFirst_cons. destruct (test y) eqn:Hy.
    + intros H; inversion H; subst. repeat split; auto. intros; lia.
    + destruct (findFirst test l) as [[j' x']|]; [|discriminate].
      intros H; inversion H; subst. destruct (IH _ eq_refl) as (H1 & H2 & H3).
      repeat split; auto. intros [|k] z Hk Hz; simpl in Hz.
      * inversion Hz; subst; assumption.
      * apply (H3 k); auto. lia.
Qed.

Lemma findFirst_None test l :
  findFirst test l = None <-> forall x, In x l -> test x = false.
Proof.
  induction l as [|y l IH].
  - split; [intros _ x []|reflexivity].
  - rewrite findFirst_cons. destruct (test y) eqn:Hy.
    + split; [discriminate|]. intros H. rewrite (H y) in Hy by (left; reflexivity).
      discriminate.
    + destruct (findFirst test l) as [[j x]|].
      * split; [discriminate|]. intros H. exfalso.
        assert (Hn : Some (j, x) = None); [|discriminate].
        apply IH. intros z Hz. apply H. right. assumption.
      * split; auto. intros _ x [<-|Hx]; auto. apply IH; auto.
Qed.

Lemma findFirst_app test l t :
  findFirst test (l ++ t) =
  match findFirst test l with
  | Some found => Some found
  | None => match findFirst test t with
            | Some (j, x) => Some ((length l + j)%nat, x)
            | None => None
            end
  end.
Proof.
  induction l as [|y l IH].
  - simpl. destruct (findFirst test t) as [[j x]|]; reflexivity.
  - simpl app. rewrite !findFirst_cons, IH. destruct (test y); auto.
    destruct (findFirst test l) as [[j x]|]; auto.
    destruct (findFirst test t) as [[j x]|]; auto.
Qed.

(* A write that keeps the outcome of the test at the slot it overwrites moves
   no lookup to another slot. *)
Lemma findFirst_setAt test l k old new :
  nth_error l k = Some old -> test new = test old ->
  findFirst test (setAt k new l) =
  match findFirst test l with
  | Some (j, x) => Some (j, if Nat.eqb j k then new else x)
  | None => None
  end.
Proof.
  revert k. induction l as [|y l IH]; intros k Hk Ht.
  - destruct k; discriminate.
  - destruct k as [|k]; simpl in Hk.
    + inversion Hk; subst. simpl setAt. rewrite !findFirst_cons, Ht.
      destruct (test old); auto.
      destruct (findFirst test l) as [[j x]|]; auto.
    + simpl setAt. rewrite !findFirst_cons, (IH k Hk Ht).
      destruct (test y); auto.
      destruct (findFirst test l) as [[j x]|]; auto.
Qed.

Lemma nth_error_setAt_same l k x old :
  nth_error l k = Some old -> nth_error (setAt k x l) k = Some x.
Proof.
  revert k. induction l as [|y l IH]; intros [|k] H; simpl in *; try discriminate; auto.
Qed.

Lemma nth_error_setAt_other l k x i :
  i <> k -> nth_error (setAt k x l) i = nth_error l i.
Proof.
  revert k i. induction l as [|y l IH]; intros [|k] [|i] H; simpl; auto; try lia.
Qed.

Lemma length_setAt l k x : length (setAt k x l) = length l.
Proof.
  revert k. induction l as [|y l IH]; intros [|k]; simpl; auto.
Qed.

Lemma Forall_setAt (P : A -> Prop) l k x : Forall P l -> P x -> Forall P (setAt k x l).
Proof.
  intros H Hx. revert k. induction H as [|y l Hy Hl IH]; intros [|k]; simpl; auto.
Qed.

Lemma map_setAt {B : Type} (f : A -> B) l k x old :
  nth_error l k = Some old -> f x = f old -> map f (setAt k x l) = map f l.
Proof.
  revert k. induction l as [|y l IH]; intros [|k] H Hf; simpl in *; try discriminate; auto.
  - inversion H; subst. congruence.
  - f_equal. eauto.
Qed.

End SliceFacts.

(** ** Account lookups after a write *)

Lemma findAccount_setBalance accountID l ptr account b :
  findAccount accountID l = Some (ptr, account) ->
  findAccount accountID (setAt ptr (Account.setBalance account b) l)
  = Some (ptr, Account.setBalance account b).
Proof.
  intros H. unfold findAccount in *.
  destruct (findFirst_Some _ _ _ _ H) as (Hn & _ & _).
  rewrite (findFirst_setAt _ l ptr account) by (auto; reflexivity).
  rewrite H, Nat.eqb_refl. reflexivity.
Qed.

(* A write to the account of one identifier leaves the lookup of any other
   identifier as it was. *)
Lemma findAccount_setBalance_other accountID other l ptr account b :
  findAccount accountID l = Some (ptr, account) ->
  other <> accountID ->
  findAccount other (setAt ptr (Account.setBalance account b) l) = findAccount other l.
Proof.
  intros H Hne. unfold findAccount in *.
  destruct (findFirst_Some _ _ _ _ H) as (Hn & Hid & _).
  rewrite (findFirst_setAt _ l ptr account) by (auto; reflexivity).
  destruct (findFirst (fun acc => Account.ID acc =? other) l) as [[j x]|] eqn:Hj; auto.
  destruct (Nat.eqb_spec j ptr) as [->|]; auto.
  destruct (findFirst_Some _ _ _ _ Hj) as (Hn' & Hid' & _).
  rewrite Hn in Hn'. inversion Hn'; subst x.
  cbv beta in Hid, Hid'. apply Z.eqb_eq in Hid. apply Z.eqb_eq in Hid'.
  exfalso. apply Hne. congruence.
Qed.

Lemma findPayment_setStatus paymentID l ptr payment st :
  findPayment paymentID l = Some (ptr, payment) ->
  findPayment paymentID (setAt ptr (Payment.setStatus payment st) l)
  = Some (ptr, Payment.setStatus payment st).
Proof.
  intros H. unfold findPayment in *.
  destruct (findFirst_Some _ _ _ _ H) as (Hn & _ & _).
  rewrite (findFirst_setAt _ l ptr payment) by (auto; reflexivity).
  rewrite H, Nat.eqb_refl. reflexivity.
Qed.

(** ** Pay *)

(** C8: Pay with an amount that is zero or negative returns
    ErrAmountMustBePositive and leaves the service exactly as it was: every
    balance is unchanged and no payment is appended. *)
Theorem Pay_amount_not_positive (uuid : string) (accountID : Z) (amount : Money)
  (category : PaymentCategory) (s : Service) :
  amount <= 0 ->
  Pay uuid accountID amount category s = (Err ErrAmountMustBePositive, s)
  /\ accounts (snd (Pay uuid accountID amount category s)) = accounts s
  /\ payments (snd (Pay uuid accountID amount category s)) = payments s.
Proof.
  intros H. unfold Pay.
  destruct (Z.leb_spec amount 0); [|lia]. auto.
Qed.

Lemma Pay_amount_not_positive_witness :
  Pay "u12" 1 (-5) "food" fillData = (Err ErrAmountMustBePositive, fillData)
  /\ accounts (snd (Pay "u12" 1 (-5) "food" fillData)) = accounts fillData
  /\ payments (snd (Pay "u12" 1 (-5) "food" fillData)) = payments fillData.
Proof. apply Pay_amount_not_positive. lia. Defined.

(** C2: Pay checks, in this order, that the amount is positive
    (ErrAmountMustBePositive), that an account has the identifier
    (ErrAccountNotFound) and that its balance covers the amount
    (ErrNotEnoughBalance); a failed call changes nothing.  Otherwise it takes
    exactly the amount from the balance of that account, leaves every other
    account as it was, appends exactly one payment, made of the identifier
    drawn from the generator, the account identifier, the amount, the
    category and the status INPROGRESS, and returns that payment; when the
    identifier drawn is not yet in use, the identifiers of the collection
    stay pairwise distinct. *)
Theorem Pay_spec (uuid : string) (accountID : Z) (amount : Money)
  (category : PaymentCategory) (s : Service) :
  (amount <= 0 ->
   Pay uuid accountID amount category s = (Err ErrAmountMustBePositive, s))
  /\ (0 < amount ->
      (forall account, In account (accounts s) -> Account.ID account <> accountID) ->
      Pay uuid accountID amount category s = (Err ErrAccountNotFound, s))
  /\ (forall ptr account,
      0 < amount ->
      findAccount accountID (accounts s) = Some (ptr, account) ->
      Account.Balance account < amount ->
      Pay uuid accountID amount category s = (Err ErrNotEnoughBalance, s))
  /\ (forall ptr account,
      0 < amount ->
      findAccount accountID (accounts s) = Some (ptr, account) ->
      amount <= Account.Balance account ->
      Int64.in_range (Account.Balance account) ->
      let payment := {| Payment.ID := uuid; Payment.AccountID := accountID;
                        Payment.Amount := amount; Payment.Category := category;
                        Payment.Status := PaymentStatusInProgress |} in
      let debited := Account.setBalance account (Account.Balance account - amount) in
      exists s',
        Pay uuid accountID amount category s = (Ok payment, s')
        /\ payments s' = payments s ++ [payment]
        /\ findAccount accountID (accounts s') = Some (ptr, debited)
        /\ accounts s' = setAt ptr debited (accounts s)
        /\ (forall i, i <> ptr -> nth_error (accounts s') i = nth_error (accounts s) i)
        /\ nextAccountID s' = nextAccountID s
        /\ favorites s' = favorites s
        /\ (NoDup (map Payment.ID (payments s)) ->
            ~ In uuid (map Payment.ID (payments s)) ->
            NoDup (map Payment.ID (payments s')))).
Proof.
  split; [|split; [|split]].
  - intros H. unfold Pay. destruct (Z.leb_spec amount 0); [|lia]. reflexivity.
  - intros Hpos Hnone. unfold Pay.
    destruct (Z.leb_spec amount 0); [lia|].
    assert (Hf : findAccount accountID (accounts s) = None).
    { apply findFirst_None. intros a Ha. apply Z.eqb_neq. auto. }
    rewrite Hf. reflexivity.
  - intros ptr account Hpos Hf Hlt. unfold Pay.
    destruct (Z.leb_spec amount 0); [lia|]. rewrite Hf.
    destruct (Z.ltb_spec (Account.Balance account) amount); [|lia]. reflexivity.
  - intros ptr account Hpos Hf Hle Hr payment debited.
    assert (Hsub : Int64.sub (Account.Balance account) amount = Account.Balance account - amount).
    { apply Int64Facts.sub_small. revert Hr.
      unfold Int64.in_range, Int64.min_int, Int64.max_int, Int64.half. lia. }
    exists {| nextAccountID := nextAccountID s;
              accounts := setAt ptr debited (accounts s);
              payments := payments s ++ [payment];
              favorites := favorites s |}.
    split; [|split; [|split; [|split; [|split; [|split; [|split]]]]]]; try reflexivity.
    + unfold Pay. destruct (Z.leb_spec amount 0); [lia|]. rewrite Hf.
      destruct (Z.ltb_spec (Account.Balance account) amount); [lia|].
      rewrite Hsub. reflexivity.
    + simpl. apply findAccount_setBalance. assumption.
    + intros i Hi. simpl. apply nth_error_setAt_other. assumption.
    + simpl. intros Hnd Hfresh. rewrite map_app. simpl.
      apply (Permutation_NoDup (Permutation_cons_append _ _)).
      constructor; assumption.
Qed.

Lemma Pay_spec_witness :
  exists s',
    Pay "u12" 1 5 "food" fillData
    = (Ok {| Payment.ID := "u12"; Payment.AccountID := 1; Payment.Amount := 5;
             Payment.Category := "food"; Payment.Status := PaymentStatusInProgress |}, s')
    /\ findAccount 1 (accounts s')
       = Some (O, {| Account.ID := 1; Account.Phone := "+992000000001";
                     Account.Balance := 999967 |}).
Proof.
  destruct (Pay_spec "u12" 1 5 "food" fillData) as (_ & _ & _ & H).
  destruct (H O {| Account.ID := 1; Account.Phone := "+992000000001";
                   Account.Balance := 999972 |}) as (s' & H1 & _ & H2 & _).
  - lia.
  - reflexivity.
  - simpl. lia.
  - vm_compute. split; discriminate.
  - exists s'. split; assumption.
Defined.

(** ** RegisterAccount *)

(** C7: when an account already has the phone, RegisterAccount returns
    ErrPhoneRegistered and leaves the service as it was: the counter of
    identifiers is not incremented and no account is appended.  When no account
    has the phone, it increments the counter, gives the new value to an account
    with that phone and a zero balance, appends that account and returns it. *)
Theorem RegisterAccount_spec (phone : Phone) (s : Service) :
  ((exists account, In account (accounts s) /\ Account.Phone account = phone) ->
   RegisterAccount phone s = (Err ErrPhoneRegistered, s)
   /\ nextAccountID (snd (RegisterAccount phone s)) = nextAccountID s
   /\ accounts (snd (RegisterAccount phone s)) = accounts s)
  /\ ((forall account, In account (accounts s) -> Account.Phone account <> phone) ->
      let account := {| Account.ID := Int64.add (nextAccountID s) 1;
                        Account.Phone := phone; Account.Balance := 0 |} in
      RegisterAccount phone s
      = (Ok account,
         {| nextAccountID := Int64.add (nextAccountID s) 1;
            accounts := accounts s ++ [account];
            payments := payments s;
            favorites := favorites s |})
      /\ (Int64.in_range (nextAccountID s) -> nextAccountID s < Int64.max_int ->
          Account.ID account = nextAccountID s + 1)).
Proof.
  split.
  - intros (account & Hin & Hphone). unfold RegisterAccount.
    destruct (findFirst _ (accounts s)) as [found|] eqn:Hf; [auto|].
    exfalso. rewrite findFirst_None in Hf. specialize (Hf account Hin).
    cbv beta in Hf. rewrite Hphone, String.eqb_refl in Hf. discriminate.
  - intros Hfresh account. split.
    + unfold RegisterAccount.
      destruct (findFirst _ (accounts s)) as [[j found]|] eqn:Hf; [|reflexivity].
      exfalso. destruct (findFirst_Some _ _ _ _ Hf) as (Hn & Ht & _).
      apply String.eqb_eq in Ht. apply nth_error_In in Hn.
      exact (Hfresh found Hn Ht).
    + intros Hr Hlt. simpl. apply Int64Facts.add_small.
      revert Hr Hlt. unfold Int64.in_range, Int64.min_int, Int64.max_int, Int64.half. lia.
Qed.

Lemma RegisterAccount_spec_witness :
  RegisterAccount "+992000000002" fillData = (Err ErrPhoneRegistered, fillData)
  /\ fst (RegisterAccount "+992000000004" fillData)
     = Ok {| Account.ID := 4; Account.Phone := "+992000000004"; Account.Balance := 0 |}.
Proof.
  split.
  - apply (proj1 (RegisterAccount_spec "+992000000002" fillData)).
    exists {| Account.ID := 2; Account.Phone := "+992000000002"; Account.Balance := 1999992 |}.
    split; [|reflexivity]. vm_compute. auto.
  - destruct (proj2 (RegisterAccount_spec "+992000000004" fillData)) as [H _].
    + intros account Hin. vm_compute in Hin.
      destruct Hin as [<-|[<-|[<-|[]]]]; discriminate.
    + rewrite H. reflexivity.
Defined.

(** ** Reject *)

(** C10: when the payment that has the identifier names an account that no
    account of the service has, Reject returns ErrAccountNotFound and leaves
    the service as it was: the status of the payment is not set to FAIL and no
    balance is modified. *)
Theorem Reject_account_missing (paymentID : string) (s : Service)
  (pptr : nat) (payment : Payment.t) :
  findPayment paymentID (payments s) = Some (pptr, payment) ->
  (forall account, In account (accounts s) -> Account.ID account <> Payment.AccountID payment) ->
  Reject paymentID s = (Some ErrAccountNotFound, s)
  /\ payments (snd (Reject paymentID s)) = payments s
  /\ accounts (snd (Reject paymentID s)) = accounts s.
Proof.
  intros Hp Hnone.
  assert (Hf : findAccount (Payment.AccountID payment) (accounts s) = None).
  { apply findFirst_None. intros a Ha. apply Z.eqb_neq. auto. }
  unfold Reject, FindPaymentByID, FindAccountByID. rewrite Hp, Hf. auto.
Qed.

Lemma Reject_account_missing_witness :
  let s := withAccounts fillData [] in
  Reject "u3" s = (Some ErrAccountNotFound, s)
  /\ payments (snd (Reject "u3" s)) = payments s
  /\ accounts (snd (Reject "u3" s)) = accounts s.
Proof.
  intros s.
  apply (Reject_account_missing "u3" s 2
           {| Payment.ID := "u3"; Payment.AccountID := 1; Payment.Amount := 3;
              Payment.Category := "transport"; Payment.Status := PaymentStatusInProgress |}).
  - reflexivity.
  - intros account [].
Defined.

(** C4: when the service holds a payment with the identifier and the account
    that payment names, Reject sets the status of the payment to FAIL and adds
    the amount of the payment to the balance of the account, whatever the
    status of the payment was; a second call on the same payment adds the
    amount a second time.  After each call the payment is found under its
    identifier with the status FAIL and its other fields as they were.  The
    additions are those of [types.Money]: they are exact as long as the sum
    fits 64 bits. *)
Theorem Reject_credits_whatever_status (paymentID : string) (s : Service)
  (pptr aptr : nat) (payment : Payment.t) (account : Account.t) :
  findPayment paymentID (payments s) = Some (pptr, payment) ->
  findAccount (Payment.AccountID payment) (accounts s) = Some (aptr, account) ->
  let failed := {| Payment.ID := Payment.ID payment;
                   Payment.AccountID := Payment.AccountID payment;
                   Payment.Amount := Payment.Amount payment;
                   Payment.Category := Payment.Category payment;
                   Payment.Status := PaymentStatusFail |} in
  let credited := fun balance : Money =>
                    {| Account.ID := Account.ID account;
                       Account.Phone := Account.Phone account;
                       Account.Balance := balance |} in
  let once := Int64.add (Account.Balance account) (Payment.Amount payment) in
  let twice := Int64.add once (Payment.Amount payment) in
  exists s1 s2,
    Reject paymentID s = (None, s1)
    /\ payments s1 = setAt pptr failed (payments s)
    /\ accounts s1 = setAt aptr (credited once) (accounts s)
    /\ findPayment paymentID (payments s1) = Some (pptr, failed)
    /\ Payment.Status failed = PaymentStatusFail
    /\ findAccount (Payment.AccountID payment) (accounts s1) = Some (aptr, credited once)
    /\ nextAccountID s1 = nextAccountID s /\ favorites s1 = favorites s
    /\ Reject paymentID s1 = (None, s2)
    /\ findPayment paymentID (payments s2) = Some (pptr, failed)
    /\ findAccount (Payment.AccountID payment) (accounts s2) = Some (aptr, credited twice)
    /\ (Int64.in_range (Account.Balance account + Payment.Amount payment) ->
        once = Account.Balance account + Payment.Amount payment)
    /\ (Int64.in_range (Account.Balance account + 2 * Payment.Amount payment) ->
        twice = Account.Balance account + 2 * Payment.Amount payment).
Proof.
  intros Hp Ha failed credited once twice.
  pose (s1 := {| nextAccountID := nextAccountID s;
                 accounts := setAt aptr (credited once) (accounts s);
                 payments := setAt pptr failed (payments s);
                 favorites := favorites s |}).
  assert (Hp1 : findPayment paymentID (payments s1) = Some (pptr, failed))
    by (apply (findPayment_setStatus paymentID (payments s) pptr payment PaymentStatusFail Hp)).
  assert (Ha1 : findAccount (Payment.AccountID payment) (accounts s1)
                = Some (aptr, credited once))
    by (apply (findAccount_setBalance _ (accounts s) aptr account once Ha)).
  pose (s2 := {| nextAccountID := nextAccountID s1;
                 accounts := setAt aptr (credited twice) (accounts s1);
                 payments := setAt pptr failed (payments s1);
                 favorites := favorites s1 |}).
  exists s1, s2.
  split; [|split; [|split; [|split; [|split; [|split; [|split; [|split; [|split;
    [|split; [|split; [|split]]]]]]]]]]]; try reflexivity; try assumption.
  - unfold Reject, FindPaymentByID, FindAccountByID. rewrite Hp, Ha. reflexivity.
  - unfold Reject, FindPaymentByID, FindAccountByID. rewrite Hp1.
    change (Payment.AccountID failed) with (Payment.AccountID payment).
    rewrite Ha1. reflexivity.
  - apply (findPayment_setStatus paymentID (payments s1) pptr failed PaymentStatusFail Hp1).
  - apply (findAccount_setBalance _ (accounts s1) aptr (credited once) twice Ha1).
  - apply Int64Facts.add_small.
  - intros Hr. unfold twice, once, Int64.add. rewrite Int64Facts.wrap_plus_l.
    rewrite <- Int64Facts.wrap_small by exact Hr. f_equal. lia.
Qed.

Lemma Reject_credits_whatever_status_witness :
  exists s1 s2,
    Reject "u3" fillData = (None, s1)
    /\ findPayment "u3" (payments s1)
       = Some (2%nat, {| Payment.ID := "u3"; Payment.AccountID := 1; Payment.Amount := 3;
                         Payment.Category := "transport";
                         Payment.Status := PaymentStatusFail |})
    /\ Reject "u3" s1 = (None, s2)
    /\ findPayment "u3" (payments s2)
       = Some (2%nat, {| Payment.ID := "u3"; Payment.AccountID := 1; Payment.Amount := 3;
                         Payment.Category := "transport";
                         Payment.Status := PaymentStatusFail |})
    /\ findAccount 1 (accounts s2)
       = Some (O, {| Account.ID := 1; Account.Phone := "+992000000001";
                     Account.Balance := 999978 |}).
Proof.
  destruct (Reject_credits_whatever_status "u3" fillData 2 0
              {| Payment.ID := "u3"; Payment.AccountID := 1; Payment.Amount := 3;
                 Payment.Category := "transport"; Payment.Status := PaymentStatusInProgress |}
              {| Account.ID := 1; Account.Phone := "+992000000001";
                 Account.Balance := 999972 |} eq_refl eq_refl)
    as (s1 & s2 & H1 & _ & _ & Hp1 & _ & _ & _ & _ & H2 & Hp2 & H3 & _).
  exists s1, s2. repeat split; assumption.
Defined.

(** ** What the calls do to the collection of payments *)

(* A call either leaves the collection as it was, or appends one payment in
   progress, or sets the status of one payment to FAIL (Reject only). *)
Lemma call_payments (c : Call) (s : Service) :
  payments (snd (call c s)) = payments s
  \/ (exists payment, Payment.Status payment = PaymentStatusInProgress
                      /\ payments (snd (call c s)) = payments s ++ [payment])
  \/ (exists ptr payment, isReject c = true
                          /\ nth_error (payments s) ptr = Some payment
                          /\ payments (snd (call c s))
                             = setAt ptr (Payment.setStatus payment PaymentStatusFail) (payments s)).
Proof.
  assert (HPay : forall uuid accountID amount category,
             payments (snd (errorOf (Pay uuid accountID amount category s))) = payments s
             \/ (exists payment, Payment.Status payment = PaymentStatusInProgress
                   /\ payments (snd (errorOf (Pay uuid accountID amount category s)))
                      = payments s ++ [payment])).
  { intros uuid accountID amount category. unfold Pay.
    destruct (amount <=? 0); auto.
    destruct (findAccount accountID (accounts s)) as [[ptr account]|]; auto.
    destruct (Account.Balance account <? amount); auto.
    right. eexists. split; [|reflexivity]. reflexivity. }
  destruct c as [phone|accountID amount|uuid accountID amount category|paymentID
                |uuid paymentID|uuid paymentID name|uuid favoriteID]; simpl.
  - left. unfold RegisterAccount. destruct (findFirst _ (accounts s)); reflexivity.
  - left. unfold Deposit. destruct (amount <=? 0); auto.
    destruct (findAccount accountID (accounts s)) as [[ptr account]|]; reflexivity.
  - destruct (HPay uuid accountID amount category) as [H|H]; auto.
  - unfold Reject, FindPaymentByID, FindAccountByID.
    destruct (findPayment paymentID (payments s)) as [[pptr payment]|] eqn:Hp; auto.
    destruct (findAccount (Payment.AccountID payment) (accounts s)) as [[aptr account]|]; auto.
    right. right. exists pptr, payment. repeat split.
    apply (findFirst_Some _ _ _ _ Hp).
  - unfold Repeat, FindPaymentByID, FindAccountByID.
    destruct (findPayment paymentID (payments s)) as [[pptr payment]|]; auto.
    destruct (findAccount (Payment.AccountID payment) (accounts s)) as [[aptr account]|]; auto.
    destruct (Payment.Amount payment >? Account.Balance account); auto.
    destruct (HPay uuid (Account.ID account) (Payment.Amount payment)
                (Payment.Category payment)) as [H|H]; auto.
  - left. unfold FavoritePayment, FindPaymentByID.
    destruct (findPayment paymentID (payments s)) as [[pptr payment]|]; reflexivity.
  - unfold PayFromFavorite, FindFavoriteByID, FindAccountByID.
    destruct (findFavorite favoriteID (favorites s)) as [[fptr favorite]|]; auto.
    destruct (findAccount (Favorite.AccountID favorite) (accounts s)) as [[aptr account]|]; auto.
    destruct (Favorite.Amount favorite >? Account.Balance account); auto.
    destruct (HPay uuid (Account.ID account) (Favorite.Amount favorite)
                (Favorite.Category favorite)) as [H|H]; auto.
Qed.

Lemma call_statusWritten (c : Call) (s : Service) :
  Forall statusWritten (payments s) -> Forall statusWritten (payments (snd (call c s))).
Proof.
  intros H. destruct (call_payments c s) as [E|[(p & Hp & E)|(ptr & p & _ & _ & E)]]; rewrite E.
  - assumption.
  - apply Forall_app. split; auto. constructor; auto. left. assumption.
  - apply Forall_setAt; auto. right. reflexivity.
Qed.

Lemma run_statusWritten (calls : list Call) (s : Service) :
  Forall statusWritten (payments s) -> Forall statusWritten (payments (run calls s)).
Proof.
  revert s. induction calls as [|c calls IH]; intros s H; simpl.
  - assumption.
  - apply IH. apply call_statusWritten. assumption.
Qed.

(** C9: in every state that the core operations (RegisterAccount, Deposit,
    Pay, Reject, Repeat, FavoritePayment, PayFromFavorite) reach from the empty
    ledger, no payment has the status OK: every status is INPROGRESS or FAIL.
    In any state, a call leaves each payment of the collection as it is, or
    the call is Reject and sets the status of the payment to FAIL; and
    a payment the call adds to the collection has the status INPROGRESS. *)
Theorem status_OK_never_reached :
  (forall calls payment,
      In payment (payments (run calls emptyService)) ->
      Payment.Status payment <> PaymentStatusOk
      /\ (Payment.Status payment = PaymentStatusInProgress
          \/ Payment.Status payment = PaymentStatusFail))
  /\ (forall c s i payment,
         nth_error (payments s) i = Some payment ->
         nth_error (payments (snd (call c s))) i = Some payment
         \/ (isReject c = true
             /\ nth_error (payments (snd (call c s))) i
                = Some (Payment.setStatus payment PaymentStatusFail)))
  /\ (forall c s i payment,
         (length (payments s) <= i)%nat ->
         nth_error (payments (snd (call c s))) i = Some payment ->
         Payment.Status payment = PaymentStatusInProgress).
Proof.
  split; [|split].
  - intros calls payment Hin.
    assert (H : Forall statusWritten (payments (run calls emptyService)))
      by (apply run_statusWritten; constructor).
    rewrite Forall_forall in H. specialize (H payment Hin).
    split; [|exact H]. destruct H as [H|H]; rewrite H; discriminate.
  - intros c s i payment Hi.
    destruct (call_payments c s) as [E|[(p & Hp & E)|(ptr & p & Hr & Hn & E)]]; rewrite E.
    + left. assumption.
    + left. rewrite nth_error_app1; auto. apply nth_error_Some. congruence.
    + destruct (Nat.eq_dec i ptr) as [->|Hne].
      * right. split; auto. rewrite Hn in Hi. inversion Hi; subst.
        eapply nth_error_setAt_same; eauto.
      * left. rewrite nth_error_setAt_other; auto.
  - intros c s i payment Hlen Hi.
    destruct (call_payments c s) as [E|[(p & Hp & E)|(ptr & p & Hr & Hn & E)]];
      rewrite E in Hi.
    + apply nth_error_None in Hlen. congruence.
    + rewrite nth_error_app2 in Hi by assumption.
      destruct (i - length (payments s))%nat as [|k]; simpl in Hi.
      * inversion Hi; subst. assumption.
      * destruct k; discriminate.
    + assert (Hs : nth_error (setAt ptr (Payment.setStatus p PaymentStatusFail) (payments s)) i
                   <> None) by congruence.
      apply nth_error_Some in Hs. rewrite length_setAt in Hs. lia.
Qed.

Lemma status_OK_never_reached_witness :
  let rejected := {| Payment.ID := "u2"; Payment.AccountID := 1; Payment.Amount := 2;
                     Payment.Category := "mobile"; Payment.Status := PaymentStatusFail |} in
  In rejected (payments (run (fillCalls ++ [CallReject "u2"; CallRepeat "u12" "u2"]) emptyService))
  /\ Payment.Status rejected <> PaymentStatusOk.
Proof.
  intros rejected.
  assert (Hin : In rejected
                  (payments (run (fillCalls ++ [CallReject "u2"; CallRepeat "u12" "u2"])
                               emptyService)))
    by (vm_compute; auto).
  split; [exact Hin|].
  exact (proj1 (proj1 status_OK_never_reached _ _ Hin)).
Defined.

(** ** Balances are 64-bit values *)

(* Every balance a call writes is the result of a wrapped operation. *)
Lemma call_balances_in_range (c : Call) (s : Service) :
  Forall (fun account => Int64.in_range (Account.Balance account)) (accounts s) ->
  Forall (fun account => Int64.in_range (Account.Balance account)) (accounts (snd (call c s))).
Proof.
  intros H.
  assert (HPay : forall uuid accountID amount category,
             Forall (fun account => Int64.in_range (Account.Balance account))
               (accounts (snd (errorOf (Pay uuid accountID amount category s))))).
  { intros uuid accountID amount category. unfold Pay.
    destruct (amount <=? 0); auto.
    destruct (findAccount accountID (accounts s)) as [[ptr account]|]; auto.
    destruct (Account.Balance account <? amount); auto.
    simpl. apply Forall_setAt; auto. apply Int64Facts.wrap_in_range. }
  destruct c as [phone|accountID amount|uuid accountID amount category|paymentID
                |uuid paymentID|uuid paymentID name|uuid favoriteID]; simpl.
  - unfold RegisterAccount. destruct (findFirst _ (accounts s)); auto.
    simpl. apply Forall_app. split; auto. constructor; auto.
    simpl. vm_compute. split; discriminate.
  - unfold Deposit. destruct (amount <=? 0); auto.
    destruct (findAccount accountID (accounts s)) as [[ptr account]|]; auto.
    simpl. apply Forall_setAt; auto. apply Int64Facts.wrap_in_range.
  - apply HPay.
  - unfold Reject, FindPaymentByID, FindAccountByID.
    destruct (findPayment paymentID (payments s)) as [[pptr payment]|]; auto.
    destruct (findAccount (Payment.AccountID payment) (accounts s)) as [[aptr account]|]; auto.
    simpl. apply Forall_setAt; auto. apply Int64Facts.wrap_in_range.
  - unfold Repeat, FindPaymentByID, FindAccountByID.
    destruct (findPayment paymentID (payments s)) as [[pptr payment]|]; auto.
    destruct (findAccount (Payment.AccountID payment) (accounts s)) as [[aptr account]|]; auto.
    destruct (Payment.Amount payment >? Account.Balance account); auto.
  - unfold FavoritePayment, FindPaymentByID.
    destruct (findPayment paymentID (payments s)) as [[pptr payment]|]; auto.
  - unfold PayFromFavorite, FindFavoriteByID, FindAccountByID.
    destruct (findFavorite favoriteID (favorites s)) as [[fptr favorite]|]; auto.
    destruct (findAccount (Favorite.AccountID favorite) (accounts s)) as [[aptr account]|]; auto.
    destruct (Favorite.Amount favorite >? Account.Balance account); auto.
Qed.

(* In every state the operations reach from the empty ledger, every balance is
   a 64-bit value. *)
Lemma run_balances_in_range (calls : list Call) (s : Service) :
  Forall (fun account => Int64.in_range (Account.Balance account)) (accounts s) ->
  Forall (fun account => Int64.in_range (Account.Balance account)) (accounts (run calls s)).
Proof.
  revert s. induction calls as [|c calls IH]; intros s H; simpl.
  - assumption.
  - apply IH. apply call_balances_in_range. assumption.
Qed.

(** ** Money integrity *)

Lemma findFirst_map {A B : Type} (f : A -> B) (test : B -> bool) (l : list A) :
  findFirst test (map f l)
  = match findFirst (fun x => test (f x)) l with
    | Some (j, x) => Some (j, f x)
    | None => None
    end.
Proof.
  induction l as [|y l IH]; auto.
  simpl map. rewrite !findFirst_cons, IH. destruct (test (f y)); auto.
  destruct (findFirst (fun x => test (f x)) l) as [[j x]|]; reflexivity.
Qed.

(* A lookup by identifier gives the same slot and the same entry in any
   collection that extends the entries of the one it was made in. *)
Lemma findPayment_extends (paymentID : string) (ps ps' : list Payment.t)
  (tail : list (string * Z * Money)) (ptr : nat) (payment : Payment.t) :
  findPayment paymentID ps = Some (ptr, payment) ->
  map entry ps' = map entry ps ++ tail ->
  exists payment', findPayment paymentID ps' = Some (ptr, payment')
                   /\ entry payment' = entry payment.
Proof.
  intros Hf He.
  pose (test := fun e : string * Z * Money => String.eqb (fst (fst e)) paymentID).
  assert (H : findFirst test (map entry ps') = Some (ptr, entry payment)).
  { rewrite He, findFirst_app, findFirst_map.
    change (findFirst (fun x => test (entry x)) ps) with (findPayment paymentID ps).
    rewrite Hf. reflexivity. }
  rewrite findFirst_map in H.
  change (findFirst (fun x => test (entry x)) ps') with (findPayment paymentID ps') in H.
  destruct (findPayment paymentID ps') as [[j x]|]; [|discriminate].
  exists x. split; congruence.
Qed.

Lemma call_entries (c : Call) (s : Service) :
  exists tail, map entry (payments (snd (call c s))) = map entry (payments s) ++ tail.
Proof.
  destruct (call_payments c s) as [E|[(p & Hp & E)|(ptr & p & _ & Hn & E)]]; rewrite E.
  - exists []. rewrite app_nil_r. reflexivity.
  - exists [entry p]. apply map_app.
  - exists []. rewrite app_nil_r. eapply map_setAt; eauto.
Qed.

Lemma runOk_entries (calls : list Call) (s s' : Service) :
  runOk calls s = Some s' ->
  exists tail, map entry (payments s') = map entry (payments s) ++ tail.
Proof.
  revert s. induction calls as [|c calls IH]; intros s H; simpl in H.
  - inversion H; subst. exists []. rewrite app_nil_r. reflexivity.
  - destruct (call_entries c s) as [t1 H1].
    destruct (call c s) as [[err|] s1]; [discriminate|].
    destruct (IH _ H) as [t2 H2]. simpl in H1.
    exists (t1 ++ t2). rewrite H2, H1, app_assoc. reflexivity.
Qed.

(* The balance an account has after a sequence of successful deposits,
   payments and rejections, from any balance that fits 64 bits. *)
Lemma balance_after (calls : list Call) :
  forall (s s' : Service) (accountID : Z) (ptr : nat) (account : Account.t),
    forallb moneyCall calls = true ->
    findAccount accountID (accounts s) = Some (ptr, account) ->
    Int64.in_range (Account.Balance account) ->
    runOk calls s = Some s' ->
    exists account',
      findAccount accountID (accounts s') = Some (ptr, account')
      /\ Account.Balance account'
         = Int64.wrap (Account.Balance account + balanceOfCalls accountID calls (payments s')).
Proof.
  unfold balanceOfCalls.
  induction calls as [|c calls IH]; intros s s' accountID ptr account Hm Hf Hr Hrun.
  - simpl in Hrun. inversion Hrun; subst. exists account. split; auto.
    simpl. rewrite Int64Facts.wrap_small; [lia|]. replace (_ + _) with (Account.Balance account) by lia.
    assumption.
  - simpl in Hm. apply andb_true_iff in Hm. destruct Hm as [Hc Hm].
    simpl in Hrun. destruct (call c s) as [[err|] s1] eqn:Hcall; [discriminate|].
    destruct (runOk_entries _ _ _ Hrun) as [tail Htail].
    (* the balance of the account after the call, as a wrapped update *)
    assert (Hstep : exists account1,
               findAccount accountID (accounts s1) = Some (ptr, account1)
               /\ Int64.in_range (Account.Balance account1)
               /\ Account.Balance account1
                  = Int64.wrap (Account.Balance account
                                + (deposited accountID [c] - paid accountID [c]
                                   + refunded accountID (payments s') [c]))).
    { destruct c as [phone|aid amount|uuid aid amount category|paymentID
                    |uuid paymentID|uuid paymentID name|uuid favoriteID];
        try discriminate; simpl in Hcall; simpl deposited; simpl paid; simpl refunded.
      - (* Deposit *)
        unfold Deposit in Hcall. destruct (amount <=? 0); [discriminate|].
        destruct (findAccount aid (accounts s)) as [[aptr acc]|] eqn:Ha; [|discriminate].
        inversion Hcall; subst s1; clear Hcall. simpl accounts.
        destruct (Z.eqb_spec aid accountID) as [->|Hne].
        + rewrite Hf in Ha. inversion Ha; subst aptr acc.
          eexists. split; [apply findAccount_setBalance; assumption|].
          split; [apply Int64Facts.wrap_in_range|]. simpl. unfold Int64.add. f_equal. lia.
        + exists account. split; [|split; auto].
          * rewrite (findAccount_setBalance_other aid accountID); auto.
          * rewrite Int64Facts.wrap_small; [lia|].
            replace (_ + _) with (Account.Balance account) by lia. assumption.
      - (* Pay *)
        unfold Pay in Hcall. destruct (amount <=? 0); [discriminate|].
        destruct (findAccount aid (accounts s)) as [[aptr acc]|] eqn:Ha; [|discriminate].
        destruct (Account.Balance acc <? amount); [discriminate|].
        inversion Hcall; subst s1; clear Hcall. simpl accounts.
        destruct (Z.eqb_spec aid accountID) as [->|Hne].
        + rewrite Hf in Ha. inversion Ha; subst aptr acc.
          eexists. split; [apply findAccount_setBalance; assumption|].
          split; [apply Int64Facts.wrap_in_range|]. simpl. unfold Int64.sub. f_equal. lia.
        + exists account. split; [|split; auto].
          * rewrite (findAccount_setBalance_other aid accountID); auto.
          * rewrite Int64Facts.wrap_small; [lia|].
            replace (_ + _) with (Account.Balance account) by lia. assumption.
      - (* Reject *)
        unfold Reject, FindPaymentByID, FindAccountByID in Hcall.
        destruct (findPayment paymentID (payments s)) as [[pptr payment]|] eqn:Hp;
          [|discriminate].
        destruct (findAccount (Payment.AccountID payment) (accounts s)) as [[aptr acc]|] eqn:Ha;
          [|discriminate].
        inversion Hcall; subst s1; clear Hcall. simpl accounts.
        (* the rejected payment, as the final collection records it *)
        assert (Hrefund : refundOf accountID (payments s') paymentID
                          = if Payment.AccountID payment =? accountID
                            then Payment.Amount payment else 0).
        { simpl payments in Htail.
          assert (He : map entry (setAt pptr (Payment.setStatus payment PaymentStatusFail)
                                    (payments s)) = map entry (payments s)).
          { eapply map_setAt; [apply (findFirst_Some _ _ _ _ Hp)|reflexivity]. }
          rewrite He in Htail.
          destruct (findPayment_extends _ _ _ _ _ _ Hp Htail) as (p' & Hp' & Hent).
          unfold refundOf. rewrite Hp'. unfold entry in Hent. inversion Hent.
          reflexivity. }
        rewrite Hrefund.
        destruct (Z.eqb_spec (Payment.AccountID payment) accountID) as [Heq|Hne].
        + rewrite Heq, Hf in Ha. inversion Ha; subst aptr acc.
          eexists. split; [apply findAccount_setBalance; assumption|].
          split; [apply Int64Facts.wrap_in_range|]. simpl. unfold Int64.add. f_equal. lia.
        + exists account. split; [|split; auto].
          * rewrite (findAccount_setBalance_other (Payment.AccountID payment) accountID); auto.
          * rewrite Int64Facts.wrap_small; [lia|].
            replace (_ + _) with (Account.Balance account) by lia. assumption. }
    destruct Hstep as (account1 & Hf1 & Hr1 & Hb1).
    destruct (IH s1 s' accountID ptr account1 Hm Hf1 Hr1 Hrun) as (account' & Hf' & Hb').
    exists account'. split; auto. rewrite Hb', Hb1, Int64Facts.wrap_plus_l. f_equal.
    destruct c; try discriminate; simpl; lia.
Qed.

(** C1, as amended: for every account that starts with a zero balance and every
    finite sequence of successful Deposit, Pay and Reject calls, the final
    balance of the account equals, in the 64-bit arithmetic of [types.Money],
    the sum of the amounts deposited to it, minus the sum of the amounts of
    all the payments it made, rejected or not, plus the sum of the amounts of
    its rejected payments counted once for each call to Reject.  The equality
    is exact when that total fits 64 bits. *)
Theorem balance_counts_every_payment (calls : list Call) (s s' : Service)
  (accountID : Z) (ptr : nat) (account : Account.t) :
  forallb moneyCall calls = true ->
  findAccount accountID (accounts s) = Some (ptr, account) ->
  Account.Balance account = 0 ->
  runOk calls s = Some s' ->
  exists account',
    findAccount accountID (accounts s') = Some (ptr, account')
    /\ Account.Balance account'
       = Int64.wrap (deposited accountID calls - paid accountID calls
                     + refunded accountID (payments s') calls)
    /\ (Int64.in_range (deposited accountID calls - paid accountID calls
                        + refunded accountID (payments s') calls) ->
        Account.Balance account'
        = deposited accountID calls - paid accountID calls
          + refunded accountID (payments s') calls).
Proof.
  intros Hm Hf H0 Hrun.
  destruct (balance_after calls s s' accountID ptr account Hm Hf) as (account' & Hf' & Hb); auto.
  { rewrite H0. vm_compute. split; discriminate. }
  rewrite H0 in Hb. unfold balanceOfCalls in Hb. simpl in Hb.
  exists account'. split; [assumption|]. split; [assumption|].
  intros Hr. rewrite Hb. apply Int64Facts.wrap_small. assumption.
Qed.

Lemma balance_counts_every_payment_witness :
  exists account',
    findAccount 1 (accounts (run rejectedOnce registered)) = Some (O, account')
    /\ Account.Balance account'
       = Int64.wrap (deposited 1 rejectedOnce - paid 1 rejectedOnce
                     + refunded 1 (payments (run rejectedOnce registered)) rejectedOnce).
Proof.
  destruct (balance_counts_every_payment rejectedOnce registered (run rejectedOnce registered) 1 O
              {| Account.ID := 1; Account.Phone := "+992000000001"; Account.Balance := 0 |})
    as (account' & H1 & H2 & _).
  - reflexivity.
  - reflexivity.
  - reflexivity.
  - reflexivity.
  - exists account'. split; assumption.
Defined.

(** C1, as stated, fails: after a deposit of 100, a payment of 30 and the
    rejection of that payment the balance is 100, while the sum of the
    deposits, minus the payments never rejected (none), plus the rejected
    amount (30) is 130. *)
Lemma balance_leaving_rejected_out_counterexample :
  forallb moneyCall rejectedOnce = true
  /\ balanceOf 1 registered = Some 0
  /\ runOk rejectedOnce registered = Some (run rejectedOnce registered)
  /\ balanceOf 1 (run rejectedOnce registered) = Some 100
  /\ balanceLeavingRejectedOut 1 rejectedOnce (payments (run rejectedOnce registered)) = 130
  /\ balanceOf 1 (run rejectedOnce registered)
     <> Some (balanceLeavingRejectedOut 1 rejectedOnce (payments (run rejectedOnce registered))).
Proof.
  repeat split; try reflexivity. vm_compute. discriminate.
Qed.

(** ** The scheduler only reorders *)

Section SchedulingFacts.
Context {A : Type}.
Implicit Types (l pending : list A).

Lemma extract_Permutation k l x rest :
  extract k l = Some (x, rest) -> Permutation l (x :: rest).
Proof.
  revert k x rest. induction l as [|y l IH]; intros k x rest H; simpl in H.
  - discriminate.
  - destruct k as [|k]; simpl in H.
    + inversion H; subst. reflexivity.
    + destruct (extract k l) as [[z r]|] eqn:He; [|discriminate].
      inversion H; subst. rewrite (IH _ _ _ He). apply perm_swap.
Qed.

Lemma extract_in_bounds k l :
  (k < length l)%nat -> exists x rest, extract k l = Some (x, rest).
Proof.
  revert k. induction l as [|y l IH]; intros k H; simpl in *.
  - lia.
  - destruct k as [|k]; [eauto|].
    destruct (IH k) as (x & rest & He); [lia|]. rewrite He. eauto.
Qed.

Lemma interleave_Permutation fuel oracle pending :
  (length pending <= fuel)%nat -> Permutation (interleave fuel oracle pending) pending.
Proof.
  revert oracle pending. induction fuel as [|fuel IH]; intros oracle pending H; simpl.
  - destruct pending; [reflexivity|simpl in H; lia].
  - destruct pending as [|y pending'] eqn:Hp; [reflexivity|]. rewrite <- Hp in *.
    assert (Hlen : (length pending <> 0)%nat) by (subst; discriminate).
    destruct (extract_in_bounds (Nat.modulo (hd O oracle) (length pending)) pending)
      as (x & rest & He).
    { apply Nat.mod_upper_bound. assumption. }
    rewrite He. pose proof (extract_Permutation _ _ _ _ He) as Hperm.
    rewrite Hperm. constructor. apply IH.
    apply Permutation_length in Hperm. simpl in Hperm. lia.
Qed.

Lemma completionOrder_Permutation oracle pending :
  Permutation (completionOrder oracle pending) pending.
Proof. apply interleave_Permutation. lia. Qed.

Lemma extract_In l x :
  In x l -> exists k rest, (k < length l)%nat /\ extract k l = Some (x, rest).
Proof.
  induction l as [|y l IH]; intros Hin; simpl in *.
  - contradiction.
  - destruct Hin as [->|Hin].
    + exists O, l. split; [lia|reflexivity].
    + destruct (IH Hin) as (k & rest & Hk & He).
      exists (S k), (y :: rest). split; [lia|]. rewrite He. reflexivity.
Qed.

(* Every order of the goroutines is the choice of some oracle. *)
Lemma interleave_any_order (order : list A) :
  forall fuel pending,
    Permutation order pending -> (length pending <= fuel)%nat ->
    exists oracle, interleave fuel oracle pending = order.
Proof.
  induction order as [|x order IH]; intros fuel pending Hperm Hfuel.
  - apply Permutation_nil in Hperm. subst. exists []. destruct fuel; reflexivity.
  - destruct (extract_In pending x) as (k & rest & Hk & He).
    { apply (Permutation_in _ Hperm). left. reflexivity. }
    pose proof (extract_Permutation _ _ _ _ He) as Hrest.
    destruct fuel as [|fuel]; [simpl in Hfuel; lia|].
    destruct (IH fuel rest) as [oracle Ho].
    + apply Permutation_cons_inv with (a := x). rewrite Hperm. assumption.
    + apply Permutation_length in Hrest. simpl in Hrest. lia.
    + exists (k :: oracle). simpl. rewrite Nat.mod_small by assumption.
      rewrite He, Ho. reflexivity.
Qed.

Lemma completionOrder_any_order (order spawned : list A) :
  Permutation order spawned -> exists oracle, completionOrder oracle spawned = order.
Proof. intros H. apply interleave_any_order; [assumption|lia]. Qed.

(* With no oracle the goroutines finish in the order they were spawned. *)
Lemma completionOrder_nil pending : completionOrder [] pending = pending.
Proof.
  unfold completionOrder. induction pending as [|y l IH]; auto.
  cbn [length interleave hd tl]. rewrite Nat.Div0.mod_0_l.
  cbn [extract]. f_equal. exact IH.
Qed.

End SchedulingFacts.

(** ** Partitions *)

Section PartitionFacts.
Context {A : Type}.
Implicit Types (l : list A).

Lemma skipn_nth_error l n x :
  nth_error l n = Some x -> skipn n l = x :: skipn (S n) l.
Proof.
  revert n. induction l as [|y l IH]; intros [|n] H; simpl in *; try discriminate.
  - inversion H; reflexivity.
  - apply IH. assumption.
Qed.

Lemma firstn_plus l a b : firstn (a + b) l = firstn a l ++ firstn b (skipn a l).
Proof.
  revert l. induction a as [|a IH]; intros l; simpl; auto.
  destruct l as [|y l]; simpl.
  - rewrite firstn_nil. reflexivity.
  - rewrite IH. reflexivity.
Qed.

(* Consecutive ranges of one width, put end to end, are a prefix. *)
Lemma chunks_concat l width k :
  concat (map (chunk l width) (seq 0 k)) = firstn (k * width) l.
Proof.
  unfold chunk. induction k as [|k IH]; auto.
  rewrite seq_S, map_app, concat_app, IH. simpl.
  rewrite app_nil_r, <- firstn_plus. f_equal. lia.
Qed.

End PartitionFacts.

(* [paysPerRoutine] and the bounds of every worker fit an [int]. *)
Lemma partition_bounds (n goroutines i : Z) :
  0 <= n < maxLen -> 1 <= goroutines <= Int64.max_int -> 0 <= i < goroutines ->
  let paysPerRoutine := n / goroutines + 1 in
  1 <= paysPerRoutine
  /\ 0 <= i * paysPerRoutine
  /\ i * paysPerRoutine + paysPerRoutine <= Int64.max_int
  /\ n < goroutines * paysPerRoutine.
Proof.
  intros Hn Hg Hi p.
  assert (Hq : 0 <= n / goroutines) by (apply Z.div_pos; lia).
  assert (Hmod : 0 <= n mod goroutines < goroutines) by (apply Z.mod_pos_bound; lia).
  pose proof (Z.div_mod n goroutines ltac:(lia)) as Hdm.
  assert (Hgp : goroutines * p = n - n mod goroutines + goroutines) by (unfold p; lia).
  assert (Hip : i * p + p <= goroutines * p) by (unfold p; nia).
  repeat split; try (unfold p; lia); try nia.
  destruct (Z_lt_le_dec n goroutines) as [Hlt|Hle].
  - rewrite (Z.div_small n goroutines) in * by lia.
    unfold p in *. simpl in *. lia.
  - unfold maxLen, Int64.max_int, Int64.half in *. lia.
Qed.

(** ** The workers *)

Section WorkerFacts.
Context {B : Type}.
Variable body : B -> Payment.t -> B.

(* The inner loop folds the body over the positions [j, higherEnd) that the
   collection has; it does not panic and does not run out of fuel. *)
Lemma rangeLoop_fold (fuel : nat) (ps : list Payment.t) :
  forall (j higherEnd : Z) (acc : B),
    0 <= j -> higherEnd <= Int64.max_int -> len ps <= Int64.max_int ->
    (Z.to_nat (higherEnd - j) <= fuel)%nat ->
    rangeLoop body fuel ps j higherEnd acc
    = Some (fold_left body (firstn (Z.to_nat (higherEnd - j)) (skipn (Z.to_nat j) ps)) acc).
Proof.
  induction fuel as [|fuel IH]; intros j higherEnd acc Hj Hh Hlen Hfuel.
  - simpl. destruct (Z.ltb_spec j higherEnd); [lia|].
    replace (Z.to_nat (higherEnd - j)) with O by lia. reflexivity.
  - simpl. destruct (Z.ltb_spec j higherEnd) as [Hlt|Hge].
    + assert (Hsub : Int64.sub (len ps) 1 = len ps - 1).
      { apply Int64Facts.sub_small. unfold len in *.
        unfold Int64.in_range, Int64.min_int, Int64.max_int, Int64.half in *. lia. }
      rewrite Hsub. destruct (Z.gtb_spec j (len ps - 1)) as [Hout|Hin].
      * rewrite skipn_all2 by (unfold len in Hout; lia). rewrite firstn_nil. reflexivity.
      * assert (Hsome : exists payment, nth_error ps (Z.to_nat j) = Some payment).
        { destruct (nth_error ps (Z.to_nat j)) as [payment|] eqn:Hn; [eauto|].
          apply nth_error_None in Hn. unfold len in Hin. lia. }
        destruct Hsome as [payment Hn]. unfold index.
        destruct (Z.ltb_spec j 0); [lia|]. rewrite Hn.
        assert (Hadd : Int64.add j 1 = j + 1).
        { apply Int64Facts.add_small.
          unfold Int64.in_range, Int64.min_int, Int64.max_int, Int64.half in *. lia. }
        rewrite Hadd, IH by lia.
        rewrite (skipn_nth_error _ _ _ Hn).
        replace (Z.to_nat (higherEnd - j)) with (S (Z.to_nat (higherEnd - (j + 1)))) by lia.
        replace (Z.to_nat (j + 1)) with (S (Z.to_nat j)) by lia. reflexivity.
    + replace (Z.to_nat (higherEnd - j)) with O by lia. reflexivity.
Qed.

(* The goroutine of iteration [i] folds the body over the range
   [i * width, i * width + width), cut at the end of the collection. *)
Lemma worker_fold (ps : list Payment.t) (goroutines : Z) (i : nat) (init : B) :
  len ps < maxLen -> 1 <= goroutines <= Int64.max_int -> Z.of_nat i < goroutines ->
  let paysPerRoutine := Int64.add (Int64.quot (len ps) goroutines) 1 in
  let width := Z.to_nat (len ps / goroutines + 1) in
  paysPerRoutine = len ps / goroutines + 1
  /\ worker body ps paysPerRoutine (Z.of_nat i) init
     = Some (fold_left body (chunk ps width i) init).
Proof.
  intros Hlen Hg Hi paysPerRoutine width.
  assert (Hn : 0 <= len ps) by (unfold len; lia).
  destruct (partition_bounds (len ps) goroutines (Z.of_nat i)) as (Hp & Hlo & Hhi & _);
    try lia.
  assert (Hppr : paysPerRoutine = len ps / goroutines + 1).
  { unfold paysPerRoutine. rewrite Int64Facts.quot_small; try lia.
    - apply Int64Facts.add_small.
      unfold Int64.in_range, Int64.min_int, Int64.max_int, Int64.half in *. nia.
    - unfold Int64.in_range, Int64.min_int, Int64.max_int, Int64.half, maxLen in *. lia. }
  split; [exact Hppr|]. unfold worker. rewrite Hppr.
  set (p := len ps / goroutines + 1) in *.
  assert (Hmul : Int64.mul (Z.of_nat i) p = Z.of_nat i * p).
  { apply Int64Facts.mul_small.
    unfold Int64.in_range, Int64.min_int, Int64.max_int, Int64.half in *. lia. }
  assert (Hadd : Int64.add (Z.of_nat i * p) p = Z.of_nat i * p + p).
  { apply Int64Facts.add_small.
    unfold Int64.in_range, Int64.min_int, Int64.max_int, Int64.half in *. lia. }
  rewrite Hmul, Hadd, rangeLoop_fold; try lia.
  - replace (Z.to_nat (Z.of_nat i * p + p - Z.of_nat i * p)) with width by (unfold width; lia).
    replace (Z.to_nat (Z.of_nat i * p)) with (i * width)%nat by (unfold width; nia).
    reflexivity.
  - unfold maxLen, Int64.max_int, Int64.half in *. lia.
Qed.

End WorkerFacts.

(** ** Joining the workers *)

Lemma joinAll_Some {B R : Type} (merge : R -> B -> R) (partials : list B) (total : R) :
  joinAll merge (map Some partials) total = Some (fold_left merge partials total).
Proof.
  unfold joinAll. revert total. induction partials as [|x l IH]; intros total; simpl; auto.
Qed.

(* Whatever the scheduler does, the goroutines of a partitioned scan compute
   the folds of the body over the chunks, each chunk once, and the chunks put
   end to end in the order of the iterations are the whole collection. *)
Lemma workers_partition {B : Type} (body : B -> Payment.t -> B) (init : B)
  (oracle : list nat) (goroutines : Z) (ps : list Payment.t) :
  len ps < maxLen -> goroutines <= Int64.max_int ->
  let g := clampGoroutines goroutines in
  let paysPerRoutine := Int64.add (Int64.quot (len ps) g) 1 in
  let width := Z.to_nat (len ps / g + 1) in
  let order := map Z.to_nat (completionOrder oracle (iterations g)) in
  Permutation order (seq 0 (Z.to_nat g))
  /\ map (fun i => worker body ps paysPerRoutine i init) (completionOrder oracle (iterations g))
     = map Some (map (fun i => fold_left body (chunk ps width i) init) order)
  /\ concat (map (chunk ps width) (seq 0 (Z.to_nat g))) = ps.
Proof.
  intros Hlen Hmax g paysPerRoutine width order.
  assert (Hg : 1 <= g <= Int64.max_int).
  { unfold g, clampGoroutines. destruct (Z.ltb_spec goroutines 1); [|lia].
    unfold Int64.max_int, Int64.half. lia. }
  pose proof (completionOrder_Permutation oracle (iterations g)) as Hperm.
  split; [|split].
  - unfold order. rewrite Hperm. unfold iterations. rewrite map_map.
    rewrite (map_ext _ (fun i => i)) by (intros; apply Nat2Z.id).
    rewrite map_id. reflexivity.
  - unfold order. rewrite !map_map. apply map_ext_in. intros i Hi.
    apply (Permutation_in _ Hperm) in Hi. unfold iterations in Hi.
    apply in_map_iff in Hi. destruct Hi as (k & <- & Hk). apply in_seq in Hk.
    rewrite Nat2Z.id.
    apply (worker_fold body ps g k init); try assumption. lia.
  - rewrite chunks_concat. apply firstn_all2.
    assert (Hn : 0 <= len ps) by (unfold len; lia).
    destruct (partition_bounds (len ps) g 0 ltac:(lia) Hg ltac:(lia))
      as (Hp & _ & _ & Hcover).
    unfold width. unfold len in *. nia.
Qed.

(** ** SumPayments *)

Lemma sumZ_app (l t : list Z) : sumZ (l ++ t) = sumZ l + sumZ t.
Proof. induction l as [|x l IH]; simpl; lia. Qed.

Lemma sumZ_Permutation (l t : list Z) : Permutation l t -> sumZ l = sumZ t.
Proof. induction 1; simpl; lia. Qed.

Lemma sumZ_concat (ls : list (list Z)) : sumZ (concat ls) = sumZ (map sumZ ls).
Proof.
  induction ls as [|l ls IH]; simpl; auto. rewrite sumZ_app, IH. reflexivity.
Qed.

(* Adding amounts one by one with wrap-around is adding them all and wrapping
   once. *)
Lemma fold_add_amounts (ps : list Payment.t) (a : Z) :
  fold_left (fun sum payment => Int64.add sum (Payment.Amount payment)) ps (Int64.wrap a)
  = Int64.wrap (a + sumZ (amounts ps)).
Proof.
  revert a. induction ps as [|p ps IH]; intros a; simpl.
  - f_equal. lia.
  - unfold Int64.add at 2. rewrite Int64Facts.wrap_plus_l, IH. f_equal. lia.
Qed.

Lemma batchSum_wrap (ps : list Payment.t) : batchSum ps = Int64.wrap (sumZ (amounts ps)).
Proof. apply (fold_add_amounts ps 0). Qed.

Lemma fold_add_wrapped (xs : list Z) (a : Z) :
  fold_left Int64.add (map Int64.wrap xs) (Int64.wrap a) = Int64.wrap (a + sumZ xs).
Proof.
  revert a. induction xs as [|x xs IH]; intros a; simpl.
  - f_equal. lia.
  - unfold Int64.add at 2.
    rewrite Int64Facts.wrap_plus_l, Int64Facts.wrap_plus_r, IH. f_equal. lia.
Qed.

(* SumPayments returns the wrapped sum of all the amounts, for every number of
   goroutines and every schedule. *)
Lemma SumPayments_total (oracle : list nat) (goroutines : Z) (s : Service) :
  len (payments s) < maxLen -> goroutines <= Int64.max_int ->
  SumPayments oracle goroutines s = Some (Int64.wrap (sumZ (amounts (payments s)))).
Proof.
  intros Hlen Hmax. unfold SumPayments.
  destruct (workers_partition
              (fun partialSum payment => Int64.add partialSum (Payment.Amount payment))
              0 oracle goroutines (payments s) Hlen Hmax) as (Hperm & Hw & Hcat).
  rewrite Hw, joinAll_Some. f_equal.
  set (width := Z.to_nat (len (payments s) / clampGoroutines goroutines + 1)) in *.
  rewrite (map_ext _ (fun i => Int64.wrap (sumZ (amounts (chunk (payments s) width i)))))
    by (intros i; apply batchSum_wrap).
  rewrite <- (map_map (fun i => sumZ (amounts (chunk (payments s) width i))) Int64.wrap).
  rewrite (fold_add_wrapped _ 0). f_equal. simpl.
  rewrite (sumZ_Permutation _ _ (Permutation_map _ Hperm)).
  assert (E : sumZ (amounts (payments s))
              = sumZ (amounts (concat (map (chunk (payments s) width)
                                         (seq 0 (Z.to_nat (clampGoroutines goroutines)))))))
    by (rewrite Hcat; reflexivity).
  rewrite E. unfold amounts. rewrite concat_map, sumZ_concat, !map_map.
  reflexivity.
Qed.

(** ** FilterPayments *)

Lemma fold_filter_append {A : Type} (f : A -> bool) (l acc : list A) :
  fold_left (fun partial x => if f x then partial ++ [x] else partial) l acc
  = acc ++ filter f l.
Proof.
  revert acc. induction l as [|x l IH]; intros acc; simpl.
  - rewrite app_nil_r. reflexivity.
  - rewrite IH. destruct (f x); auto. rewrite <- app_assoc. reflexivity.
Qed.

Lemma fold_app_concat {A : Type} (ls : list (list A)) (acc : list A) :
  fold_left (@app A) ls acc = acc ++ concat ls.
Proof.
  revert acc. induction ls as [|l ls IH]; intros acc; simpl.
  - rewrite app_nil_r. reflexivity.
  - rewrite IH, app_assoc. reflexivity.
Qed.

(* The workers of a filter return the matching payments of the chunks, chunk
   after chunk in the order the goroutines finish: a rearrangement of the
   matching payments of the collection, and the matching payments in their
   order when the goroutines finish in the order of the iterations. *)
Lemma filterWorkers_found (filter : Payment.t -> bool) (oracle : list nat)
  (goroutines : Z) (s : Service) :
  len (payments s) < maxLen -> goroutines <= Int64.max_int ->
  exists found,
    filterWorkers filter oracle goroutines s = Some found
    /\ Permutation found (List.filter filter (payments s))
    /\ (oracle = [] -> found = List.filter filter (payments s)).
Proof.
  intros Hlen Hmax. unfold filterWorkers.
  destruct (workers_partition
              (fun partialPayments payment =>
                 if filter payment then partialPayments ++ [payment] else partialPayments)
              [] oracle goroutines (payments s) Hlen Hmax) as (Hperm & Hw & Hcat).
  set (g := clampGoroutines goroutines) in *.
  set (width := Z.to_nat (len (payments s) / g + 1)) in *.
  set (order := map Z.to_nat (completionOrder oracle (iterations g))) in *.
  rewrite Hw, joinAll_Some, fold_app_concat. simpl.
  rewrite (map_ext _ (fun i => List.filter filter (chunk (payments s) width i)))
    by (intros i; rewrite fold_filter_append; reflexivity).
  assert (Hall : concat (map (fun i => List.filter filter (chunk (payments s) width i))
                           (seq 0 (Z.to_nat g)))
                 = List.filter filter (payments s)).
  { rewrite <- (map_map (chunk (payments s) width) (List.filter filter)).
    rewrite concat_filter_map, Hcat. reflexivity. }
  eexists. split; [reflexivity|]. split.
  - rewrite <- Hall, <- !flat_map_concat_map.
    apply Permutation_flat_map. assumption.
  - intros ->. rewrite <- Hall. f_equal. f_equal.
    unfold order. rewrite completionOrder_nil. unfold iterations.
    rewrite map_map, (map_ext _ (fun i => i)) by (intros; apply Nat2Z.id).
    apply map_id.
Qed.

Lemma findAccount_exists (accountID : Z) (l : list Account.t) :
  (exists account, In account l /\ Account.ID account = accountID) ->
  exists found, findAccount accountID l = Some found.
Proof.
  intros (account & Hin & Hid).
  destruct (findAccount accountID l) as [found|] eqn:Hf; [eauto|].
  exfalso. apply findFirst_None with (x := account) in Hf; auto.
  cbv beta in Hf. rewrite Hid, Z.eqb_refl in Hf. discriminate.
Qed.

(** C6: FilterPayments returns ErrAccountNotFound when no account has the
    identifier, whatever the number of goroutines.  When an account has it, the
    call returns the payments of the collection whose account identifier is
    the given one, each as many times as the collection holds it, in an order
    that depends on the schedule; so the same payments for every number of
    goroutines and every schedule. *)
Theorem FilterPayments_spec (oracle : list nat) (accountID k : Z) (s : Service) :
  ((forall account, In account (accounts s) -> Account.ID account <> accountID) ->
   FilterPayments oracle accountID k s = Some (Err ErrAccountNotFound))
  /\ ((exists account, In account (accounts s) /\ Account.ID account = accountID) ->
      len (payments s) < maxLen -> k <= Int64.max_int ->
      exists found,
        FilterPayments oracle accountID k s = Some (Ok found)
        /\ Permutation found
             (filter (fun payment => Payment.AccountID payment =? accountID) (payments s))
        /\ (forall payment,
               In payment found
               <-> In payment (payments s) /\ Payment.AccountID payment = accountID)
        /\ (forall (oracle' : list nat) (k' : Z),
               k' <= Int64.max_int ->
               exists found',
                 FilterPayments oracle' accountID k' s = Some (Ok found')
                 /\ Permutation found found')).
Proof.
  split.
  - intros Hnone. unfold FilterPayments, FindAccountByID.
    assert (Hf : findAccount accountID (accounts s) = None).
    { apply findFirst_None. intros a Ha. apply Z.eqb_neq. auto. }
    rewrite Hf. reflexivity.
  - intros Hex Hlen Hmax.
    destruct (findAccount_exists _ _ Hex) as [account Hf].
    assert (Hcall : forall oracle0 k0, k0 <= Int64.max_int ->
              exists found0,
                FilterPayments oracle0 accountID k0 s = Some (Ok found0)
                /\ Permutation found0
                     (filter (fun payment => Payment.AccountID payment =? accountID)
                        (payments s))).
    { intros oracle0 k0 Hk0.
      destruct (filterWorkers_found (fun payment => Payment.AccountID payment =? accountID)
                  oracle0 k0 s Hlen Hk0) as (found0 & Hw & Hperm & _).
      exists found0. split; [|assumption].
      unfold FilterPayments, FindAccountByID. rewrite Hf, Hw. reflexivity. }
    destruct (Hcall oracle k Hmax) as (found & Hfound & Hperm).
    exists found. split; [assumption|]. split; [assumption|]. split.
    + intros payment. split.
      * intros Hin. apply (Permutation_in _ Hperm) in Hin.
        apply filter_In in Hin. destruct Hin as [Hin Hid].
        apply Z.eqb_eq in Hid. auto.
      * intros [Hin Hid]. apply (Permutation_in _ (Permutation_sym Hperm)).
        apply filter_In. split; [assumption|]. apply Z.eqb_eq. assumption.
    + intros oracle' k' Hk'. destruct (Hcall oracle' k' Hk') as (found' & Hfound' & Hperm').
      exists found'. split; [assumption|].
      rewrite Hperm, Hperm'. reflexivity.
Qed.

Lemma FilterPayments_spec_witness :
  FilterPayments [3; 1; 0]%nat 7 5 fillData = Some (Err ErrAccountNotFound)
  /\ exists found,
       FilterPayments [3; 1; 0]%nat 3 5 fillData = Some (Ok found)
       /\ Permutation found
            (filter (fun payment => Payment.AccountID payment =? 3) (payments fillData)).
Proof.
  split.
  - apply (proj1 (FilterPayments_spec [3; 1; 0]%nat 7 5 fillData)).
    intros account Hin. vm_compute in Hin.
    destruct Hin as [<-|[<-|[<-|[]]]]; discriminate.
  - destruct (proj2 (FilterPayments_spec [3; 1; 0]%nat 3 5 fillData)) as (found & H1 & H2 & _).
    + exists {| Account.ID := 3; Account.Phone := "+992000000003"; Account.Balance := 2999970 |}.
      split; [|reflexivity]. vm_compute. auto.
    + reflexivity.
    + vm_compute. discriminate.
    + exists found. split; assumption.
Defined.

(** C3: for every collection of payments, SumPayments returns for every number
    of goroutines k >= 1, under every schedule, what it returns for one
    goroutine: the sum of all the amounts (in the arithmetic of types.Money).
    The ranges of the workers, of width len/k + 1 and cut at the end of the
    collection, taken in the order of the iterations, hold every payment
    exactly once.  For the collection of amounts 1 to 11, SumPayments returns
    66 for every number of goroutines. *)
Theorem SumPayments_any_worker_count :
  (forall (s : Service) (oracle oracle1 : list nat) (k : Z),
      len (payments s) < maxLen -> 1 <= k <= Int64.max_int ->
      SumPayments oracle k s = SumPayments oracle1 1 s
      /\ SumPayments oracle k s = Some (Int64.wrap (sumZ (amounts (payments s))))
      /\ filterWorkers (fun _ => true) [] k s = Some (payments s))
  /\ amounts (payments fillData) = [1; 2; 3; 4; 5; 6; 7; 8; 9; 10; 11]
  /\ (forall (oracle : list nat) (k : Z),
         k <= Int64.max_int -> SumPayments oracle k fillData = Some 66).
Proof.
  split; [|split].
  - intros s oracle oracle1 k Hlen Hk.
    assert (H1 : 1 <= Int64.max_int) by (vm_compute; discriminate).
    rewrite (SumPayments_total oracle k s Hlen (proj2 Hk)).
    rewrite (SumPayments_total oracle1 1 s Hlen H1).
    split; [reflexivity|]. split; [reflexivity|].
    destruct (filterWorkers_found (fun _ => true) [] k s Hlen (proj2 Hk))
      as (found & Hw & _ & Hall).
    rewrite Hw, (Hall eq_refl). f_equal.
    clear. induction (payments s) as [|p ps IH]; simpl; congruence.
  - reflexivity.
  - intros oracle k Hk. rewrite SumPayments_total; auto. reflexivity.
Qed.

Lemma SumPayments_any_worker_count_witness :
  SumPayments [2; 0; 1]%nat 3 fillData = SumPayments [] 1 fillData
  /\ SumPayments [2; 0; 1]%nat 3 fillData = Some 66.
Proof.
  destruct (proj1 SumPayments_any_worker_count fillData [2; 0; 1]%nat [] 3) as (H1 & _ & _).
  - reflexivity.
  - split; [lia|]. vm_compute. discriminate.
  - split; [exact H1|].
    apply (proj2 (proj2 SumPayments_any_worker_count)). vm_compute. discriminate.
Defined.

(** ** SumPaymentsWithProgress *)

(* The amounts of a range of the collection, position by position. *)
Lemma sumBetween_range (ps : list Payment.t) (lo hi : nat) :
  sumZ (amounts (firstn (hi - lo) (skipn lo ps))) = sumBetween ps lo hi.
Proof.
  unfold sumBetween. generalize (hi - lo)%nat as k. intros k. revert lo.
  induction k as [|k IH]; intros lo; auto.
  simpl seq. simpl map. simpl sumZ. rewrite <- IH. unfold amountAt.
  destruct (nth_error ps lo) as [payment|] eqn:Hn.
  - rewrite (skipn_nth_error _ _ _ Hn). reflexivity.
  - apply nth_error_None in Hn.
    rewrite !skipn_all2 by lia. rewrite !firstn_nil. reflexivity.
Qed.

Lemma slice_in_bounds {A : Type} (l : list A) (lo hi : Z) :
  0 <= lo <= hi -> hi <= len l ->
  slice l lo hi = Some (firstn (Z.to_nat hi - Z.to_nat lo) (skipn (Z.to_nat lo) l)).
Proof.
  intros H1 H2. unfold slice. fold (len l).
  destruct (Z.leb_spec 0 lo); [|lia].
  destruct (Z.leb_spec lo hi); [|lia].
  destruct (Z.leb_spec hi (len l)); [|lia].
  simpl. f_equal. f_equal. lia.
Qed.

(* The driver sends one entry for each batch, in the order of the batches. *)
Lemma progressLoop_entries (size : Z) (ps : list Payment.t) :
  0 < size -> len ps + size <= Int64.max_int ->
  forall (k a : nat) (progressChannel : list Progress.t),
    (forall i, In i (seq a k) -> Z.of_nat i * size <= len ps) ->
    progressLoop size ps (map Z.of_nat (seq a k)) progressChannel
    = Some (progressChannel ++ map (entryOfBatch ps (Z.to_nat size)) (seq a k)).
Proof.
  intros Hsize Hmax. induction k as [|k IH]; intros a chan Hin.
  - simpl. rewrite app_nil_r. reflexivity.
  - simpl seq. simpl map. simpl progressLoop.
    assert (Ha : Z.of_nat a * size <= len ps) by (apply Hin; left; reflexivity).
    assert (Hn : 0 <= len ps) by (unfold len; lia).
    assert (Hlo : 0 <= Z.of_nat a * size) by (apply Z.mul_nonneg_nonneg; lia).
    assert (Hle : Z.of_nat a <= Z.of_nat a * size).
    { rewrite <- (Z.mul_1_r (Z.of_nat a)) at 1. apply Z.mul_le_mono_nonneg_l; lia. }
    assert (Hhi : (1 + Z.of_nat a) * size = Z.of_nat a * size + size) by lia.
    assert (Hmul : Int64.mul (Z.of_nat a) size = Z.of_nat a * size).
    { apply Int64Facts.mul_small.
      unfold Int64.in_range, Int64.min_int, Int64.max_int, Int64.half in *. lia. }
    assert (Hadd : Int64.add 1 (Z.of_nat a) = 1 + Z.of_nat a).
    { apply Int64Facts.add_small.
      unfold Int64.in_range, Int64.min_int, Int64.max_int, Int64.half in *. lia. }
    assert (Hmul' : Int64.mul (1 + Z.of_nat a) size = (1 + Z.of_nat a) * size).
    { apply Int64Facts.mul_small.
      unfold Int64.in_range, Int64.min_int, Int64.max_int, Int64.half in *. lia. }
    rewrite Hmul, Hadd, Hmul'.
    set (batchEnd := if (1 + Z.of_nat a) * size >? len ps then len ps
                     else (1 + Z.of_nat a) * size).
    assert (Hend : batchEnd = Z.of_nat (Nat.min ((a + 1) * Z.to_nat size) (length ps))).
    { assert (Hsz : Z.of_nat ((a + 1) * Z.to_nat size) = (1 + Z.of_nat a) * size).
      { rewrite Nat2Z.inj_mul, Z2Nat.id by lia. lia. }
      unfold batchEnd. destruct (Z.gtb_spec ((1 + Z.of_nat a) * size) (len ps));
        unfold len in *; lia. }
    assert (Hstart : Z.to_nat (Z.of_nat a * size) = (a * Z.to_nat size)%nat).
    { rewrite Z2Nat.inj_mul, Nat2Z.id by lia. reflexivity. }
    rewrite slice_in_bounds by (unfold len in *; lia).
    rewrite IH by (intros i Hi; apply Hin; right; assumption).
    rewrite <- app_assoc. simpl. do 3 f_equal.
    unfold entryOfBatch. f_equal.
    rewrite batchSum_wrap, <- sumBetween_range, Hstart, Hend, Nat2Z.id. reflexivity.
Qed.

Lemma sumPaymentsWithProgressBy_entries (size : Z) (s : Service) :
  0 < size -> len (payments s) + size <= Int64.max_int ->
  sumPaymentsWithProgressBy size s
  = Some (map (entryOfBatch (payments s) (Z.to_nat size))
            (seq 0 (Z.to_nat (1 + len (payments s) / size)))).
Proof.
  intros Hsize Hmax. unfold sumPaymentsWithProgressBy.
  assert (Hn : 0 <= len (payments s)) by (unfold len; lia).
  assert (Hq : 0 <= len (payments s) / size <= len (payments s)).
  { split; [apply Z.div_pos; lia|]. apply Z.div_le_upper_bound; [lia|].
    rewrite <- (Z.mul_1_l (len (payments s))) at 1. apply Z.mul_le_mono_nonneg_r; lia. }
  rewrite Int64Facts.quot_small; try lia.
  - rewrite Int64Facts.add_small.
    + unfold iterations. rewrite progressLoop_entries; auto.
      intros i Hi. apply in_seq in Hi.
      assert (Hi' : Z.of_nat i <= len (payments s) / size) by lia.
      pose proof (Z.mul_div_le (len (payments s)) size Hsize). nia.
    + unfold Int64.in_range, Int64.min_int, Int64.max_int, Int64.half in *. lia.
  - unfold Int64.in_range, Int64.min_int, Int64.max_int, Int64.half in *. lia.
Qed.

(** C5: for a collection of n payments, SumPaymentsWithProgress sends exactly
    1 + n / batchSize entries, with the fixed batch size of 100000, in the
    order of the batches: the entry at position i has part i (so the parts
    increase strictly) and as result the sum (in the arithmetic of
    types.Money) of the amounts of the payments at the positions
    [i * batchSize, min ((i + 1) * batchSize, n)).  An empty collection yields
    one entry, of part 0 and result 0. *)
Theorem SumPaymentsWithProgress_entries (s : Service) :
  len (payments s) < maxLen ->
  exists entries,
    SumPaymentsWithProgress s = Some entries
    /\ len entries = 1 + len (payments s) / batchSize
    /\ (forall i, (i < length entries)%nat ->
          nth_error entries i
          = Some {| Progress.Part := Z.of_nat i;
                    Progress.Result :=
                      Int64.wrap (sumBetween (payments s) (i * Z.to_nat batchSize)
                                    (Nat.min ((i + 1) * Z.to_nat batchSize)
                                       (length (payments s)))) |})
    /\ (forall i j e1 e2, (i < j)%nat ->
          nth_error entries i = Some e1 -> nth_error entries j = Some e2 ->
          Progress.Part e1 < Progress.Part e2)
    /\ (payments s = [] -> entries = [{| Progress.Part := 0; Progress.Result := 0 |}]).
Proof.
  intros Hlen.
  assert (Hn : 0 <= len (payments s)) by (unfold len; lia).
  assert (Hq : 0 <= len (payments s) / batchSize) by (apply Z.div_pos; [lia|reflexivity]).
  set (entries := map (entryOfBatch (payments s) (Z.to_nat batchSize))
                    (seq 0 (Z.to_nat (1 + len (payments s) / batchSize)))).
  assert (Hnth : forall i, (i < length entries)%nat ->
             nth_error entries i = Some (entryOfBatch (payments s) (Z.to_nat batchSize) i)).
  { intros i Hi. unfold entries in *. rewrite length_map, length_seq in Hi.
    rewrite nth_error_map, nth_error_seq.
    destruct (Nat.ltb_spec i (Z.to_nat (1 + len (payments s) / batchSize))); [|lia].
    reflexivity. }
  exists entries. split; [|split; [|split; [|split]]].
  - unfold SumPaymentsWithProgress. apply sumPaymentsWithProgressBy_entries.
    + reflexivity.
    + unfold maxLen, batchSize, Int64.max_int, Int64.half in *. lia.
  - unfold len at 1. unfold entries. rewrite length_map, length_seq. lia.
  - intros i Hi. rewrite (Hnth i Hi). reflexivity.
  - intros i j e1 e2 Hij H1 H2.
    assert (Hj : (j < length entries)%nat) by (apply nth_error_Some; congruence).
    rewrite Hnth in H1 by lia. rewrite Hnth in H2 by lia.
    inversion H1; inversion H2; subst. simpl. lia.
  - intros Hnil. unfold entries. rewrite Hnil. reflexivity.
Qed.

Lemma SumPaymentsWithProgress_entries_witness :
  exists entries,
    SumPaymentsWithProgress fillData = Some entries
    /\ len entries = 1
    /\ nth_error entries 0 = Some {| Progress.Part := 0; Progress.Result := 66 |}.
Proof.
  destruct (SumPaymentsWithProgress_entries fillData) as (entries & H1 & H2 & H3 & _).
  - reflexivity.
  - assert (E : 1 + len (payments fillData) / batchSize = 1) by reflexivity.
    rewrite E in H2.
    exists entries. split; [assumption|]. split; [assumption|].
    assert (Hlen : (0 < length entries)%nat) by (unfold len in H2; lia).
    rewrite (H3 O Hlen). reflexivity.
Defined.

(** ** Runs of the model on the ledger of the tests *)

Example SumPayments_three_goroutines : SumPayments [] 3 fillData = Some 66.
Proof. reflexivity. Qed.

Example SumPayments_more_goroutines_than_payments :
  SumPayments [7; 2; 9; 0; 4]%nat 12 fillData = Some 66.
Proof. reflexivity. Qed.

Example FilterPayments_out_of_order :
  option_map (fun r => match r with Ok found => amounts found | Err _ => [] end)
    (FilterPayments [3; 1; 0; 2; 1]%nat 1 5 fillData)
  = Some [4; 5; 6; 1; 2; 3; 7].
Proof. reflexivity. Qed.

Example progress_in_batches_of_four :
  sumPaymentsWithProgressBy 4 fillData
  = Some [ {| Progress.Part := 0; Progress.Result := 10 |};
           {| Progress.Part := 1; Progress.Result := 26 |};
           {| Progress.Part := 2; Progress.Result := 30 |} ].
Proof. reflexivity. Qed.

Example progress_last_batch_empty :
  sumPaymentsWithProgressBy 11 fillData
  = Some [ {| Progress.Part := 0; Progress.Result := 66 |};
           {| Progress.Part := 1; Progress.Result := 0 |} ].
Proof. reflexivity. Qed.

Example reject_twice_refunds_twice :
  balanceOf 1 (run (rejectedOnce ++ [CallReject "p1"]) registered) = Some 130.
Proof. reflexivity. Qed.

Example deposit_wraps_around :
  balanceOf 1 (run [CallDeposit 1 Int64.max_int; CallDeposit 1 1] registered)
  = Some Int64.min_int.
Proof. reflexivity. Qed.

(** * More of the service *)

(** ** Writes through one pointer *)

Lemma setAt_setAt {A : Type} (l : list A) (k : nat) (x y : A) :
  setAt k x (setAt k y l) = setAt k x l.
Proof.
  revert k. induction l as [|z l IH]; intros [|k]; simpl; auto. rewrite IH. reflexivity.
Qed.

Lemma setAt_unchanged {A : Type} (l : list A) (k : nat) (x : A) :
  nth_error l k = Some x -> setAt k x l = l.
Proof.
  revert k. induction l as [|z l IH]; intros [|k] H; simpl in *; try discriminate; auto.
  - inversion H; reflexivity.
  - rewrite IH; auto.
Qed.

Lemma setAt_last {A : Type} (l : list A) (x y : A) :
  setAt (length l) y (l ++ [x]) = l ++ [y].
Proof. induction l as [|z l IH]; simpl; auto. rewrite IH. reflexivity. Qed.

Lemma findAccount_ID (accountID : Z) (l : list Account.t) (ptr : nat) (account : Account.t) :
  findAccount accountID l = Some (ptr, account) -> Account.ID account = accountID.
Proof.
  intros H. destruct (findFirst_Some _ _ _ _ H) as (_ & Ht & _).
  apply Z.eqb_eq in Ht. exact Ht.
Qed.

Lemma findPayment_ID (paymentID : string) (l : list Payment.t) (ptr : nat) (payment : Payment.t) :
  findPayment paymentID l = Some (ptr, payment) -> Payment.ID payment = paymentID.
Proof.
  intros H. destruct (findFirst_Some _ _ _ _ H) as (_ & Ht & _).
  apply String.eqb_eq in Ht. exact Ht.
Qed.

(* A payment appended under an identifier that is not in use is the one the
   lookup of that identifier finds. *)
Lemma findPayment_appended (l : list Payment.t) (payment : Payment.t) :
  ~ In (Payment.ID payment) (map Payment.ID l) ->
  findPayment (Payment.ID payment) (l ++ [payment]) = Some (length l, payment).
Proof.
  intros Hfresh. unfold findPayment. rewrite findFirst_app.
  assert (Hnone : findFirst (fun p => String.eqb (Payment.ID p) (Payment.ID payment)) l = None).
  { apply findFirst_None. intros x Hx. apply String.eqb_neq. intros Heq.
    apply Hfresh. rewrite <- Heq. apply in_map. assumption. }
  rewrite Hnone, findFirst_cons, String.eqb_refl. f_equal. f_equal. lia.
Qed.

(** ** Deposit *)

(** X1: Deposit checks first that the amount is positive
    (ErrAmountMustBePositive), then that an account has the identifier
    (ErrAccountNotFound); a failed call changes nothing.  Otherwise it adds
    the amount to the balance of the first account with that identifier (in
    the arithmetic of types.Money, exactly when the sum fits 64 bits) and
    leaves every other account, the payments, the favorites and the counter
    as they were. *)
Theorem Deposit_spec (accountID : Z) (amount : Money) (s : Service) :
  (amount <= 0 -> Deposit accountID amount s = (Some ErrAmountMustBePositive, s))
  /\ (0 < amount ->
      (forall account, In account (accounts s) -> Account.ID account <> accountID) ->
      Deposit accountID amount s = (Some ErrAccountNotFound, s))
  /\ (forall ptr account,
      0 < amount ->
      findAccount accountID (accounts s) = Some (ptr, account) ->
      let credited := Account.setBalance account (Int64.add (Account.Balance account) amount) in
      exists s',
        Deposit accountID amount s = (None, s')
        /\ findAccount accountID (accounts s') = Some (ptr, credited)
        /\ (forall i, i <> ptr -> nth_error (accounts s') i = nth_error (accounts s) i)
        /\ length (accounts s') = length (accounts s)
        /\ payments s' = payments s
        /\ favorites s' = favorites s
        /\ nextAccountID s' = nextAccountID s
        /\ (Int64.in_range (Account.Balance account + amount) ->
            Account.Balance credited = Account.Balance account + amount)).
Proof.
  split; [|split].
  - intros H. unfold Deposit. destruct (Z.leb_spec amount 0); [reflexivity|lia].
  - intros Hpos Hnone. unfold Deposit. destruct (Z.leb_spec amount 0); [lia|].
    assert (Hf : findAccount accountID (accounts s) = None).
    { apply findFirst_None. intros a Ha. apply Z.eqb_neq. auto. }
    rewrite Hf. reflexivity.
  - intros ptr account Hpos Hf credited.
    exists (withAccounts s (setAt ptr credited (accounts s))).
    split; [|split; [|split; [|split; [|split; [|split; [|split]]]]]]; try reflexivity.
    + unfold Deposit. destruct (Z.leb_spec amount 0); [lia|]. rewrite Hf. reflexivity.
    + simpl. apply findAccount_setBalance. assumption.
    + intros i Hi. simpl. apply nth_error_setAt_other. assumption.
    + simpl. apply length_setAt.
    + intros Hr. simpl. apply Int64Facts.add_small. assumption.
Qed.

Lemma Deposit_spec_witness :
  exists s',
    Deposit 2 500 fillData = (None, s')
    /\ findAccount 2 (accounts s')
       = Some (1%nat, {| Account.ID := 2; Account.Phone := "+992000000002";
                         Account.Balance := 2000492 |}).
Proof.
  destruct (Deposit_spec 2 500 fillData) as (_ & _ & H).
  destruct (H 1%nat {| Account.ID := 2; Account.Phone := "+992000000002";
                       Account.Balance := 1999992 |}) as (s' & H1 & H2 & _).
  - lia.
  - reflexivity.
  - exists s'. split; assumption.
Defined.

(** ** Failed calls *)

(** X2: a call of any of the seven operations that returns an error leaves
    the service exactly as it was: no operation writes before its last
    check. *)
Theorem call_error_changes_nothing (c : Call) (s : Service) (err : error) :
  fst (call c s) = Some err -> snd (call c s) = s.
Proof.
  assert (HPay : forall uuid accountID amount category,
             fst (errorOf (Pay uuid accountID amount category s)) = Some err ->
             snd (errorOf (Pay uuid accountID amount category s)) = s).
  { intros uuid accountID amount category. unfold Pay.
    destruct (amount <=? 0); auto.
    destruct (findAccount accountID (accounts s)) as [[ptr account]|]; auto.
    destruct (Account.Balance account <? amount); auto.
    simpl. discriminate. }
  destruct c as [phone|accountID amount|uuid accountID amount category|paymentID
                |uuid paymentID|uuid paymentID name|uuid favoriteID]; simpl.
  - unfold RegisterAccount. destruct (findFirst _ (accounts s)); auto. simpl. discriminate.
  - unfold Deposit. destruct (amount <=? 0); auto.
    destruct (findAccount accountID (accounts s)) as [[ptr account]|]; auto.
    simpl. discriminate.
  - apply HPay.
  - unfold Reject, FindPaymentByID, FindAccountByID.
    destruct (findPayment paymentID (payments s)) as [[pptr payment]|]; auto.
    destruct (findAccount (Payment.AccountID payment) (accounts s)) as [[aptr account]|]; auto.
    simpl. discriminate.
  - unfold Repeat, FindPaymentByID, FindAccountByID.
    destruct (findPayment paymentID (payments s)) as [[pptr payment]|]; auto.
    destruct (findAccount (Payment.AccountID payment) (accounts s)) as [[aptr account]|]; auto.
    destruct (Payment.Amount payment >? Account.Balance account); auto.
  - unfold FavoritePayment, FindPaymentByID.
    destruct (findPayment paymentID (payments s)) as [[pptr payment]|]; auto.
    simpl. discriminate.
  - unfold PayFromFavorite, FindFavoriteByID, FindAccountByID.
    destruct (findFavorite favoriteID (favorites s)) as [[fptr favorite]|]; auto.
    destruct (findAccount (Favorite.AccountID favorite) (accounts s)) as [[aptr account]|]; auto.
    destruct (Favorite.Amount favorite >? Account.Balance account); auto.
Qed.

Lemma call_error_changes_nothing_witness :
  snd (call (CallRepeat "u12" "no such payment") fillData) = fillData.
Proof.
  apply (call_error_changes_nothing (CallRepeat "u12" "no such payment") fillData
           ErrPaymentNotFound).
  reflexivity.
Defined.

(** ** Pay, then the lookup and the rejection of the new payment *)

(* What a successful Pay has checked and written. *)
Lemma Pay_Ok (uuid : string) (accountID : Z) (amount : Money) (category : PaymentCategory)
  (s s' : Service) (payment : Payment.t) :
  Pay uuid accountID amount category s = (Ok payment, s') ->
  exists ptr account,
    0 < amount
    /\ findAccount accountID (accounts s) = Some (ptr, account)
    /\ amount <= Account.Balance account
    /\ payment = {| Payment.ID := uuid; Payment.AccountID := accountID;
                    Payment.Amount := amount; Payment.Category := category;
                    Payment.Status := PaymentStatusInProgress |}
    /\ s' = {| nextAccountID := nextAccountID s;
               accounts := setAt ptr (Account.setBalance account
                                        (Int64.sub (Account.Balance account) amount))
                             (accounts s);
               payments := payments s ++ [payment];
               favorites := favorites s |}.
Proof.
  unfold Pay. destruct (Z.leb_spec amount 0); [discriminate|].
  destruct (findAccount accountID (accounts s)) as [[ptr account]|]; [|discriminate].
  destruct (Z.ltb_spec (Account.Balance account) amount); [discriminate|].
  intros Heq. inversion Heq; subst. exists ptr, account. repeat split; auto.
Qed.

(** X3: the payment that a successful Pay returns is the one that
    FindPaymentByID finds under its identifier, in the last slot of the
    collection, provided the identifier drawn from the generator was not in
    use.  When it was in use, the lookup still finds the older payment: the
    new one cannot be reached by its identifier. *)
Theorem Pay_then_FindPaymentByID (uuid : string) (accountID : Z) (amount : Money)
  (category : PaymentCategory) (s s' : Service) (payment : Payment.t) :
  Pay uuid accountID amount category s = (Ok payment, s') ->
  (~ In uuid (map Payment.ID (payments s)) ->
   FindPaymentByID uuid s' = Ok (length (payments s), payment))
  /\ (forall ptr older,
         findPayment uuid (payments s) = Some (ptr, older) ->
         FindPaymentByID uuid s' = Ok (ptr, older) /\ (ptr < length (payments s))%nat).
Proof.
  intros HPay. destruct (Pay_Ok _ _ _ _ _ _ _ HPay) as (ptr & account & _ & _ & _ & Hp & Hs).
  split.
  - intros Hfresh. unfold FindPaymentByID. rewrite Hs. simpl payments.
    replace uuid with (Payment.ID payment) by (rewrite Hp; reflexivity).
    rewrite findPayment_appended; [reflexivity|]. rewrite Hp. exact Hfresh.
  - intros optr older Hold. unfold FindPaymentByID. rewrite Hs. simpl payments.
    unfold findPayment in *. rewrite findFirst_app, Hold. split; [reflexivity|].
    destruct (findFirst_Some _ _ _ _ Hold) as (Hn & _ & _).
    apply nth_error_Some. congruence.
Qed.

Lemma Pay_then_FindPaymentByID_witness :
  FindPaymentByID "u12" (snd (Pay "u12" 1 5 "food" fillData))
  = Ok (11%nat, {| Payment.ID := "u12"; Payment.AccountID := 1; Payment.Amount := 5;
                   Payment.Category := "food"; Payment.Status := PaymentStatusInProgress |}).
Proof.
  assert (HPay : Pay "u12" 1 5 "food" fillData
                 = (Ok {| Payment.ID := "u12"; Payment.AccountID := 1; Payment.Amount := 5;
                          Payment.Category := "food";
                          Payment.Status := PaymentStatusInProgress |},
                    snd (Pay "u12" 1 5 "food" fillData)))
    by (vm_compute; reflexivity).
  apply (proj1 (Pay_then_FindPaymentByID _ _ _ _ _ _ _ HPay)).
  vm_compute. intros H. repeat (destruct H as [H|H]; [discriminate|]). exact H.
Defined.

(** X4: Reject restores what Pay deducted.  After a successful Pay whose
    identifier was not in use, on an account whose balance is a 64-bit value,
    the rejection of the new payment succeeds and leaves the accounts, the
    counter and the favorites exactly as they were before the payment; of the
    payment only the record remains, behind the payments of before, with the
    identifier, account, amount and category of the call and the status
    FAIL. *)
Theorem Reject_undoes_Pay (uuid : string) (accountID : Z) (amount : Money)
  (category : PaymentCategory) (s s' : Service) (payment : Payment.t) :
  Pay uuid accountID amount category s = (Ok payment, s') ->
  ~ In uuid (map Payment.ID (payments s)) ->
  Forall (fun account => Int64.in_range (Account.Balance account)) (accounts s) ->
  Reject uuid s'
  = (None,
     {| nextAccountID := nextAccountID s;
        accounts := accounts s;
        payments := payments s
                    ++ [{| Payment.ID := uuid; Payment.AccountID := accountID;
                           Payment.Amount := amount; Payment.Category := category;
                           Payment.Status := PaymentStatusFail |}];
        favorites := favorites s |}).
Proof.
  intros HPay Hfresh Hrange.
  destruct (Pay_Ok _ _ _ _ _ _ _ HPay) as (ptr & account & Hpos & Hf & Hle & Hp & Hs).
  destruct (findFirst_Some _ _ _ _ Hf) as (Hn & _ & _).
  assert (Hr : Int64.in_range (Account.Balance account)).
  { rewrite Forall_forall in Hrange. apply Hrange. eapply nth_error_In; eauto. }
  change {| Payment.ID := uuid; Payment.AccountID := accountID; Payment.Amount := amount;
            Payment.Category := category; Payment.Status := PaymentStatusFail |}
    with (Payment.setStatus
            {| Payment.ID := uuid; Payment.AccountID := accountID; Payment.Amount := amount;
               Payment.Category := category; Payment.Status := PaymentStatusInProgress |}
            PaymentStatusFail).
  rewrite <- Hp.
  unfold Reject, FindPaymentByID, FindAccountByID. rewrite Hs. simpl payments. simpl accounts.
  replace uuid with (Payment.ID payment) by (rewrite Hp; reflexivity).
  rewrite findPayment_appended by (rewrite Hp; exact Hfresh).
  replace (Payment.AccountID payment) with accountID by (rewrite Hp; reflexivity).
  rewrite (findAccount_setBalance _ _ _ _ _ Hf). simpl.
  rewrite setAt_setAt, setAt_last. f_equal. f_equal.
  apply setAt_unchanged. rewrite Hn. f_equal.
  destruct account as [aid phone balance]. unfold Account.setBalance. simpl. f_equal.
  replace (Payment.Amount payment) with amount by (rewrite Hp; reflexivity).
  unfold Int64.add, Int64.sub. rewrite Int64Facts.wrap_plus_l.
  simpl in Hr. symmetry. transitivity (Int64.wrap balance).
  - f_equal. lia.
  - apply Int64Facts.wrap_small. assumption.
Qed.

Lemma Reject_undoes_Pay_witness :
  Reject "u12" (snd (Pay "u12" 1 5 "food" fillData))
  = (None,
     {| nextAccountID := 3;
        accounts := accounts fillData;
        payments := payments fillData
                    ++ [{| Payment.ID := "u12"; Payment.AccountID := 1; Payment.Amount := 5;
                           Payment.Category := "food";
                           Payment.Status := PaymentStatusFail |}];
        favorites := [] |}).
Proof.
  assert (HPay : Pay "u12" 1 5 "food" fillData
                 = (Ok {| Payment.ID := "u12"; Payment.AccountID := 1; Payment.Amount := 5;
                          Payment.Category := "food";
                          Payment.Status := PaymentStatusInProgress |},
                    snd (Pay "u12" 1 5 "food" fillData)))
    by (vm_compute; reflexivity).
  rewrite (Reject_undoes_Pay _ _ _ _ _ _ _ HPay).
  - reflexivity.
  - vm_compute. intros H. repeat (destruct H as [H|H]; [discriminate|]). exact H.
  - apply Forall_forall. intros account Hin. vm_compute in Hin.
    destruct Hin as [<-|[<-|[<-|[]]]]; vm_compute; split; discriminate.
Defined.

(** ** Repeat *)

(** X5: Repeat looks up the payment (ErrPaymentNotFound), then the account the
    payment names (ErrAccountNotFound), then compares the amount of the
    payment with the balance (ErrNotEnoughBalance when the amount is larger);
    a payment whose amount is not positive cannot be repeated
    (ErrAmountMustBePositive, from Pay).  A failed call changes nothing, so it
    creates no payment.  Otherwise Repeat takes the amount from the balance
    and appends a new payment, in progress, with the identifier drawn from the
    generator and the account, amount and category of the original, which
    stays as it is. *)
Theorem Repeat_spec (uuid paymentID : string) (s : Service) :
  ((forall payment, In payment (payments s) -> Payment.ID payment <> paymentID) ->
   Repeat uuid paymentID s = (Err ErrPaymentNotFound, s))
  /\ (forall pptr payment,
      findPayment paymentID (payments s) = Some (pptr, payment) ->
      ((forall account, In account (accounts s) ->
                        Account.ID account <> Payment.AccountID payment) ->
       Repeat uuid paymentID s = (Err ErrAccountNotFound, s))
      /\ (forall aptr account,
          findAccount (Payment.AccountID payment) (accounts s) = Some (aptr, account) ->
          (Account.Balance account < Payment.Amount payment ->
           Repeat uuid paymentID s = (Err ErrNotEnoughBalance, s))
          /\ (Payment.Amount payment <= Account.Balance account ->
              Payment.Amount payment <= 0 ->
              Repeat uuid paymentID s = (Err ErrAmountMustBePositive, s))
          /\ (0 < Payment.Amount payment <= Account.Balance account ->
              let new := {| Payment.ID := uuid;
                            Payment.AccountID := Payment.AccountID payment;
                            Payment.Amount := Payment.Amount payment;
                            Payment.Category := Payment.Category payment;
                            Payment.Status := PaymentStatusInProgress |} in
              let s' := snd (Repeat uuid paymentID s) in
              Repeat uuid paymentID s
              = (Ok new,
                 {| nextAccountID := nextAccountID s;
                    accounts := setAt aptr
                                  (Account.setBalance account
                                     (Int64.sub (Account.Balance account)
                                        (Payment.Amount payment)))
                                  (accounts s);
                    payments := payments s ++ [new];
                    favorites := favorites s |})
              /\ nth_error (payments s') pptr = Some payment
              /\ length (payments s') = S (length (payments s))))).
Proof.
  split.
  - intros Hnone. unfold Repeat, FindPaymentByID.
    assert (Hf : findPayment paymentID (payments s) = None).
    { apply findFirst_None. intros p Hp. apply String.eqb_neq. auto. }
    rewrite Hf. reflexivity.
  - intros pptr payment Hp. split.
    + intros Hnone. unfold Repeat, FindPaymentByID, FindAccountByID. rewrite Hp.
      assert (Hf : findAccount (Payment.AccountID payment) (accounts s) = None).
      { apply findFirst_None. intros a Ha. apply Z.eqb_neq. auto. }
      rewrite Hf. reflexivity.
    + intros aptr account Ha.
      pose proof (findAccount_ID _ _ _ _ Ha) as Hid.
      assert (Hunfold : Repeat uuid paymentID s
                = if Payment.Amount payment >? Account.Balance account
                  then (Err ErrNotEnoughBalance, s)
                  else Pay uuid (Payment.AccountID payment) (Payment.Amount payment)
                         (Payment.Category payment) s).
      { unfold Repeat, FindPaymentByID, FindAccountByID. rewrite Hp, Ha, Hid. reflexivity. }
      split; [|split].
      * intros Hlt. rewrite Hunfold.
        destruct (Z.gtb_spec (Payment.Amount payment) (Account.Balance account)); [|lia].
        reflexivity.
      * intros Hle Hnp. rewrite Hunfold.
        destruct (Z.gtb_spec (Payment.Amount payment) (Account.Balance account)); [lia|].
        unfold Pay. destruct (Z.leb_spec (Payment.Amount payment) 0); [|lia]. reflexivity.
      * intros [Hpos Hle] new s'.
        assert (Hres : Repeat uuid paymentID s
                  = (Ok new,
                     {| nextAccountID := nextAccountID s;
                        accounts := setAt aptr
                                      (Account.setBalance account
                                         (Int64.sub (Account.Balance account)
                                            (Payment.Amount payment)))
                                      (accounts s);
                        payments := payments s ++ [new];
                        favorites := favorites s |})).
        { rewrite Hunfold.
          destruct (Z.gtb_spec (Payment.Amount payment) (Account.Balance account)); [lia|].
          unfold Pay. destruct (Z.leb_spec (Payment.Amount payment) 0); [lia|]. rewrite Ha.
          destruct (Z.ltb_spec (Account.Balance account) (Payment.Amount payment)); [lia|].
          reflexivity. }
        split; [exact Hres|]. unfold s'. rewrite Hres. simpl. split.
        -- destruct (findFirst_Some _ _ _ _ Hp) as (Hn & _ & _).
           rewrite nth_error_app1; [assumption|]. apply nth_error_Some. congruence.
        -- rewrite length_app. simpl. lia.
Qed.

Lemma Repeat_spec_witness :
  fst (Repeat "u12" "u9" fillData)
  = Ok {| Payment.ID := "u12"; Payment.AccountID := 3; Payment.Amount := 9;
          Payment.Category := "auto"; Payment.Status := PaymentStatusInProgress |}
  /\ Repeat "u12" "u9" (run [CallPay "u13" 3 2999970 "auto"] fillData)
     = (Err ErrNotEnoughBalance, run [CallPay "u13" 3 2999970 "auto"] fillData).
Proof.
  split.
  - destruct (proj2 (Repeat_spec "u12" "u9" fillData) 8%nat
                {| Payment.ID := "u9"; Payment.AccountID := 3; Payment.Amount := 9;
                   Payment.Category := "auto"; Payment.Status := PaymentStatusInProgress |}
                eq_refl) as [_ H].
    destruct (H 2%nat {| Account.ID := 3; Account.Phone := "+992000000003";
                         Account.Balance := 2999970 |} eq_refl) as (_ & _ & H3).
    destruct H3 as [H3 _]; [simpl; lia|]. rewrite H3. reflexivity.
  - destruct (proj2 (Repeat_spec "u12" "u9" (run [CallPay "u13" 3 2999970 "auto"] fillData))
                8%nat
                {| Payment.ID := "u9"; Payment.AccountID := 3; Payment.Amount := 9;
                   Payment.Category := "auto"; Payment.Status := PaymentStatusInProgress |}
                eq_refl) as [_ H].
    destruct (H 2%nat {| Account.ID := 3; Account.Phone := "+992000000003";
                         Account.Balance := 0 |} eq_refl) as (H1 & _).
    apply H1. simpl. lia.
Defined.

(** ** Favorites *)

Lemma Pay_withFavorites (uuid : string) (accountID : Z) (amount : Money)
  (category : PaymentCategory) (s : Service) (l : list Favorite.t) :
  Pay uuid accountID amount category (withFavorites s l)
  = (fst (Pay uuid accountID amount category s),
     withFavorites (snd (Pay uuid accountID amount category s)) l).
Proof.
  unfold Pay. simpl accounts. destruct (amount <=? 0); [reflexivity|].
  destruct (findAccount accountID (accounts s)) as [[ptr account]|]; [|reflexivity].
  destruct (Account.Balance account <? amount); reflexivity.
Qed.

(** X6: FavoritePayment fails with ErrPaymentNotFound and changes nothing
    when no payment has the identifier; otherwise it appends a favorite that
    copies the account, the amount and the category of the payment and
    changes nothing else.  PayFromFavorite on that favorite (its identifier
    not being in use before) then does exactly what Repeat does on the
    original payment: the same result or error, the same accounts and
    payments. *)
Theorem PayFromFavorite_repeats_the_original (fuuid uuid paymentID name : string)
  (s : Service) :
  ((forall payment, In payment (payments s) -> Payment.ID payment <> paymentID) ->
   FavoritePayment fuuid paymentID name s = (Err ErrPaymentNotFound, s))
  /\ (forall pptr payment,
      findPayment paymentID (payments s) = Some (pptr, payment) ->
      let favorite := {| Favorite.ID := fuuid;
                         Favorite.AccountID := Payment.AccountID payment;
                         Favorite.Name := name;
                         Favorite.Amount := Payment.Amount payment;
                         Favorite.Category := Payment.Category payment |} in
      let s1 := withFavorites s (favorites s ++ [favorite]) in
      FavoritePayment fuuid paymentID name s = (Ok favorite, s1)
      /\ (~ In fuuid (map Favorite.ID (favorites s)) ->
          PayFromFavorite uuid fuuid s1
          = (fst (Repeat uuid paymentID s),
             withFavorites (snd (Repeat uuid paymentID s)) (favorites s1)))).
Proof.
  split.
  - intros Hnone. unfold FavoritePayment, FindPaymentByID.
    assert (Hf : findPayment paymentID (payments s) = None).
    { apply findFirst_None. intros p Hp. apply String.eqb_neq. auto. }
    rewrite Hf. reflexivity.
  - intros pptr payment Hp favorite s1. split.
    + unfold FavoritePayment, FindPaymentByID. rewrite Hp. reflexivity.
    + intros Hfresh.
      assert (Hfav : findFavorite fuuid (favorites s1) = Some (length (favorites s), favorite)).
      { unfold s1, findFavorite. simpl favorites. rewrite findFirst_app.
        assert (Hnone : findFirst (fun f => String.eqb (Favorite.ID f) fuuid) (favorites s)
                        = None).
        { apply findFirst_None. intros x Hx. apply String.eqb_neq. intros Heq.
          apply Hfresh. rewrite <- Heq. apply in_map. assumption. }
        rewrite Hnone, findFirst_cons. simpl. rewrite String.eqb_refl.
        f_equal. f_equal. lia. }
      unfold PayFromFavorite, Repeat, FindFavoriteByID, FindPaymentByID, FindAccountByID.
      rewrite Hfav, Hp. simpl accounts. simpl Favorite.AccountID.
      destruct (findAccount (Payment.AccountID payment) (accounts s)) as [[aptr account]|];
        [|reflexivity].
      simpl Favorite.Amount. simpl Favorite.Category.
      destruct (Payment.Amount payment >? Account.Balance account); [reflexivity|].
      apply Pay_withFavorites.
Qed.

Lemma PayFromFavorite_repeats_the_original_witness :
  let favorite := {| Favorite.ID := "f1"; Favorite.AccountID := 3; Favorite.Name := "car wash";
                     Favorite.Amount := 9; Favorite.Category := "auto" |} in
  let s1 := withFavorites fillData (favorites fillData ++ [favorite]) in
  PayFromFavorite "u12" "f1" s1
  = (fst (Repeat "u12" "u9" fillData),
     withFavorites (snd (Repeat "u12" "u9" fillData)) (favorites s1)).
Proof.
  intros favorite s1.
  assert (Hp : findPayment "u9" (payments fillData)
               = Some (8%nat,
                       {| Payment.ID := "u9"; Payment.AccountID := 3; Payment.Amount := 9;
                          Payment.Category := "auto";
                          Payment.Status := PaymentStatusInProgress |}))
    by (vm_compute; reflexivity).
  apply (proj2 (proj2 (PayFromFavorite_repeats_the_original "f1" "u12" "u9" "car wash" fillData)
                  _ _ Hp)).
  vm_compute. tauto.
Defined.

(** ** ExportAccountHistory and the filters *)

(** X7: ExportAccountHistory fails with ErrAccountNotFound when no account has
    the identifier; otherwise it returns the payments of that account in the
    order of the collection.  FilterPayments returns a rearrangement of that
    history for every number of goroutines and every schedule, and the
    history itself when the goroutines finish in the order they were
    started. *)
Theorem ExportAccountHistory_spec (accountID : Z) (s : Service) :
  ((forall account, In account (accounts s) -> Account.ID account <> accountID) ->
   ExportAccountHistory accountID s = Err ErrAccountNotFound)
  /\ ((exists account, In account (accounts s) /\ Account.ID account = accountID) ->
      ExportAccountHistory accountID s
      = Ok (filter (fun payment => Payment.AccountID payment =? accountID) (payments s))
      /\ forall (oracle : list nat) (k : Z),
          len (payments s) < maxLen -> k <= Int64.max_int ->
          exists found,
            FilterPayments oracle accountID k s = Some (Ok found)
            /\ (forall history, ExportAccountHistory accountID s = Ok history ->
                                Permutation found history
                                /\ (oracle = [] -> found = history))).
Proof.
  split.
  - intros Hnone. unfold ExportAccountHistory, FindAccountByID.
    assert (Hf : findAccount accountID (accounts s) = None).
    { apply findFirst_None. intros a Ha. apply Z.eqb_neq. auto. }
    rewrite Hf. reflexivity.
  - intros Hex. destruct (findAccount_exists _ _ Hex) as [account Hf].
    assert (Hhist : ExportAccountHistory accountID s
                    = Ok (filter (fun payment => Payment.AccountID payment =? accountID)
                            (payments s))).
    { unfold ExportAccountHistory, FindAccountByID. rewrite Hf.
      rewrite fold_filter_append. reflexivity. }
    split; [exact Hhist|]. intros oracle k Hlen Hk.
    destruct (filterWorkers_found (fun payment => Payment.AccountID payment =? accountID)
                oracle k s Hlen Hk) as (found & Hw & Hperm & Hseq).
    exists found. split.
    + unfold FilterPayments, FindAccountByID. rewrite Hf, Hw. reflexivity.
    + intros history Hh. rewrite Hhist in Hh. inversion Hh; subst. auto.
Qed.

Lemma ExportAccountHistory_spec_witness :
  ExportAccountHistory 3 fillData
  = Ok (filter (fun payment => Payment.AccountID payment =? 3) (payments fillData))
  /\ ExportAccountHistory 7 fillData = Err ErrAccountNotFound.
Proof.
  split.
  - apply (proj2 (ExportAccountHistory_spec 3 fillData)).
    exists {| Account.ID := 3; Account.Phone := "+992000000003"; Account.Balance := 2999970 |}.
    split; [|reflexivity]. vm_compute. auto.
  - apply (proj1 (ExportAccountHistory_spec 7 fillData)).
    intros account Hin. vm_compute in Hin.
    destruct Hin as [<-|[<-|[<-|[]]]]; discriminate.
Defined.

(** X8: FilterPaymentsByFn never fails: for every predicate, every number of
    goroutines and every schedule it returns the payments of the collection
    that satisfy the predicate, each as many times as the collection holds
    it, in an order that depends on the schedule (the order of the collection
    when the goroutines finish in the order they were started); so an empty
    result for an empty collection. *)
Theorem FilterPaymentsByFn_spec (filter : Payment.t -> bool) (oracle : list nat) (k : Z)
  (s : Service) :
  len (payments s) < maxLen -> k <= Int64.max_int ->
  exists found,
    FilterPaymentsByFn filter oracle k s = Some (Ok found)
    /\ Permutation found (List.filter filter (payments s))
    /\ (forall payment, In payment found <-> In payment (payments s) /\ filter payment = true)
    /\ (oracle = [] -> found = List.filter filter (payments s))
    /\ (payments s = [] -> found = []).
Proof.
  intros Hlen Hk.
  destruct (filterWorkers_found filter oracle k s Hlen Hk) as (found & Hw & Hperm & Hseq).
  exists found. split; [|split; [|split; [|split]]]; auto.
  - unfold FilterPaymentsByFn. rewrite Hw. reflexivity.
  - intros payment. rewrite <- filter_In. split; intros Hin.
    + apply (Permutation_in _ Hperm). assumption.
    + apply (Permutation_in _ (Permutation_sym Hperm)). assumption.
  - intros Hnil. rewrite Hnil in Hperm. simpl in Hperm.
    apply Permutation_nil. apply Permutation_sym. assumption.
Qed.

Lemma FilterPaymentsByFn_spec_witness :
  exists found,
    FilterPaymentsByFn FilterMobile [1; 0; 2]%nat 4 fillData = Some (Ok found)
    /\ Permutation found (List.filter FilterMobile (payments fillData)).
Proof.
  destruct (FilterPaymentsByFn_spec FilterMobile [1; 0; 2]%nat 4 fillData)
    as (found & H1 & H2 & _).
  - reflexivity.
  - vm_compute. discriminate.
  - exists found. split; assumption.
Defined.

(** ** The progress entries add up *)

Lemma firstn_min_length {A : Type} (l : list A) (a : nat) :
  firstn (Nat.min a (length l)) l = firstn a l.
Proof.
  destruct (Nat.le_ge_cases a (length l)) as [H|H].
  - rewrite Nat.min_l by assumption. reflexivity.
  - rewrite Nat.min_r by assumption. rewrite !firstn_all2; auto.
Qed.

Lemma fold_left_through_map {A B C : Type} (f : A -> C -> A) (g : B -> C) (l : list B) (a : A) :
  fold_left (fun acc x => f acc (g x)) l a = fold_left f (map g l) a.
Proof. revert a. induction l as [|x l IH]; intros a; simpl; auto. Qed.

(* The result of the entry of a batch is the wrapped sum of its chunk. *)
Lemma entryOfBatch_chunk (ps : list Payment.t) (size i : nat) :
  Progress.Result (entryOfBatch ps size i) = Int64.wrap (sumZ (amounts (chunk ps size i))).
Proof.
  unfold entryOfBatch, chunk. simpl. rewrite <- sumBetween_range. do 3 f_equal.
  destruct (Nat.le_ge_cases (i * size) (length ps)) as [H|H].
  - rewrite <- (firstn_min_length (skipn (i * size) ps) size). f_equal.
    rewrite length_skipn. lia.
  - rewrite skipn_all2 by assumption. rewrite !firstn_nil. reflexivity.
Qed.

(** X9: the results of the entries that SumPaymentsWithProgress sends, added
    up as the package's test adds them, are the value that SumPayments
    returns, for every number of goroutines and every schedule. *)
Theorem progress_results_add_up_to_SumPayments (oracle : list nat) (k : Z) (s : Service) :
  len (payments s) < maxLen -> k <= Int64.max_int ->
  exists entries total,
    SumPaymentsWithProgress s = Some entries
    /\ SumPayments oracle k s = Some total
    /\ fold_left (fun sum entry => Int64.add sum (Progress.Result entry)) entries 0 = total.
Proof.
  intros Hlen Hk.
  assert (Hn : 0 <= len (payments s)) by (unfold len; lia).
  assert (Hq : 0 <= len (payments s) / batchSize) by (apply Z.div_pos; [lia|reflexivity]).
  eexists. eexists. split; [|split].
  - unfold SumPaymentsWithProgress. apply sumPaymentsWithProgressBy_entries.
    + reflexivity.
    + unfold maxLen, batchSize, Int64.max_int, Int64.half in *. lia.
  - apply SumPayments_total; assumption.
  - set (size := Z.to_nat batchSize).
    set (routines := Z.to_nat (1 + len (payments s) / batchSize)).
    rewrite (fold_left_through_map Int64.add Progress.Result).
    rewrite map_map.
    rewrite (map_ext _ (fun i => Int64.wrap (sumZ (amounts (chunk (payments s) size i)))))
      by (intros i; apply entryOfBatch_chunk).
    rewrite <- (map_map (fun i => sumZ (amounts (chunk (payments s) size i))) Int64.wrap).
    rewrite (fold_add_wrapped _ 0). f_equal. simpl.
    assert (Hcat : concat (map (chunk (payments s) size) (seq 0 routines)) = payments s).
    { rewrite chunks_concat. apply firstn_all2.
      pose proof (Z.mod_pos_bound (len (payments s)) batchSize eq_refl) as Hmod.
      pose proof (Z.div_mod (len (payments s)) batchSize ltac:(discriminate)) as Hdm.
      assert (Hsz : Z.of_nat (routines * size)
                    = (1 + len (payments s) / batchSize) * batchSize).
      { unfold routines, size. rewrite Nat2Z.inj_mul, !Z2Nat.id; try lia.
        all: unfold batchSize; lia. }
      unfold len in *. lia. }
    assert (E : sumZ (amounts (payments s))
                = sumZ (amounts (concat (map (chunk (payments s) size) (seq 0 routines)))))
      by (rewrite Hcat; reflexivity).
    rewrite E. unfold amounts. rewrite concat_map, sumZ_concat, !map_map.
    reflexivity.
Qed.

Lemma progress_results_add_up_to_SumPayments_witness :
  exists entries total,
    SumPaymentsWithProgress fillData = Some entries
    /\ SumPayments [2; 0; 1]%nat 3 fillData = Some total
    /\ fold_left (fun sum entry => Int64.add sum (Progress.Result entry)) entries 0 = total.
Proof.
  apply progress_results_add_up_to_SumPayments.
  - reflexivity.
  - vm_compute. discriminate.
Defined.

(** ** What the calls do to the accounts *)

(* A call either keeps the identifier and the phone of every account and the
   counter as they are (it may write one balance), or registers one account:
   it increments the counter and appends an account that has the new value,
   a phone no account had and a zero balance. *)
Lemma call_accounts (c : Call) (s : Service) :
  (map identity (accounts (snd (call c s))) = map identity (accounts s)
   /\ nextAccountID (snd (call c s)) = nextAccountID s)
  \/ (exists phone,
        ~ In phone (map Account.Phone (accounts s))
        /\ accounts (snd (call c s))
           = accounts s ++ [{| Account.ID := Int64.add (nextAccountID s) 1;
                               Account.Phone := phone; Account.Balance := 0 |}]
        /\ nextAccountID (snd (call c s)) = Int64.add (nextAccountID s) 1).
Proof.
  assert (Hset : forall ptr account b,
             findAccount (Account.ID account) (accounts s) = Some (ptr, account) ->
             map identity (setAt ptr (Account.setBalance account b) (accounts s))
             = map identity (accounts s)).
  { intros ptr account b Hf. apply (map_setAt identity _ _ _ account); [|reflexivity].
    apply (findFirst_Some _ _ _ _ Hf). }
  assert (Hset' : forall accountID ptr account b,
             findAccount accountID (accounts s) = Some (ptr, account) ->
             map identity (setAt ptr (Account.setBalance account b) (accounts s))
             = map identity (accounts s)).
  { intros accountID ptr account b Hf. apply Hset.
    rewrite (findAccount_ID _ _ _ _ Hf). assumption. }
  assert (HPay : forall uuid accountID amount category,
             map identity (accounts (snd (errorOf (Pay uuid accountID amount category s))))
             = map identity (accounts s)
             /\ nextAccountID (snd (errorOf (Pay uuid accountID amount category s)))
                = nextAccountID s).
  { intros uuid accountID amount category. unfold Pay.
    destruct (amount <=? 0); auto.
    destruct (findAccount accountID (accounts s)) as [[ptr account]|] eqn:Hf; auto.
    destruct (Account.Balance account <? amount); auto.
    simpl. split; [|reflexivity]. eapply Hset'; eauto. }
  destruct c as [phone|accountID amount|uuid accountID amount category|paymentID
                |uuid paymentID|uuid paymentID name|uuid favoriteID]; simpl.
  - unfold RegisterAccount.
    destruct (findFirst _ (accounts s)) as [found|] eqn:Hf; [left; auto|].
    right. exists phone. split; [|split; reflexivity].
    intros Hin. apply in_map_iff in Hin. destruct Hin as (a & Hphone & Ha).
    rewrite findFirst_None in Hf. specialize (Hf a Ha). cbv beta in Hf.
    rewrite Hphone, String.eqb_refl in Hf. discriminate.
  - left. unfold Deposit. destruct (amount <=? 0); auto.
    destruct (findAccount accountID (accounts s)) as [[ptr account]|] eqn:Hf; auto.
    simpl. split; [|reflexivity]. eapply Hset'; eauto.
  - left. apply HPay.
  - left. unfold Reject, FindPaymentByID, FindAccountByID.
    destruct (findPayment paymentID (payments s)) as [[pptr payment]|]; auto.
    destruct (findAccount (Payment.AccountID payment) (accounts s)) as [[aptr account]|] eqn:Hf;
      auto.
    simpl. split; [|reflexivity]. eapply Hset'; eauto.
  - left. unfold Repeat, FindPaymentByID, FindAccountByID.
    destruct (findPayment paymentID (payments s)) as [[pptr payment]|]; auto.
    destruct (findAccount (Payment.AccountID payment) (accounts s)) as [[aptr account]|]; auto.
    destruct (Payment.Amount payment >? Account.Balance account); auto.
  - left. unfold FavoritePayment, FindPaymentByID.
    destruct (findPayment paymentID (payments s)) as [[pptr payment]|]; auto.
  - left. unfold PayFromFavorite, FindFavoriteByID, FindAccountByID.
    destruct (findFavorite favoriteID (favorites s)) as [[fptr favorite]|]; auto.
    destruct (findAccount (Favorite.AccountID favorite) (accounts s)) as [[aptr account]|]; auto.
    destruct (Favorite.Amount favorite >? Account.Balance account); auto.
Qed.

Lemma map_identity_ID (l : list Account.t) : map Account.ID l = map fst (map identity l).
Proof. rewrite map_map. reflexivity. Qed.

Lemma map_identity_Phone (l : list Account.t) : map Account.Phone l = map snd (map identity l).
Proof. rewrite map_map. reflexivity. Qed.

Lemma NoDup_map_injective {A B : Type} (f : A -> B) (l : list A) :
  (forall x y, f x = f y -> x = y) -> NoDup l -> NoDup (map f l).
Proof.
  intros Hinj Hnd. induction Hnd as [|x l Hx Hnd IH]; simpl; constructor; auto.
  intros Hin. apply in_map_iff in Hin. destruct Hin as (y & Hy & Hin).
  apply Hinj in Hy. subst. contradiction.
Qed.

(* The identifiers are the successive values of the counter and the phones are
   pairwise distinct, from the empty ledger on. *)
Lemma run_registrations (calls : list Call) (s : Service) :
  map Account.ID (accounts s)
  = map (fun i => Int64.wrap (Z.of_nat i)) (seq 1 (length (accounts s))) ->
  nextAccountID s = Int64.wrap (len (accounts s)) ->
  NoDup (map Account.Phone (accounts s)) ->
  let s' := run calls s in
  map Account.ID (accounts s')
  = map (fun i => Int64.wrap (Z.of_nat i)) (seq 1 (length (accounts s')))
  /\ nextAccountID s' = Int64.wrap (len (accounts s'))
  /\ NoDup (map Account.Phone (accounts s')).
Proof.
  revert s. induction calls as [|c calls IH]; intros s Hid Hnext Hphones; simpl.
  - auto.
  - apply IH; destruct (call_accounts c s) as [[Hsame Hn]|(phone & Hfresh & Happ & Hn)].
    + rewrite map_identity_ID, Hsame, <- map_identity_ID, Hid.
      rewrite <- (length_map identity (accounts (snd (call c s)))), Hsame, length_map.
      reflexivity.
    + rewrite Happ, map_app, Hid, length_app. simpl length.
      rewrite Nat.add_1_r, seq_S, map_app. simpl. do 2 f_equal.
      rewrite Hnext. unfold Int64.add. rewrite Int64Facts.wrap_plus_l.
      f_equal. unfold len. lia.
    + rewrite Hn, Hnext. unfold len.
      rewrite <- (length_map identity (accounts (snd (call c s)))), Hsame, length_map.
      reflexivity.
    + rewrite Hn, Hnext, Happ. unfold Int64.add. rewrite Int64Facts.wrap_plus_l.
      f_equal. unfold len. rewrite length_app. simpl. lia.
    + rewrite map_identity_Phone, Hsame, <- map_identity_Phone. assumption.
    + rewrite Happ, map_app. simpl.
      apply (Permutation_NoDup (Permutation_cons_append _ _)).
      constructor; assumption.
Qed.

(** X10: in every state the seven operations reach from the empty ledger, the
    phones of the accounts are pairwise distinct; and, as long as the ledger
    holds at most 2^63 - 1 accounts, the identifiers of the accounts are
    1, 2, ..., n in the order of registration, the counter is n, and
    FindAccountByID finds the account of identifier i in slot i - 1. *)
Theorem registered_accounts_are_numbered (calls : list Call) :
  let s := run calls emptyService in
  NoDup (map Account.Phone (accounts s))
  /\ (len (accounts s) <= Int64.max_int ->
      map Account.ID (accounts s) = map Z.of_nat (seq 1 (length (accounts s)))
      /\ nextAccountID s = len (accounts s)
      /\ NoDup (map Account.ID (accounts s))
      /\ forall i account,
          nth_error (accounts s) i = Some account ->
          Account.ID account = Z.of_nat (S i)
          /\ FindAccountByID (Z.of_nat (S i)) s = Ok (i, account)).
Proof.
  intros s.
  destruct (run_registrations calls emptyService eq_refl eq_refl (NoDup_nil _))
    as (Hid & Hnext & Hphones).
  fold s in Hid, Hnext, Hphones. split; [assumption|]. intros Hlen.
  assert (Hsmall : forall i, (i <= length (accounts s))%nat ->
                             Int64.wrap (Z.of_nat i) = Z.of_nat i).
  { intros i Hi. apply Int64Facts.wrap_small.
    unfold len, Int64.in_range, Int64.min_int, Int64.max_int, Int64.half in *. lia. }
  assert (Hids : map Account.ID (accounts s) = map Z.of_nat (seq 1 (length (accounts s)))).
  { rewrite Hid. apply map_ext_in. intros i Hi. apply in_seq in Hi. apply Hsmall. lia. }
  assert (Hnd : NoDup (map Account.ID (accounts s))).
  { rewrite Hids. apply NoDup_map_injective; [|apply seq_NoDup].
    intros x y Hxy. lia. }
  split; [assumption|]. split; [|split; [assumption|]].
  - rewrite Hnext. apply Hsmall. lia.
  - intros i account Hi.
    assert (Hlt : (i < length (accounts s))%nat) by (apply nth_error_Some; congruence).
    assert (Hidi : Account.ID account = Z.of_nat (S i)).
    { pose proof (map_nth_error Account.ID _ _ Hi) as Hm. rewrite Hids in Hm.
      rewrite nth_error_map, nth_error_seq in Hm.
      destruct (Nat.ltb_spec i (length (accounts s))); [|lia].
      simpl in Hm. inversion Hm. reflexivity. }
    split; [assumption|]. unfold FindAccountByID.
    destruct (findAccount (Z.of_nat (S i)) (accounts s)) as [[j found]|] eqn:Hf.
    + destruct (findFirst_Some _ _ _ _ Hf) as (Hj & Ht & _). apply Z.eqb_eq in Ht.
      assert (Hji : j = i).
      { eapply (proj1 (NoDup_nth_error (map Account.ID (accounts s))) Hnd).
        - rewrite length_map. apply nth_error_Some. congruence.
        - rewrite !nth_error_map, Hj, Hi. simpl. congruence. }
      subst j. rewrite Hj in Hi. inversion Hi. reflexivity.
    + exfalso. unfold findAccount in Hf. rewrite findFirst_None in Hf.
      apply nth_error_In in Hi.
      specialize (Hf account Hi). cbv beta in Hf. rewrite Hidi, Z.eqb_refl in Hf.
      discriminate.
Qed.

Lemma registered_accounts_are_numbered_witness :
  map Account.ID (accounts fillData) = [1; 2; 3]
  /\ nextAccountID fillData = 3.
Proof.
  destruct (proj2 (registered_accounts_are_numbered fillCalls)) as (H1 & H2 & _).
  - vm_compute. discriminate.
  - split; [exact H1|exact H2].
Defined.

(** ** Payments and favorites name accounts of the ledger *)

(* The payment a call appends has a positive amount and names an account of
   the ledger; the favorite a call appends copies a payment of the ledger. *)
Lemma call_appends (c : Call) (s : Service) :
  (payments (snd (call c s)) = payments s
   \/ (exists ptr payment,
         nth_error (payments s) ptr = Some payment
         /\ payments (snd (call c s))
            = setAt ptr (Payment.setStatus payment PaymentStatusFail) (payments s))
   \/ (exists payment,
         payments (snd (call c s)) = payments s ++ [payment]
         /\ 0 < Payment.Amount payment
         /\ In (Payment.AccountID payment) (map Account.ID (accounts s))))
  /\ (favorites (snd (call c s)) = favorites s
      \/ (exists payment favorite,
            In payment (payments s)
            /\ favorites (snd (call c s)) = favorites s ++ [favorite]
            /\ Favorite.AccountID favorite = Payment.AccountID payment
            /\ Favorite.Amount favorite = Payment.Amount payment
            /\ Favorite.Category favorite = Payment.Category payment)).
Proof.
  assert (HPay : forall uuid accountID amount category,
             (payments (snd (errorOf (Pay uuid accountID amount category s))) = payments s
              \/ (exists payment,
                    payments (snd (errorOf (Pay uuid accountID amount category s)))
                    = payments s ++ [payment]
                    /\ 0 < Payment.Amount payment
                    /\ In (Payment.AccountID payment) (map Account.ID (accounts s))))
             /\ favorites (snd (errorOf (Pay uuid accountID amount category s))) = favorites s).
  { intros uuid accountID amount category. unfold Pay.
    destruct (Z.leb_spec amount 0); auto.
    destruct (findAccount accountID (accounts s)) as [[ptr account]|] eqn:Hf; auto.
    destruct (Account.Balance account <? amount); auto.
    simpl. split; [|reflexivity]. right. eexists. split; [reflexivity|]. simpl.
    split; [assumption|].
    destruct (findFirst_Some _ _ _ _ Hf) as (Hn & _ & _).
    rewrite <- (findAccount_ID _ _ _ _ Hf). apply in_map. eapply nth_error_In; eauto. }
  destruct c as [phone|accountID amount|uuid accountID amount category|paymentID
                |uuid paymentID|uuid paymentID name|uuid favoriteID]; simpl.
  - unfold RegisterAccount. destruct (findFirst _ (accounts s)); auto.
  - unfold Deposit. destruct (amount <=? 0); auto.
    destruct (findAccount accountID (accounts s)) as [[ptr account]|]; auto.
  - destruct (HPay uuid accountID amount category) as [[H|H] H']; auto.
  - unfold Reject, FindPaymentByID, FindAccountByID.
    destruct (findPayment paymentID (payments s)) as [[pptr payment]|] eqn:Hp; auto.
    destruct (findAccount (Payment.AccountID payment) (accounts s)) as [[aptr account]|]; auto.
    simpl. split; [|auto]. right. left. exists pptr, payment. split; [|reflexivity].
    apply (findFirst_Some _ _ _ _ Hp).
  - unfold Repeat, FindPaymentByID, FindAccountByID.
    destruct (findPayment paymentID (payments s)) as [[pptr payment]|]; auto.
    destruct (findAccount (Payment.AccountID payment) (accounts s)) as [[aptr account]|]; auto.
    destruct (Payment.Amount payment >? Account.Balance account); auto.
    destruct (HPay uuid (Account.ID account) (Payment.Amount payment)
                (Payment.Category payment)) as [[H|H] H']; auto.
  - unfold FavoritePayment, FindPaymentByID.
    destruct (findPayment paymentID (payments s)) as [[pptr payment]|] eqn:Hp; auto.
    simpl. split; [auto|]. right. eexists payment, _. split; [|split; [reflexivity|auto]].
    destruct (findFirst_Some _ _ _ _ Hp) as (Hn & _ & _). eapply nth_error_In; eauto.
  - unfold PayFromFavorite, FindFavoriteByID, FindAccountByID.
    destruct (findFavorite favoriteID (favorites s)) as [[fptr favorite]|]; auto.
    destruct (findAccount (Favorite.AccountID favorite) (accounts s)) as [[aptr account]|]; auto.
    destruct (Favorite.Amount favorite >? Account.Balance account); auto.
    destruct (HPay uuid (Account.ID account) (Favorite.Amount favorite)
                (Favorite.Category favorite)) as [[H|H] H']; auto.
Qed.

(* The identifiers of the accounts only grow. *)
Lemma call_keeps_identifiers (c : Call) (s : Service) (accountID : Z) :
  In accountID (map Account.ID (accounts s)) ->
  In accountID (map Account.ID (accounts (snd (call c s)))).
Proof.
  intros Hin. destruct (call_accounts c s) as [[Hsame _]|(phone & _ & Happ & _)].
  - rewrite map_identity_ID, Hsame, <- map_identity_ID. assumption.
  - rewrite Happ, map_app. apply in_or_app. left. assumption.
Qed.

Lemma run_references (calls : list Call) (s : Service) :
  Forall (fun p => 0 < Payment.Amount p
                   /\ In (Payment.AccountID p) (map Account.ID (accounts s))) (payments s) ->
  Forall (fun f => 0 < Favorite.Amount f
                   /\ In (Favorite.AccountID f) (map Account.ID (accounts s))) (favorites s) ->
  let s' := run calls s in
  Forall (fun p => 0 < Payment.Amount p
                   /\ In (Payment.AccountID p) (map Account.ID (accounts s'))) (payments s')
  /\ Forall (fun f => 0 < Favorite.Amount f
                      /\ In (Favorite.AccountID f) (map Account.ID (accounts s')))
       (favorites s').
Proof.
  revert s. induction calls as [|c calls IH]; intros s Hp Hf; simpl.
  - auto.
  - assert (Hp' : Forall (fun p => 0 < Payment.Amount p
                            /\ In (Payment.AccountID p)
                                 (map Account.ID (accounts (snd (call c s)))))
                    (payments s)).
    { eapply Forall_impl; [|exact Hp]. intros p [H1 H2]. split; auto.
      apply call_keeps_identifiers. assumption. }
    assert (Hf' : Forall (fun f => 0 < Favorite.Amount f
                            /\ In (Favorite.AccountID f)
                                 (map Account.ID (accounts (snd (call c s)))))
                    (favorites s)).
    { eapply Forall_impl; [|exact Hf]. intros f [H1 H2]. split; auto.
      apply call_keeps_identifiers. assumption. }
    destruct (call_appends c s) as [HP HF]. apply IH.
    + destruct HP as [E|[(ptr & p & Hn & E)|(p & E & Hpos & Hin)]]; rewrite E.
      * assumption.
      * apply Forall_setAt; auto. simpl.
        rewrite Forall_forall in Hp'. apply Hp'. eapply nth_error_In; eauto.
      * apply Forall_app. split; auto. constructor; auto. split; auto.
        apply call_keeps_identifiers. assumption.
    + destruct HF as [E|(p & f & Hin & E & Ha & Hm & _)]; rewrite E.
      * assumption.
      * apply Forall_app. split; auto. constructor; auto.
        rewrite Forall_forall in Hp'. rewrite Ha, Hm. apply Hp'. assumption.
Qed.

(** X11: in every state the seven operations reach from the empty ledger,
    every payment and every favorite has a positive amount and names an
    account of the ledger.  So Reject never fails there with
    ErrAccountNotFound: it succeeds exactly when a payment has the
    identifier, and fails with ErrPaymentNotFound otherwise. *)
Theorem reachable_payments_name_accounts (calls : list Call) :
  let s := run calls emptyService in
  Forall (fun p => 0 < Payment.Amount p
                   /\ exists account, In account (accounts s)
                                      /\ Account.ID account = Payment.AccountID p)
    (payments s)
  /\ Forall (fun f => 0 < Favorite.Amount f
                      /\ exists account, In account (accounts s)
                                         /\ Account.ID account = Favorite.AccountID f)
       (favorites s)
  /\ forall paymentID,
      ((exists payment, In payment (payments s) /\ Payment.ID payment = paymentID) ->
       fst (Reject paymentID s) = None)
      /\ ((forall payment, In payment (payments s) -> Payment.ID payment <> paymentID) ->
          Reject paymentID s = (Some ErrPaymentNotFound, s)).
Proof.
  intros s.
  destruct (run_references calls emptyService (Forall_nil _) (Forall_nil _)) as [Hp Hf].
  fold s in Hp, Hf. split; [|split].
  - eapply Forall_impl; [|exact Hp]. intros p [H1 H2]. split; auto.
    apply in_map_iff in H2. destruct H2 as (a & Ha & Hin). eauto.
  - eapply Forall_impl; [|exact Hf]. intros f [H1 H2]. split; auto.
    apply in_map_iff in H2. destruct H2 as (a & Ha & Hin). eauto.
  - intros paymentID. split.
    + intros (payment & Hin & Hid). unfold Reject, FindPaymentByID, FindAccountByID.
      destruct (findPayment paymentID (payments s)) as [[pptr found]|] eqn:Hfound.
      * destruct (findFirst_Some _ _ _ _ Hfound) as (Hn & _ & _).
        apply nth_error_In in Hn. rewrite Forall_forall in Hp.
        destruct (Hp found Hn) as [_ Hacc]. apply in_map_iff in Hacc.
        destruct Hacc as (a & Ha & Hina).
        destruct (findAccount_exists (Payment.AccountID found) (accounts s)) as [[aptr acc] Hfa];
          [eauto|].
        rewrite Hfa. reflexivity.
      * exfalso. unfold findPayment in Hfound. rewrite findFirst_None in Hfound.
        specialize (Hfound payment Hin). cbv beta in Hfound.
        rewrite Hid, String.eqb_refl in Hfound. discriminate.
    + intros Hnone. unfold Reject, FindPaymentByID.
      assert (Hfound : findPayment paymentID (payments s) = None).
      { apply findFirst_None. intros p Hin. apply String.eqb_neq. auto. }
      rewrite Hfound. reflexivity.
Qed.

Lemma reachable_payments_name_accounts_witness :
  fst (Reject "u7" fillData) = None.
Proof.
  apply (proj1 (proj2 (proj2 (reachable_payments_name_accounts fillCalls)) "u7"%string)).
  exists {| Payment.ID := "u7"; Payment.AccountID := 1; Payment.Amount := 7;
            Payment.Category := "bank"; Payment.Status := PaymentStatusInProgress |}.
  split; [|reflexivity]. vm_compute. tauto.
Defined.

(** ** Nothing is removed *)

Lemma call_written (c : Call) (s : Service) :
  exists tail, map written (payments (snd (call c s))) = map written (payments s) ++ tail.
Proof.
  destruct (proj1 (call_appends c s)) as [E|[(ptr & p & Hn & E)|(p & E & _)]]; rewrite E.
  - exists []. rewrite app_nil_r. reflexivity.
  - exists []. rewrite app_nil_r. apply (map_setAt written _ _ _ p); auto.
  - exists [written p]. apply map_app.
Qed.

(** X12: no sequence of calls removes or reorders anything.  After it, the
    accounts of before are in their slots with their identifiers and phones,
    the payments of before are in their slots with their identifiers,
    accounts, amounts and categories, and the favorites of before are in
    their slots, unchanged in every field; what is new comes behind. *)
Theorem run_only_appends (calls : list Call) (s : Service) :
  exists newAccounts newPayments newFavorites,
    map identity (accounts (run calls s)) = map identity (accounts s) ++ newAccounts
    /\ map written (payments (run calls s)) = map written (payments s) ++ newPayments
    /\ favorites (run calls s) = favorites s ++ newFavorites.
Proof.
  revert s. induction calls as [|c calls IH]; intros s; simpl.
  - exists [], [], []. rewrite !app_nil_r. auto.
  - destruct (IH (snd (call c s))) as (na & np & nf & Ha & Hp & Hf).
    destruct (call_written c s) as [tp Htp].
    assert (Hta : exists ta, map identity (accounts (snd (call c s)))
                             = map identity (accounts s) ++ ta).
    { destruct (call_accounts c s) as [[Hsame _]|(phone & _ & Happ & _)].
      - exists []. rewrite app_nil_r. assumption.
      - rewrite Happ, map_app. eauto. }
    assert (Htf : exists tf, favorites (snd (call c s)) = favorites s ++ tf).
    { destruct (proj2 (call_appends c s)) as [E|(p & f & _ & E & _)]; rewrite E.
      - exists []. rewrite app_nil_r. reflexivity.
      - eauto. }
    destruct Hta as [ta Hta]. destruct Htf as [tf Htf].
    exists (ta ++ na), (tp ++ np), (tf ++ nf).
    rewrite Ha, Hp, Hf, Hta, Htp, Htf, !app_assoc. auto.
Qed.

(** ** Runs of the dumps *)

Example Itoa_examples :
  map Itoa [0; 7; 10; 1999992; -45; Int64.max_int; Int64.min_int]
  = ["0"; "7"; "10"; "1999992"; "-45"; "9223372036854775807"; "-9223372036854775808"]%string.
Proof. vm_compute. reflexivity. Qed.

Example Atoi_examples :
  map Atoi ["0"; "+7"; "-45"; "007"; ""; "-"; "12a"; "1_000"; "9223372036854775808";
            "-9223372036854775809"; "99999999999999999999x"; "-99999999999999999999x"]%string
  = [0; 7; -45; 7; 0; 0; 0; 0; Int64.max_int; Int64.min_int; Int64.max_int; Int64.min_int].
Proof. vm_compute. reflexivity. Qed.

Example Split_examples :
  (Split "1;+992;10" semicolon, Split "" semicolon, Split ";a;" semicolon)
  = (["1"; "+992"; "10"], [""], [""; "a"; ""])%string.
Proof. vm_compute. reflexivity. Qed.

(** ** Strings *)

Lemma append_assoc (a b c : string) : ((a ++ b) ++ c = a ++ (b ++ c))%string.
Proof. induction a as [|x a IH]; simpl; [reflexivity|]. rewrite IH. reflexivity. Qed.

Lemma append_nil_r (a : string) : (a ++ "" = a)%string.
Proof. induction a as [|x a IH]; simpl; [reflexivity|]. rewrite IH. reflexivity. Qed.

Lemma append_cancel_r (a b c : string) : (a ++ c = b ++ c)%string -> a = b.
Proof.
  assert (Hlen : forall x y : string, String.length (x ++ y) = (String.length x + String.length y)%nat).
  { intros x y. induction x as [|ch x IH]; simpl; auto. }
  revert b. induction a as [|x a IH]; intros [|y b] H; simpl in H.
  - reflexivity.
  - exfalso. apply (f_equal String.length) in H. simpl in H. rewrite Hlen in H. lia.
  - exfalso. apply (f_equal String.length) in H. simpl in H. rewrite Hlen in H. lia.
  - inversion H. f_equal. apply IH. assumption.
Qed.

Lemma hasChar_append (c : ascii) (a b : string) :
  hasChar c (a ++ b) = hasChar c a || hasChar c b.
Proof.
  induction a as [|x a IH]; simpl; [reflexivity|]. rewrite IH. apply orb_assoc.
Qed.

(* A field without the separator, then the separator: Split returns the
   field and goes on behind the separator. *)
Lemma Split_field (sep : ascii) (field rest : string) :
  hasChar sep field = false ->
  Split (field ++ String sep rest) sep = field :: Split rest sep.
Proof.
  induction field as [|x field IH]; simpl; intros H.
  - rewrite Ascii.eqb_refl. reflexivity.
  - apply orb_false_iff in H. destruct H as [Hx Hf]. rewrite Hx, (IH Hf). reflexivity.
Qed.

Lemma Split_last_field (sep : ascii) (field : string) :
  hasChar sep field = false -> Split field sep = [field].
Proof.
  induction field as [|x field IH]; simpl; intros H.
  - reflexivity.
  - apply orb_false_iff in H. destruct H as [Hx Hf]. rewrite Hx, (IH Hf). reflexivity.
Qed.

(** ** Itoa and Atoi *)

Lemma digit_cases (d : Z) :
  0 <= d < 10 ->
  d = 0 \/ d = 1 \/ d = 2 \/ d = 3 \/ d = 4 \/ d = 5 \/ d = 6 \/ d = 7 \/ d = 8 \/ d = 9.
Proof. lia. Qed.

Lemma digitValue_digitChar (d : Z) : 0 <= d < 10 -> digitValue (digitChar d) = Some d.
Proof.
  intros H. destruct (digit_cases d H) as [->|[->|[->|[->|[->|[->|[->|[->|[->| ->]]]]]]]]];
    reflexivity.
Qed.

Lemma digitChar_not (c : ascii) (d : Z) :
  0 <= d < 10 -> digitValue c = None -> Ascii.eqb (digitChar d) c = false.
Proof.
  intros Hd Hc. apply Ascii.eqb_neq. intros Heq. subst c.
  rewrite digitValue_digitChar in Hc by assumption. discriminate.
Qed.

Lemma allDigits_hasChar (c : ascii) (s : string) :
  allDigits s -> digitValue c = None -> hasChar c s = false.
Proof.
  induction s as [|x s IH]; simpl; intros Hs Hc; [reflexivity|].
  destruct Hs as [(d & Hd & ->) Hs]. rewrite digitChar_not by assumption. auto.
Qed.

Lemma parseDigits_app (a b : string) (acc : Z) :
  parseDigits (a ++ b) acc
  = match parseDigits a acc with
    | Value v => parseDigits b v
    | SyntaxError => SyntaxError
    | RangeError => RangeError
    end.
Proof.
  revert acc. induction a as [|x a IH]; intros acc; simpl; [reflexivity|].
  destruct (digitValue x) as [d|]; [|reflexivity].
  destruct (acc * 10 + d >? maxUint64); [reflexivity|apply IH].
Qed.

(* The digits that formatBits pushes in front of the buffer spell the
   magnitude. *)
Lemma formatBits_digits (fuel : nat) :
  forall (u : Z) (buf : string),
    0 <= u < 10 ^ Z.of_nat fuel -> (0 < fuel)%nat ->
    exists digits,
      formatBits fuel u buf = (digits ++ buf)%string
      /\ digits <> EmptyString
      /\ allDigits digits
      /\ forall acc,
           0 <= acc ->
           acc * 10 ^ Z.of_nat (String.length digits) + u <= maxUint64 ->
           parseDigits digits acc
           = Value (acc * 10 ^ Z.of_nat (String.length digits) + u).
Proof.
  induction fuel as [|fuel IH]; intros u buf Hu Hfuel; [lia|].
  simpl formatBits. destruct (Z.ltb_spec u 10) as [Hlt|Hge].
  - exists (String (digitChar u) EmptyString). split; [reflexivity|].
    split; [discriminate|]. split.
    + simpl. split; [|exact I]. exists u. split; [lia|reflexivity].
    + intros acc Hacc. cbn [parseDigits String.length].
      change (10 ^ Z.of_nat 1) with 10. intros Hmax.
      rewrite digitValue_digitChar by lia.
      destruct (Z.gtb_spec (acc * 10 + u) maxUint64); [lia|reflexivity].
  - assert (Hpow : 10 ^ Z.of_nat (S fuel) = 10 * 10 ^ Z.of_nat fuel).
    { rewrite Nat2Z.inj_succ, Z.pow_succ_r by lia. reflexivity. }
    assert (Hfuel' : (0 < fuel)%nat).
    { destruct fuel; [|lia]. simpl in Hu. lia. }
    assert (Hmod : 0 <= u mod 10 < 10) by (apply Z.mod_pos_bound; lia).
    pose proof (Z.div_mod u 10 ltac:(lia)) as Hdm.
    assert (Hdiv : 0 <= u / 10) by (apply Z.div_pos; lia).
    destruct (IH (u / 10) (String (digitChar (u mod 10)) buf)) as (ds & Hf & Hne & Hall & Hparse).
    { split; [assumption|]. apply Z.div_lt_upper_bound; lia. }
    { assumption. }
    exists (ds ++ String (digitChar (u mod 10)) EmptyString)%string.
    split; [|split; [|split]].
    + rewrite Hf, append_assoc. reflexivity.
    + destruct ds; [contradiction|discriminate].
    + clear - Hall Hmod. induction ds as [|x ds IHds]; simpl in *.
      * split; [|exact I]. exists (u mod 10). split; [assumption|reflexivity].
      * destruct Hall as [Hx Hall]. split; auto.
    + intros acc Hacc.
      assert (Hlen : String.length (ds ++ String (digitChar (u mod 10)) "")
                     = S (String.length ds)).
      { clear. induction ds as [|x ds IHds]; simpl; auto. }
      rewrite Hlen, Nat2Z.inj_succ, Z.pow_succ_r by lia.
      assert (Hp : 0 < 10 ^ Z.of_nat (String.length ds)) by (apply Z.pow_pos_nonneg; lia).
      set (P := 10 ^ Z.of_nat (String.length ds)) in *.
      assert (HX : 0 <= acc * P) by (apply Z.mul_nonneg_nonneg; lia).
      replace (acc * (10 * P)) with (10 * (acc * P)) by ring.
      intros Hmax.
      rewrite parseDigits_app, Hparse by (try assumption; fold P; lia).
      cbn [parseDigits]. rewrite digitValue_digitChar by assumption. fold P.
      destruct (Z.gtb_spec ((acc * P + u / 10) * 10 + u mod 10) maxUint64); [lia|].
      f_equal. lia.
Qed.

Lemma int64_magnitude (z : Z) : int64 z -> - 10 ^ Z.of_nat 20 < z < 10 ^ Z.of_nat 20.
Proof.
  unfold int64, Int64.in_range, Int64.min_int, Int64.max_int, Int64.half.
  change (10 ^ Z.of_nat 20) with 100000000000000000000. lia.
Qed.

(* Reading back with Atoi what Itoa wrote gives the integer, for every
   integer of 64 bits; what Itoa writes holds no byte other than the digits
   and the minus sign, so none of the separators of the dumps. *)
Lemma Atoi_Itoa (z : Z) :
  int64 z ->
  Atoi (Itoa z) = z
  /\ forall c, digitValue c = None -> c <> "-"%char -> hasChar c (Itoa z) = false.
Proof.
  intros Hz. pose proof (int64_magnitude z Hz) as Hmag.
  unfold Itoa. destruct (Z.ltb_spec z 0) as [Hneg|Hpos].
  - destruct (formatBits_digits 20 (- z) EmptyString) as (ds & Hf & Hne & Hall & Hparse);
      [lia|lia|].
    rewrite Hf, append_nil_r. split.
    + unfold Atoi. change (Ascii.eqb "-"%char "-"%char) with true. cbn [orb].
      destruct ds as [|x ds]; [contradiction|].
      rewrite Hparse by (try lia; revert Hz;
        unfold int64, Int64.in_range, Int64.min_int, Int64.max_int, maxUint64, Int64.half; lia).
      destruct (Z.gtb_spec (0 * 10 ^ Z.of_nat (String.length (String x ds)) + - z) Int64.half)
        as [Hbig|Hsmall].
      * exfalso. revert Hz Hbig.
        unfold int64, Int64.in_range, Int64.min_int, Int64.max_int, Int64.half. lia.
      * lia.
    + intros c Hc Hminus. cbn [hasChar]. rewrite (allDigits_hasChar c ds Hall Hc).
      assert (Hm : Ascii.eqb "-"%char c = false).
      { apply Ascii.eqb_neq. auto. }
      rewrite Hm. reflexivity.
  - destruct (formatBits_digits 20 z EmptyString) as (ds & Hf & Hne & Hall & Hparse);
      [lia|lia|].
    rewrite Hf, append_nil_r. split.
    + unfold Atoi. destruct ds as [|x ds]; [contradiction|].
      destruct Hall as [(d & Hd & Hx) Hall'].
      assert (Hnm : Ascii.eqb x "-"%char = false)
        by (rewrite Hx; apply digitChar_not; [assumption|reflexivity]).
      assert (Hnp : Ascii.eqb x "+"%char = false)
        by (rewrite Hx; apply digitChar_not; [assumption|reflexivity]).
      rewrite Hnm, Hnp. cbn [orb].
      rewrite Hparse by (try lia; revert Hz;
        unfold int64, Int64.in_range, Int64.min_int, Int64.max_int, maxUint64, Int64.half; lia).
      destruct (Z.gtb_spec (0 * 10 ^ Z.of_nat (String.length (String x ds)) + z)
                  Int64.max_int) as [Hbig|Hsmall].
      * exfalso. revert Hz Hbig.
        unfold int64, Int64.in_range, Int64.min_int, Int64.max_int, Int64.half. lia.
      * lia.
    + intros c Hc _. apply allDigits_hasChar; assumption.
Qed.


Lemma Itoa_field (terminator : ascii) (z : Z) :
  int64 z -> digitValue terminator = None -> terminator <> "-"%char ->
  hasChar semicolon (Itoa z) = false /\ hasChar terminator (Itoa z) = false.
Proof.
  intros Hz Ht Hm. destruct (Atoi_Itoa z Hz) as [_ H]. split; apply H; auto; discriminate.
Qed.

Lemma Itoa_injective (x y : Z) : int64 x -> int64 y -> Itoa x = Itoa y -> x = y.
Proof.
  intros Hx Hy H. rewrite <- (proj1 (Atoi_Itoa x Hx)), <- (proj1 (Atoi_Itoa y Hy)), H.
  reflexivity.
Qed.

(** ** Records and dumps *)

Lemma dump_from {A : Type} (record : A -> string) (l : list A) (buffer : string) :
  fold_left (fun buffer x => (buffer ++ record x)%string) l buffer
  = (buffer ++ dump record l)%string.
Proof.
  unfold dump. revert buffer. induction l as [|x l IH]; intros buffer; simpl.
  - rewrite append_nil_r. reflexivity.
  - rewrite IH, (IH (record x)), append_assoc. reflexivity.
Qed.

Lemma dump_cons {A : Type} (record : A -> string) (x : A) (l : list A) :
  dump record (x :: l) = (record x ++ dump record l)%string.
Proof. unfold dump at 1. simpl. apply dump_from. Qed.

Lemma dump_app {A : Type} (record : A -> string) (l t : list A) :
  dump record (l ++ t) = (dump record l ++ dump record t)%string.
Proof.
  induction l as [|x l IH]; simpl; [reflexivity|].
  rewrite !dump_cons, IH, append_assoc. reflexivity.
Qed.

Lemma dropEmptyLast_terminated (records : list string) :
  dropEmptyLast (records ++ [EmptyString]) = records.
Proof.
  unfold dropEmptyLast. rewrite last_last, removelast_last. reflexivity.
Qed.

(* A dump of records that end with the terminator and do not hold it
   elsewhere is cut back into the records. *)
Lemma Split_dump {A : Type} (body : A -> string) (terminator : ascii) (l : list A) :
  Forall (fun x => hasChar terminator (body x) = false) l ->
  dropEmptyLast
    (Split (dump (fun x => (body x ++ String terminator EmptyString)%string) l) terminator)
  = map body l.
Proof.
  intros H.
  assert (Hs : Split (dump (fun x => (body x ++ String terminator EmptyString)%string) l)
                 terminator
               = map body l ++ [EmptyString]).
  { induction H as [|x l Hx Hl IH]; [reflexivity|].
    rewrite dump_cons, append_assoc. simpl append.
    rewrite (Split_field terminator (body x) _ Hx), IH. reflexivity. }
  rewrite Hs. apply dropEmptyLast_terminated.
Qed.

Lemma newline_terminator :
  digitValue newline = None /\ newline <> "-"%char /\ newline <> semicolon.
Proof. split; [reflexivity|split; discriminate]. Qed.

Lemma bar_terminator : digitValue bar = None /\ bar <> "-"%char /\ bar <> semicolon.
Proof. split; [reflexivity|split; discriminate]. Qed.

Ltac split_fields :=
  repeat (rewrite Split_field by assumption);
  rewrite Split_last_field by assumption.

Section AccountRecords.
Variable terminator : ascii.
Hypothesis terminator_ok :
  digitValue terminator = None /\ terminator <> "-"%char /\ terminator <> semicolon.

Lemma accountRecord_body (account : Account.t) :
  accountRecord account terminator = (accountBody account ++ String terminator EmptyString)%string.
Proof.
  unfold accountRecord, accountBody. rewrite !append_assoc. simpl. rewrite ?append_assoc.
  reflexivity.
Qed.

Lemma accountBody_fields (account : Account.t) :
  dumpableAccount terminator account ->
  Split (accountBody account) semicolon
  = [Itoa (Account.ID account); Account.Phone account; Itoa (Account.Balance account)]
  /\ hasChar terminator (accountBody account) = false.
Proof.
  intros (Hid & Hbal & Hphone & Hphone').
  destruct terminator_ok as (Ht & Hm & Hsc).
  destruct (Itoa_field terminator _ Hid Ht Hm) as [Hid1 Hid2].
  destruct (Itoa_field terminator _ Hbal Ht Hm) as [Hbal1 Hbal2].
  unfold accountBody. split.
  - simpl append. split_fields. reflexivity.
  - repeat (rewrite ?hasChar_append; cbn [hasChar append]).
    rewrite Hid2, Hphone', Hbal2.
    assert (Hsemi : Ascii.eqb semicolon terminator = false).
    { apply Ascii.eqb_neq. auto. }
    rewrite Hsemi. reflexivity.
Qed.

End AccountRecords.

(** ** ExportToFile and ImportFromFile *)

Lemma dump_ext {A : Type} (f g : A -> string) (l : list A) :
  (forall x, f x = g x) -> dump f l = dump g l.
Proof.
  intros H. induction l as [|x l IH]; [reflexivity|]. rewrite !dump_cons, H, IH. reflexivity.
Qed.

Lemma dump_ext_account (l : list Account.t) :
  dump (fun account => accountRecord account bar) l
  = dump (fun account => (accountBody account ++ String bar EmptyString)%string) l.
Proof. apply dump_ext. intros a. apply accountRecord_body. Qed.

Lemma importFileRecord_body (account : Account.t) (s : Service) :
  dumpableAccount bar account ->
  importFileRecord (accountBody account) s = Some (withAccounts s (accounts s ++ [account])).
Proof.
  intros Hd. unfold importFileRecord.
  rewrite (proj1 (accountBody_fields bar bar_terminator account Hd)).
  destruct Hd as (Hid & Hbal & _). cbn [nth_error].
  rewrite (proj1 (Atoi_Itoa _ Hid)), (proj1 (Atoi_Itoa _ Hbal)).
  destruct account. reflexivity.
Qed.

Lemma importFileRecords_bodies (l : list Account.t) (s : Service) :
  Forall (dumpableAccount bar) l ->
  importRecords importFileRecord (map accountBody l) s
  = Some (withAccounts s (accounts s ++ l)).
Proof.
  intros H. revert s. induction H as [|account l Ha Hl IH]; intros s; simpl.
  - rewrite app_nil_r. destruct s. reflexivity.
  - rewrite (importFileRecord_body account s Ha), IH. simpl.
    rewrite <- app_assoc. reflexivity.
Qed.

(** X13: ImportFromFile reads back what ExportToFile wrote.  For accounts whose
    identifiers and balances are 64-bit integers and whose phones hold
    neither [;] nor [|], the accounts of the exporting service are appended,
    as they were and in their order, behind the accounts of the importing
    service; its counter of identifiers, its payments and its favorites are
    not written, and no account is looked up, so identifiers can repeat.  A
    missing file gives the error of the operating system, an empty file
    changes nothing. *)
Theorem ImportFromFile_ExportToFile (s s0 : Service) :
  ImportFromFile None s0 = NotExist
  /\ ImportFromFile (Some EmptyString) s0 = Returned s0
  /\ (Forall (dumpableAccount bar) (accounts s) ->
      ImportFromFile (Some (ExportToFile s)) s0
      = Returned {| nextAccountID := nextAccountID s0;
                    accounts := accounts s0 ++ accounts s;
                    payments := payments s0;
                    favorites := favorites s0 |}).
Proof.
  split; [reflexivity|]. split; [reflexivity|].
  intros Hd. unfold ImportFromFile, ExportToFile.
  rewrite (dump_ext_account (accounts s)).
  rewrite (Split_dump accountBody bar (accounts s)).
  - rewrite (importFileRecords_bodies _ _ Hd). reflexivity.
  - eapply Forall_impl; [|exact Hd]. intros a Ha.
    apply (accountBody_fields bar bar_terminator a Ha).
Qed.

Ltac closed_int64 := vm_compute; split; discriminate.
Ltac closed_field := split; reflexivity.

Lemma fillData_accounts_dumpable (terminator : ascii) :
  terminator = bar \/ terminator = newline ->
  Forall (dumpableAccount terminator) (accounts fillData).
Proof.
  intros Ht. apply Forall_forall. intros account Hin. vm_compute in Hin.
  destruct Hin as [<-|[<-|[<-|[]]]]; destruct Ht as [-> | ->];
    (split; [closed_int64|split; [closed_int64|closed_field]]).
Qed.

Lemma ImportFromFile_ExportToFile_witness :
  ImportFromFile (Some (ExportToFile fillData)) registered
  = Returned {| nextAccountID := nextAccountID registered;
                accounts := accounts registered ++ accounts fillData;
                payments := payments registered;
                favorites := favorites registered |}.
Proof.
  apply (proj2 (proj2 (ImportFromFile_ExportToFile fillData registered))).
  apply fillData_accounts_dumpable. left. reflexivity.
Defined.

(** ** Export and Import *)

Lemma paymentRecord_body (payment : Payment.t) :
  paymentRecord payment = (paymentBody payment ++ String newline EmptyString)%string.
Proof.
  unfold paymentRecord, paymentBody. rewrite !append_assoc. simpl. rewrite ?append_assoc.
  simpl. rewrite ?append_assoc. simpl. rewrite ?append_assoc. reflexivity.
Qed.

Lemma favoriteRecord_body (favorite : Favorite.t) :
  favoriteRecord favorite = (favoriteBody favorite ++ String newline EmptyString)%string.
Proof.
  unfold favoriteRecord, favoriteBody. rewrite !append_assoc. simpl. rewrite ?append_assoc.
  simpl. rewrite ?append_assoc. simpl. rewrite ?append_assoc. reflexivity.
Qed.

Lemma semicolon_not_newline : Ascii.eqb semicolon newline = false.
Proof. reflexivity. Qed.

Lemma paymentBody_fields (payment : Payment.t) :
  dumpablePayment payment ->
  Split (paymentBody payment) semicolon
  = [Payment.ID payment; Itoa (Payment.AccountID payment); Itoa (Payment.Amount payment);
     Payment.Category payment; Payment.Status payment]
  /\ hasChar newline (paymentBody payment) = false.
Proof.
  intros ((Hi1 & Hi2) & Ha & Hm & (Hc1 & Hc2) & (Hs1 & Hs2)).
  destruct newline_terminator as (Ht & Hminus & _).
  destruct (Itoa_field newline _ Ha Ht Hminus) as [Ha1 Ha2].
  destruct (Itoa_field newline _ Hm Ht Hminus) as [Hm1 Hm2].
  unfold paymentBody. split.
  - simpl append. split_fields. reflexivity.
  - repeat (rewrite ?hasChar_append; cbn [hasChar append]).
    rewrite Hi2, Ha2, Hm2, Hc2, Hs2, semicolon_not_newline. reflexivity.
Qed.

Lemma favoriteBody_fields (favorite : Favorite.t) :
  dumpableFavorite favorite ->
  Split (favoriteBody favorite) semicolon
  = [Favorite.ID favorite; Itoa (Favorite.AccountID favorite); Favorite.Name favorite;
     Itoa (Favorite.Amount favorite); Favorite.Category favorite]
  /\ hasChar newline (favoriteBody favorite) = false.
Proof.
  intros ((Hi1 & Hi2) & Ha & (Hn1 & Hn2) & Hm & (Hc1 & Hc2)).
  destruct newline_terminator as (Ht & Hminus & _).
  destruct (Itoa_field newline _ Ha Ht Hminus) as [Ha1 Ha2].
  destruct (Itoa_field newline _ Hm Ht Hminus) as [Hm1 Hm2].
  unfold favoriteBody. split.
  - simpl append. split_fields. reflexivity.
  - repeat (rewrite ?hasChar_append; cbn [hasChar append]).
    rewrite Hi2, Ha2, Hm2, Hc2, Hn2, semicolon_not_newline. reflexivity.
Qed.

(* A record whose identifier is not in use is appended as it was written. *)
Lemma importAccountRecord_new (account : Account.t) (s : Service) :
  dumpableAccount newline account ->
  ~ In (Account.ID account) (map Account.ID (accounts s)) ->
  importAccountRecord (accountBody account) s
  = Some (withAccounts s (accounts s ++ [account])).
Proof.
  intros Hd Hnew. unfold importAccountRecord.
  rewrite (proj1 (accountBody_fields newline newline_terminator account Hd)).
  destruct Hd as (Hid & Hbal & _). cbn [nth_error].
  rewrite (proj1 (Atoi_Itoa _ Hid)), (proj1 (Atoi_Itoa _ Hbal)).
  assert (Hf : findAccount (Account.ID account) (accounts s) = None).
  { apply findFirst_None. intros a Ha. apply Z.eqb_neq. intros Heq.
    apply Hnew. rewrite <- Heq. apply in_map. assumption. }
  rewrite Hf. destruct account. reflexivity.
Qed.

Lemma importPaymentRecord_new (payment : Payment.t) (s : Service) :
  dumpablePayment payment ->
  ~ In (Payment.ID payment) (map Payment.ID (payments s)) ->
  importPaymentRecord (paymentBody payment) s
  = Some (withPayments s (payments s ++ [payment])).
Proof.
  intros Hd Hnew. unfold importPaymentRecord.
  rewrite (proj1 (paymentBody_fields payment Hd)).
  destruct Hd as (_ & Ha & Hm & _). cbn [nth_error].
  rewrite (proj1 (Atoi_Itoa _ Ha)), (proj1 (Atoi_Itoa _ Hm)).
  assert (Hf : findPayment (Payment.ID payment) (payments s) = None).
  { apply findFirst_None. intros p Hp. apply String.eqb_neq. intros Heq.
    apply Hnew. rewrite <- Heq. apply in_map. assumption. }
  rewrite Hf. destruct payment. reflexivity.
Qed.

Lemma importFavoriteRecord_new (favorite : Favorite.t) (s : Service) :
  dumpableFavorite favorite ->
  ~ In (Favorite.ID favorite) (map Favorite.ID (favorites s)) ->
  importFavoriteRecord (favoriteBody favorite) s
  = Some (withFavorites s (favorites s ++ [favorite])).
Proof.
  intros Hd Hnew. unfold importFavoriteRecord.
  rewrite (proj1 (favoriteBody_fields favorite Hd)).
  destruct Hd as (_ & Ha & _ & Hm & _). cbn [nth_error].
  rewrite (proj1 (Atoi_Itoa _ Ha)), (proj1 (Atoi_Itoa _ Hm)).
  assert (Hf : findFavorite (Favorite.ID favorite) (favorites s) = None).
  { apply findFirst_None. intros p Hp. apply String.eqb_neq. intros Heq.
    apply Hnew. rewrite <- Heq. apply in_map. assumption. }
  rewrite Hf. destruct favorite. reflexivity.
Qed.

Lemma NoDup_app_cons {A : Type} (l : list A) (x : A) (t : list A) :
  NoDup (l ++ x :: t) -> ~ In x l /\ NoDup ((l ++ [x]) ++ t).
Proof.
  intros H. split.
  - apply NoDup_remove_2 in H. intros Hin. apply H. apply in_or_app. auto.
  - rewrite <- app_assoc. assumption.
Qed.

Lemma importAccountRecords_new (l : list Account.t) :
  forall s,
    Forall (dumpableAccount newline) l ->
    NoDup (map Account.ID (accounts s) ++ map Account.ID l) ->
    importRecords importAccountRecord (map accountBody l) s
    = Some (withAccounts s (accounts s ++ l)).
Proof.
  induction l as [|account l IH]; intros s Hd Hnd; simpl.
  - rewrite app_nil_r. destruct s. reflexivity.
  - inversion Hd as [|? ? Ha Hl]; subst. simpl in Hnd.
    destruct (NoDup_app_cons _ _ _ Hnd) as [Hnew Hnd'].
    rewrite (importAccountRecord_new account s Ha Hnew), IH; auto.
    + simpl. rewrite <- app_assoc. reflexivity.
    + simpl. rewrite map_app. assumption.
Qed.

Lemma importPaymentRecords_new (l : list Payment.t) :
  forall s,
    Forall dumpablePayment l ->
    NoDup (map Payment.ID (payments s) ++ map Payment.ID l) ->
    importRecords importPaymentRecord (map paymentBody l) s
    = Some (withPayments s (payments s ++ l)).
Proof.
  induction l as [|payment l IH]; intros s Hd Hnd; simpl.
  - rewrite app_nil_r. destruct s. reflexivity.
  - inversion Hd as [|? ? Ha Hl]; subst. simpl in Hnd.
    destruct (NoDup_app_cons _ _ _ Hnd) as [Hnew Hnd'].
    rewrite (importPaymentRecord_new payment s Ha Hnew), IH; auto.
    + simpl. rewrite <- app_assoc. reflexivity.
    + simpl. rewrite map_app. assumption.
Qed.

Lemma importFavoriteRecords_new (l : list Favorite.t) :
  forall s,
    Forall dumpableFavorite l ->
    NoDup (map Favorite.ID (favorites s) ++ map Favorite.ID l) ->
    importRecords importFavoriteRecord (map favoriteBody l) s
    = Some (withFavorites s (favorites s ++ l)).
Proof.
  induction l as [|favorite l IH]; intros s Hd Hnd; simpl.
  - rewrite app_nil_r. destruct s. reflexivity.
  - inversion Hd as [|? ? Ha Hl]; subst. simpl in Hnd.
    destruct (NoDup_app_cons _ _ _ Hnd) as [Hnew Hnd'].
    rewrite (importFavoriteRecord_new favorite s Ha Hnew), IH; auto.
    + simpl. rewrite <- app_assoc. reflexivity.
    + simpl. rewrite map_app. assumption.
Qed.

(* What Import finds in a directory after Export: the dump of a collection
   that is not empty, and for an empty collection what was there before. *)
Lemma Export_files (dir : option Directory) (s : Service) :
  Export dir s "accounts.dump"%string
  = (if len (accounts s) =? 0 then fileOf dir "accounts.dump"
     else Some (dump (fun account => accountRecord account newline) (accounts s)))
  /\ Export dir s "payments.dump"%string
     = (if len (payments s) =? 0 then fileOf dir "payments.dump"
        else Some (dump paymentRecord (payments s)))
  /\ Export dir s "favorites.dump"%string
     = (if len (favorites s) =? 0 then fileOf dir "favorites.dump"
        else Some (dump favoriteRecord (favorites s))).
Proof.
  unfold Export, fileOf.
  destruct dir, (len (accounts s) =? 0), (len (payments s) =? 0), (len (favorites s) =? 0);
    repeat split; reflexivity.
Qed.

Lemma len_zero {A : Type} (l : list A) : (len l =? 0) = true -> l = [].
Proof.
  intros H. apply Z.eqb_eq in H. destruct l; [reflexivity|]. unfold len in H. simpl in H. lia.
Qed.

Lemma importDump_accounts (l : list Account.t) (s : Service) :
  Forall (dumpableAccount newline) l ->
  NoDup (map Account.ID (accounts s) ++ map Account.ID l) ->
  importDump importAccountRecord (dump (fun account => accountRecord account newline) l) s
  = Some (withAccounts s (accounts s ++ l)).
Proof.
  intros Hd Hnd. unfold importDump.
  rewrite (dump_ext _ (fun a => (accountBody a ++ String newline EmptyString)%string))
    by (intros a; apply accountRecord_body).
  rewrite (Split_dump accountBody newline l).
  - apply importAccountRecords_new; assumption.
  - eapply Forall_impl; [|exact Hd]. intros a Ha.
    apply (accountBody_fields newline newline_terminator a Ha).
Qed.

Lemma importDump_payments (l : list Payment.t) (s : Service) :
  Forall dumpablePayment l ->
  NoDup (map Payment.ID (payments s) ++ map Payment.ID l) ->
  importDump importPaymentRecord (dump paymentRecord l) s
  = Some (withPayments s (payments s ++ l)).
Proof.
  intros Hd Hnd. unfold importDump.
  rewrite (dump_ext _ (fun p => (paymentBody p ++ String newline EmptyString)%string))
    by (intros p; apply paymentRecord_body).
  rewrite (Split_dump paymentBody newline l).
  - apply importPaymentRecords_new; assumption.
  - eapply Forall_impl; [|exact Hd]. intros p Hp. apply (paymentBody_fields p Hp).
Qed.

Lemma importDump_favorites (l : list Favorite.t) (s : Service) :
  Forall dumpableFavorite l ->
  NoDup (map Favorite.ID (favorites s) ++ map Favorite.ID l) ->
  importDump importFavoriteRecord (dump favoriteRecord l) s
  = Some (withFavorites s (favorites s ++ l)).
Proof.
  intros Hd Hnd. unfold importDump.
  rewrite (dump_ext _ (fun f => (favoriteBody f ++ String newline EmptyString)%string))
    by (intros f; apply favoriteRecord_body).
  rewrite (Split_dump favoriteBody newline l).
  - apply importFavoriteRecords_new; assumption.
  - eapply Forall_impl; [|exact Hd]. intros f Hf. apply (favoriteBody_fields f Hf).
Qed.

(** X14: Import reads back what Export wrote.  Export writes into a
    directory that may exist, and writes no dump for an empty collection, so
    that an older dump of it stays in the directory.  When the directory was
    missing, or held no dump of a collection that is empty in the service,
    when the identifiers of the accounts, of the payments and of the
    favorites are pairwise distinct, the integers are 64-bit values and no
    string holds [;] or a line feed, importing the directory into an empty
    service restores the accounts, the payments and the favorites, field by
    field and in their order, and sets the counter to the largest account
    identifier (0 when none is positive); so it restores the service itself
    when its counter was that identifier.  Import on a missing directory
    returns the error of the operating system. *)
Theorem Import_Export (dir : option Directory) (s : Service) :
  (accounts s = [] -> fileOf dir "accounts.dump" = None) ->
  (payments s = [] -> fileOf dir "payments.dump" = None) ->
  (favorites s = [] -> fileOf dir "favorites.dump" = None) ->
  Forall (dumpableAccount newline) (accounts s) ->
  Forall dumpablePayment (payments s) ->
  Forall dumpableFavorite (favorites s) ->
  NoDup (map Account.ID (accounts s)) ->
  NoDup (map Payment.ID (payments s)) ->
  NoDup (map Favorite.ID (favorites s)) ->
  Import (Some (Export dir s)) emptyService
  = Returned {| nextAccountID := maxAccountID (accounts s);
                accounts := accounts s;
                payments := payments s;
                favorites := favorites s |}
  /\ (nextAccountID s = maxAccountID (accounts s) ->
      Import (Some (Export dir s)) emptyService = Returned s)
  /\ Import None emptyService = NotExist
  /\ (accounts s = [] -> Export dir s "accounts.dump"%string = fileOf dir "accounts.dump")
  /\ (payments s = [] -> Export dir s "payments.dump"%string = fileOf dir "payments.dump")
  /\ (favorites s = [] -> Export dir s "favorites.dump"%string = fileOf dir "favorites.dump").
Proof.
  intros Hsa Hsp Hsf Hda Hdp Hdf Hna Hnp Hnf.
  destruct (Export_files dir s) as (Ea & Ep & Ef).
  assert (Hmain : Import (Some (Export dir s)) emptyService
                  = Returned {| nextAccountID := maxAccountID (accounts s);
                                accounts := accounts s;
                                payments := payments s;
                                favorites := favorites s |}).
  { unfold Import. rewrite Ea, Ep, Ef. clear Ea Ep Ef.
    (* the accounts *)
    destruct (len (accounts s) =? 0) eqn:E1.
    - apply len_zero in E1. rewrite (Hsa E1). clear Hsa. rewrite E1 in *. cbv beta iota.
      (* the payments *)
      destruct (len (payments s) =? 0) eqn:E2.
      + apply len_zero in E2. rewrite (Hsp E2). clear Hsp. rewrite E2 in *. cbv beta iota.
        destruct (len (favorites s) =? 0) eqn:E3.
        * apply len_zero in E3. rewrite (Hsf E3), E3. reflexivity.
        * rewrite importDump_favorites by assumption. reflexivity.
      + rewrite importDump_payments by assumption. cbv beta iota.
        destruct (len (favorites s) =? 0) eqn:E3.
        * apply len_zero in E3. rewrite (Hsf E3), E3. reflexivity.
        * rewrite importDump_favorites by assumption. reflexivity.
    - rewrite importDump_accounts by assumption. cbv beta iota.
      destruct (len (payments s) =? 0) eqn:E2.
      + apply len_zero in E2. rewrite (Hsp E2). clear Hsp. rewrite E2 in *. cbv beta iota.
        destruct (len (favorites s) =? 0) eqn:E3.
        * apply len_zero in E3. rewrite (Hsf E3), E3. reflexivity.
        * rewrite importDump_favorites by assumption. reflexivity.
      + rewrite importDump_payments by assumption. cbv beta iota.
        destruct (len (favorites s) =? 0) eqn:E3.
        * apply len_zero in E3. rewrite (Hsf E3), E3. reflexivity.
        * rewrite importDump_favorites by assumption. reflexivity. }
  split; [exact Hmain|]. split; [|split; [reflexivity|]].
  - intros Hnext. rewrite Hmain, <- Hnext. destruct s. reflexivity.
  - split; [|split]; intros E.
    + rewrite Ea, E. reflexivity.
    + rewrite Ep, E. reflexivity.
    + rewrite Ef, E. reflexivity.
Qed.

Ltac closed_NoDup :=
  vm_compute;
  repeat (apply NoDup_cons;
          [ let H := fresh "H" in
            intros H; repeat (destruct H as [H|H]; [discriminate H|]); exact H
          | ]);
  apply NoDup_nil.

Ltac closed_Forall tac :=
  apply Forall_forall;
  let x := fresh "x" in
  let H := fresh "H" in
  intros x H; vm_compute in H;
  repeat (destruct H as [H|H]; [subst x; tac|]); destruct H.

Ltac closed_dumpable := repeat split; vm_compute; try reflexivity; discriminate.

Lemma Import_Export_witness :
  Import (Some (Export (Some (WriteFile "payments.dump" "stale" emptyDirectory)) fillData))
    emptyService
  = Returned fillData.
Proof.
  apply (proj1 (proj2 (Import_Export
                         (Some (WriteFile "payments.dump" "stale" emptyDirectory)) fillData
                         (fun _ => eq_refl)
                         ltac:(intros H; vm_compute in H; discriminate H)
                         (fun _ => eq_refl)
                         (fillData_accounts_dumpable newline (or_intror eq_refl))
                         ltac:(closed_Forall closed_dumpable)
                         ltac:(closed_Forall closed_dumpable)
                         ltac:(closed_NoDup) ltac:(closed_NoDup) ltac:(closed_NoDup)))).
  reflexivity.
Defined.

(** ** Malformed dumps *)

Lemma Split_nonempty (s : string) (sep : ascii) : Split s sep <> [].
Proof.
  destruct s as [|c s]; simpl; [discriminate|].
  destruct (Ascii.eqb c sep); [discriminate|]. destruct (Split s sep); discriminate.
Qed.

Lemma dropEmptyLast_first (record : string) (records : list string) :
  records <> [] ->
  exists records', dropEmptyLast (record :: records) = record :: records'.
Proof.
  intros Hne. unfold dropEmptyLast. destruct records as [|r records]; [contradiction|].
  destruct (String.eqb (last (record :: r :: records) EmptyString) EmptyString).
  - exists (removelast (r :: records)). reflexivity.
  - eauto.
Qed.

(** X15: a dump with a record that lacks a field makes the import panic
    instead of returning an error.  Import panics when the first line of
    accounts.dump holds no [;] (an empty line included), and ImportFromFile
    panics on a file that is not empty and holds neither [;] nor [|]. *)
Theorem malformed_dump_panics (s : Service) :
  (forall (dir : Directory) (record rest : string),
      dir "accounts.dump"%string = Some (record ++ String newline rest)%string ->
      hasChar newline record = false ->
      hasChar semicolon record = false ->
      Import (Some dir) s = Panicked)
  /\ (forall content : string,
         content <> EmptyString ->
         hasChar bar content = false ->
         hasChar semicolon content = false ->
         ImportFromFile (Some content) s = Panicked).
Proof.
  split.
  - intros dir record rest Hdir Hnl Hsc. unfold Import. rewrite Hdir. unfold importDump.
    rewrite (Split_field newline record rest Hnl).
    destruct (dropEmptyLast_first record (Split rest newline) (Split_nonempty _ _))
      as [records' Hd].
    rewrite Hd. cbn [importRecords]. unfold importAccountRecord.
    rewrite (Split_last_field semicolon record Hsc). reflexivity.
  - intros content Hne Hbar Hsc. unfold ImportFromFile.
    rewrite (Split_last_field bar content Hbar). unfold dropEmptyLast. cbn [last].
    assert (Hneq : String.eqb content EmptyString = false) by (apply String.eqb_neq; assumption).
    rewrite Hneq. cbn [importRecords]. unfold importFileRecord.
    rewrite (Split_last_field semicolon content Hsc). reflexivity.
Qed.

Lemma malformed_dump_panics_witness :
  Import (Some (WriteFile "accounts.dump" (String newline EmptyString) emptyDirectory)) fillData
  = Panicked
  /\ ImportFromFile (Some "no accounts here"%string) fillData = Panicked.
Proof.
  split.
  - apply (proj1 (malformed_dump_panics fillData) _ EmptyString EmptyString); reflexivity.
  - apply (proj2 (malformed_dump_panics fillData)); [discriminate|reflexivity|reflexivity].
Defined.

(** ** Import keeps the identifiers distinct *)

Lemma findAccount_None_iff (accountID : Z) (l : list Account.t) :
  findAccount accountID l = None <-> ~ In accountID (map Account.ID l).
Proof.
  unfold findAccount. rewrite findFirst_None. split.
  - intros H Hin. apply in_map_iff in Hin. destruct Hin as (a & Ha & Hin).
    specialize (H a Hin). cbv beta in H. rewrite Ha, Z.eqb_refl in H. discriminate.
  - intros H a Ha. apply Z.eqb_neq. intros Heq. apply H. rewrite <- Heq.
    apply in_map. assumption.
Qed.

Lemma findPayment_None_iff (paymentID : string) (l : list Payment.t) :
  findPayment paymentID l = None <-> ~ In paymentID (map Payment.ID l).
Proof.
  unfold findPayment. rewrite findFirst_None. split.
  - intros H Hin. apply in_map_iff in Hin. destruct Hin as (a & Ha & Hin).
    specialize (H a Hin). cbv beta in H. rewrite Ha, String.eqb_refl in H. discriminate.
  - intros H a Ha. apply String.eqb_neq. intros Heq. apply H. rewrite <- Heq.
    apply in_map. assumption.
Qed.

Lemma findFavorite_None_iff (favoriteID : string) (l : list Favorite.t) :
  findFavorite favoriteID l = None <-> ~ In favoriteID (map Favorite.ID l).
Proof.
  unfold findFavorite. rewrite findFirst_None. split.
  - intros H Hin. apply in_map_iff in Hin. destruct Hin as (a & Ha & Hin).
    specialize (H a Hin). cbv beta in H. rewrite Ha, String.eqb_refl in H. discriminate.
  - intros H a Ha. apply String.eqb_neq. intros Heq. apply H. rewrite <- Heq.
    apply in_map. assumption.
Qed.

Lemma keepsDistinct_refl {K : Type} (l : list K) : keepsDistinct l l.
Proof. split; [exists []; rewrite app_nil_r; reflexivity|auto]. Qed.

Lemma keepsDistinct_trans {K : Type} (a b c : list K) :
  keepsDistinct a b -> keepsDistinct b c -> keepsDistinct a c.
Proof.
  intros [[t1 H1] N1] [[t2 H2] N2]. split; [|auto].
  exists (t1 ++ t2). rewrite H2, H1, app_assoc. reflexivity.
Qed.

Lemma keepsDistinct_new {K : Type} (l : list K) (k : K) :
  ~ In k l -> keepsDistinct l (l ++ [k]).
Proof.
  intros Hnew. split; [eauto|]. intros Hnd.
  apply (Permutation_NoDup (Permutation_cons_append _ _)). constructor; assumption.
Qed.

(* The three collections of identifiers, from one state to another. *)
Lemma importAccountRecord_keeps (record : string) (s s' : Service) :
  importAccountRecord record s = Some s' ->
  keepsDistinct (map Account.ID (accounts s)) (map Account.ID (accounts s'))
  /\ payments s' = payments s /\ favorites s' = favorites s.
Proof.
  unfold importAccountRecord.
  destruct (nth_error (Split record semicolon) 0) as [f0|]; [|discriminate].
  destruct (nth_error (Split record semicolon) 1) as [f1|]; [|discriminate].
  destruct (nth_error (Split record semicolon) 2) as [f2|]; [|discriminate].
  destruct (findAccount (Atoi f0) (accounts s)) as [[ptr account]|] eqn:Hf;
    intros H; inversion H; subst; clear H; simpl; repeat split; auto.
  - exists []. rewrite app_nil_r.
    apply (map_setAt Account.ID _ _ _ account); [|reflexivity].
    apply (findFirst_Some _ _ _ _ Hf).
  - rewrite (map_setAt Account.ID _ _ _ account); [auto| |reflexivity].
    apply (findFirst_Some _ _ _ _ Hf).
  - rewrite map_app. eauto.
  - rewrite map_app. apply keepsDistinct_new. apply findAccount_None_iff. assumption.
Qed.

Lemma importPaymentRecord_keeps (record : string) (s s' : Service) :
  importPaymentRecord record s = Some s' ->
  keepsDistinct (map Payment.ID (payments s)) (map Payment.ID (payments s'))
  /\ accounts s' = accounts s /\ favorites s' = favorites s
  /\ nextAccountID s' = nextAccountID s.
Proof.
  unfold importPaymentRecord.
  destruct (nth_error (Split record semicolon) 0) as [f0|]; [|discriminate].
  destruct (nth_error (Split record semicolon) 1) as [f1|]; [|discriminate].
  destruct (nth_error (Split record semicolon) 2) as [f2|]; [|discriminate].
  destruct (nth_error (Split record semicolon) 3) as [f3|]; [|discriminate].
  destruct (nth_error (Split record semicolon) 4) as [f4|]; [|discriminate].
  destruct (findPayment f0 (payments s)) as [[ptr payment]|] eqn:Hf;
    intros H; inversion H; subst; clear H; simpl; repeat split; auto.
  - exists []. rewrite app_nil_r.
    apply (map_setAt Payment.ID _ _ _ payment); [|reflexivity].
    apply (findFirst_Some _ _ _ _ Hf).
  - rewrite (map_setAt Payment.ID _ _ _ payment); [auto| |reflexivity].
    apply (findFirst_Some _ _ _ _ Hf).
  - rewrite map_app. eauto.
  - rewrite map_app. apply keepsDistinct_new. apply findPayment_None_iff. assumption.
Qed.

Lemma importFavoriteRecord_keeps (record : string) (s s' : Service) :
  importFavoriteRecord record s = Some s' ->
  keepsDistinct (map Favorite.ID (favorites s)) (map Favorite.ID (favorites s'))
  /\ accounts s' = accounts s /\ payments s' = payments s
  /\ nextAccountID s' = nextAccountID s.
Proof.
  unfold importFavoriteRecord.
  destruct (nth_error (Split record semicolon) 0) as [f0|]; [|discriminate].
  destruct (nth_error (Split record semicolon) 1) as [f1|]; [|discriminate].
  destruct (nth_error (Split record semicolon) 2) as [f2|]; [|discriminate].
  destruct (nth_error (Split record semicolon) 3) as [f3|]; [|discriminate].
  destruct (nth_error (Split record semicolon) 4) as [f4|]; [|discriminate].
  destruct (findFavorite f0 (favorites s)) as [[ptr favorite]|] eqn:Hf;
    intros H; inversion H; subst; clear H; simpl; repeat split; auto.
  - exists []. rewrite app_nil_r.
    apply (map_setAt Favorite.ID _ _ _ favorite); [|reflexivity].
    apply (findFirst_Some _ _ _ _ Hf).
  - rewrite (map_setAt Favorite.ID _ _ _ favorite); [auto| |reflexivity].
    apply (findFirst_Some _ _ _ _ Hf).
  - rewrite map_app. eauto.
  - rewrite map_app. apply keepsDistinct_new. apply findFavorite_None_iff. assumption.
Qed.

(* A relation that every round keeps holds from the first state to the
   last. *)
Lemma importRecords_keeps (round : string -> Service -> option Service)
  (R : Service -> Service -> Prop) :
  (forall s, R s s) -> (forall a b c, R a b -> R b c -> R a c) ->
  (forall record s s', round record s = Some s' -> R s s') ->
  forall records s s', importRecords round records s = Some s' -> R s s'.
Proof.
  intros Hrefl Htrans Hround. induction records as [|record records IH]; intros s s' H;
    simpl in H.
  - inversion H; subst. apply Hrefl.
  - destruct (round record s) as [s1|] eqn:Hr; [|discriminate].
    eapply Htrans; [eapply Hround; eassumption|]. apply IH. assumption.
Qed.

Lemma maxAccountID_bounds (l : list Account.t) :
  0 <= maxAccountID l /\ Forall (fun account => Account.ID account <= maxAccountID l) l.
Proof.
  unfold maxAccountID.
  assert (H : forall m, m <= fold_left (fun max acc => if Account.ID acc >? max
                                                        then Account.ID acc else max) l m
                        /\ Forall (fun account =>
                                     Account.ID account
                                     <= fold_left (fun max acc => if Account.ID acc >? max
                                                                  then Account.ID acc else max)
                                          l m) l).
  { induction l as [|a l IH]; intros m; simpl.
    - split; [lia|constructor].
    - destruct (Z.gtb_spec (Account.ID a) m) as [Hgt|Hle].
      + destruct (IH (Account.ID a)) as [H1 H2]. split; [lia|]. constructor; auto.
      + destruct (IH m) as [H1 H2]. split; [lia|]. constructor; auto. lia. }
  apply H.
Qed.

Lemma importDump_accounts_keeps (content : string) (s s' : Service) :
  importDump importAccountRecord content s = Some s' ->
  keepsDistinct (map Account.ID (accounts s)) (map Account.ID (accounts s'))
  /\ payments s' = payments s /\ favorites s' = favorites s.
Proof.
  unfold importDump.
  apply (importRecords_keeps importAccountRecord
           (fun a b => keepsDistinct (map Account.ID (accounts a)) (map Account.ID (accounts b))
                       /\ payments b = payments a /\ favorites b = favorites a)).
  - intros a. split; [apply keepsDistinct_refl|auto].
  - intros a b c (H1 & H2 & H3) (H4 & H5 & H6).
    split; [eapply keepsDistinct_trans; eauto|]. split; congruence.
  - apply importAccountRecord_keeps.
Qed.

Lemma importDump_payments_keeps (content : string) (s s' : Service) :
  importDump importPaymentRecord content s = Some s' ->
  keepsDistinct (map Payment.ID (payments s)) (map Payment.ID (payments s'))
  /\ accounts s' = accounts s /\ favorites s' = favorites s
  /\ nextAccountID s' = nextAccountID s.
Proof.
  unfold importDump.
  apply (importRecords_keeps importPaymentRecord
           (fun a b => keepsDistinct (map Payment.ID (payments a)) (map Payment.ID (payments b))
                       /\ accounts b = accounts a /\ favorites b = favorites a
                       /\ nextAccountID b = nextAccountID a)).
  - intros a. split; [apply keepsDistinct_refl|auto].
  - intros a b c (H1 & H2 & H3 & H4) (H5 & H6 & H7 & H8).
    split; [eapply keepsDistinct_trans; eauto|]. repeat split; congruence.
  - apply importPaymentRecord_keeps.
Qed.

Lemma importDump_favorites_keeps (content : string) (s s' : Service) :
  importDump importFavoriteRecord content s = Some s' ->
  keepsDistinct (map Favorite.ID (favorites s)) (map Favorite.ID (favorites s'))
  /\ accounts s' = accounts s /\ payments s' = payments s
  /\ nextAccountID s' = nextAccountID s.
Proof.
  unfold importDump.
  apply (importRecords_keeps importFavoriteRecord
           (fun a b => keepsDistinct (map Favorite.ID (favorites a))
                         (map Favorite.ID (favorites b))
                       /\ accounts b = accounts a /\ payments b = payments a
                       /\ nextAccountID b = nextAccountID a)).
  - intros a. split; [apply keepsDistinct_refl|auto].
  - intros a b c (H1 & H2 & H3 & H4) (H5 & H6 & H7 & H8).
    split; [eapply keepsDistinct_trans; eauto|]. repeat split; congruence.
  - apply importFavoriteRecord_keeps.
Qed.

(** X16: whatever the dumps hold, an Import that returns keeps every account,
    payment and favorite of before in its slot under its identifier, appends
    the new ones, and keeps the identifiers of each collection pairwise
    distinct if they were: a record whose identifier is in use updates the
    entry in place.  When the directory has an accounts dump, the counter
    becomes the largest account identifier (at least 0), so that the next
    RegisterAccount hands out an identifier that no account has, as long as
    the counter is below 2^63 - 1; without an accounts dump the counter is
    not written. *)
Theorem Import_keeps_identifiers_distinct (dir : Directory) (s s' : Service) :
  Import (Some dir) s = Returned s' ->
  keepsDistinct (map Account.ID (accounts s)) (map Account.ID (accounts s'))
  /\ keepsDistinct (map Payment.ID (payments s)) (map Payment.ID (payments s'))
  /\ keepsDistinct (map Favorite.ID (favorites s)) (map Favorite.ID (favorites s'))
  /\ (dir "accounts.dump"%string = None -> nextAccountID s' = nextAccountID s)
  /\ (dir "accounts.dump"%string <> None ->
      nextAccountID s' = maxAccountID (accounts s')
      /\ 0 <= nextAccountID s'
      /\ Forall (fun account => Account.ID account <= nextAccountID s') (accounts s')
      /\ forall phone account s'',
          nextAccountID s' < Int64.max_int ->
          RegisterAccount phone s' = (Ok account, s'') ->
          ~ In (Account.ID account) (map Account.ID (accounts s'))).
Proof.
  unfold Import. intros H.
  (* the accounts *)
  set (afterAccounts :=
         match dir "accounts.dump"%string with
         | Some content =>
             match importDump importAccountRecord content s with
             | Some s1 => Some {| nextAccountID := maxAccountID (accounts s1);
                                  accounts := accounts s1; payments := payments s1;
                                  favorites := favorites s1 |}
             | None => None
             end
         | None => Some s
         end) in H.
  destruct afterAccounts as [s1|] eqn:E1; [|discriminate].
  assert (H1 : keepsDistinct (map Account.ID (accounts s)) (map Account.ID (accounts s1))
               /\ payments s1 = payments s /\ favorites s1 = favorites s
               /\ (dir "accounts.dump"%string = None -> nextAccountID s1 = nextAccountID s)
               /\ (dir "accounts.dump"%string <> None ->
                   nextAccountID s1 = maxAccountID (accounts s1))).
  { unfold afterAccounts in E1. destruct (dir "accounts.dump"%string) as [content|].
    - destruct (importDump importAccountRecord content s) as [s0|] eqn:E0; [|discriminate].
      destruct (importDump_accounts_keeps _ _ _ E0) as (K & P & F).
      inversion E1; subst; simpl.
      split; [exact K|]. split; [exact P|]. split; [exact F|].
      split; [intros Hc; discriminate Hc|reflexivity].
    - inversion E1; subst. split; [apply keepsDistinct_refl|].
      split; [reflexivity|]. split; [reflexivity|]. split; [reflexivity|].
      intros Hc. contradiction. }
  clear E1 afterAccounts.
  (* the payments *)
  destruct (match dir "payments.dump"%string with
            | Some content => importDump importPaymentRecord content s1
            | None => Some s1
            end) as [s2|] eqn:E2; [|discriminate].
  assert (H2 : keepsDistinct (map Payment.ID (payments s1)) (map Payment.ID (payments s2))
               /\ accounts s2 = accounts s1 /\ favorites s2 = favorites s1
               /\ nextAccountID s2 = nextAccountID s1).
  { destruct (dir "payments.dump"%string) as [content|].
    - apply (importDump_payments_keeps _ _ _ E2).
    - inversion E2; subst. split; [apply keepsDistinct_refl|auto]. }
  clear E2.
  (* the favorites *)
  destruct (match dir "favorites.dump"%string with
            | Some content => importDump importFavoriteRecord content s2
            | None => Some s2
            end) as [s3|] eqn:E3; [|discriminate].
  assert (H3 : keepsDistinct (map Favorite.ID (favorites s2)) (map Favorite.ID (favorites s3))
               /\ accounts s3 = accounts s2 /\ payments s3 = payments s2
               /\ nextAccountID s3 = nextAccountID s2).
  { destruct (dir "favorites.dump"%string) as [content|].
    - apply (importDump_favorites_keeps _ _ _ E3).
    - inversion E3; subst. split; [apply keepsDistinct_refl|auto]. }
  clear E3. inversion H; subst s3; clear H.
  destruct H1 as (Ka & P1 & F1 & N1 & M1).
  destruct H2 as (Kp & A2 & F2 & N2).
  destruct H3 as (Kf & A3 & P3 & N3).
  split; [rewrite A3, A2; exact Ka|].
  split; [rewrite P3, <- P1; exact Kp|].
  split; [rewrite <- F1, <- F2; exact Kf|].
  split; [intros Hnone; rewrite N3, N2; auto|].
  intros Hsome.
  assert (Hmax : nextAccountID s' = maxAccountID (accounts s')).
  { rewrite N3, N2, A3, A2. auto. }
  destruct (maxAccountID_bounds (accounts s')) as [Hpos Hall]. rewrite <- Hmax in Hpos, Hall.
  repeat split; auto.
  intros phone account s'' Hlt Hreg Hin. unfold RegisterAccount in Hreg.
  destruct (findFirst _ (accounts s')); [discriminate|]. inversion Hreg; subst; clear Hreg.
  simpl in Hin. apply in_map_iff in Hin. destruct Hin as (a & Ha & Hin).
  rewrite Forall_forall in Hall. specialize (Hall a Hin).
  rewrite Int64Facts.add_small in Ha.
  - lia.
  - unfold Int64.in_range, Int64.min_int, Int64.max_int, Int64.half in *. lia.
Qed.

Lemma Import_keeps_identifiers_distinct_witness :
  nextAccountID fillData = maxAccountID (accounts fillData)
  /\ keepsDistinct (map Account.ID (accounts registered)) (map Account.ID (accounts fillData)).
Proof.
  assert (H : Import (Some (Export None fillData)) registered = Returned fillData)
    by (vm_compute; reflexivity).
  destruct (Import_keeps_identifiers_distinct _ _ _ H) as (H1 & _ & _ & _ & H5).
  split; [|exact H1]. destruct H5 as (H5 & _); [|exact H5].
  vm_compute. discriminate.
Defined.

(** ** HistoryToFiles *)

(* What formatBits writes starts with a digit. *)
Lemma formatBits_first (fuel : nat) :
  forall (u : Z) (buf : string),
    (0 < fuel)%nat ->
    exists d rest, 0 <= d < 10 /\ formatBits fuel u buf = String (digitChar d) rest.
Proof.
  induction fuel as [|fuel IH]; intros u buf Hfuel; [lia|].
  simpl formatBits. destruct (Z.ltb_spec u 10) as [Hlt|Hge].
  - destruct (Z.ltb_spec u 0).
    + exists 0, buf. split; [lia|]. unfold digitChar.
      replace (Z.to_nat u) with (Z.to_nat 0) by lia. reflexivity.
    + exists u, buf. split; [lia|reflexivity].
  - destruct fuel as [|fuel'].
    + simpl. exists (u mod 10), buf. split; [apply Z.mod_pos_bound; lia|reflexivity].
    + apply IH. lia.
Qed.

Lemma chunkFile_injective (a b : Z) : int64 a -> int64 b -> chunkFile a = chunkFile b -> a = b.
Proof.
  intros Ha Hb H. unfold chunkFile in H. cbn [append] in H.
  do 8 (apply (f_equal (fun s => match s with String _ r => r | EmptyString => EmptyString end))
          in H; cbv beta iota in H).
  apply append_cancel_r in H. apply Itoa_injective; assumption.
Qed.

Lemma chunkFile_not_plain (k : Z) : chunkFile k <> "payments.dump"%string.
Proof.
  unfold chunkFile, Itoa. intros H. cbn [append] in H.
  do 8 (apply (f_equal (fun s => match s with String _ r => r | EmptyString => EmptyString end))
          in H; cbv beta iota in H).
  destruct (k <? 0).
  - cbn [append] in H. discriminate.
  - destruct (formatBits_first 20 k EmptyString ltac:(lia)) as (d & rest & Hd & Hf).
    rewrite Hf in H. cbn [append] in H.
    apply (f_equal (fun s => match s with String c _ => Some c | EmptyString => None end)) in H.
    cbv beta iota in H. inversion H as [Hc].
    assert (Hv : digitValue "."%char = None) by reflexivity.
    rewrite <- Hc, digitValue_digitChar in Hv by assumption. discriminate.
Qed.

(* Few payments: every round rewrites payments.dump with the records so far. *)
Lemma historyLoop_one_file (total records : Z) (rest : list Payment.t) :
  total <= records ->
  forall (i : Z) (buffer : string) (dir : Directory),
  exists dir',
    historyLoop total records rest i buffer dir = Some dir'
    /\ dir' "payments.dump"%string
       = match rest with
         | [] => dir "payments.dump"%string
         | _ => Some (buffer ++ dump paymentRecord rest)%string
         end
    /\ forall name, name <> "payments.dump"%string -> dir' name = dir name.
Proof.
  intros Hle. induction rest as [|payment rest IH]; intros i buffer dir.
  - exists dir. simpl. auto.
  - simpl historyLoop. destruct (Z.leb_spec total records); [|lia].
    destruct (IH (Int64.add i 1) (buffer ++ paymentRecord payment)%string
                (WriteFile "payments.dump" (buffer ++ paymentRecord payment) dir))
      as (dir' & Hrun & Hfile & Hother).
    exists dir'. split; [exact Hrun|]. split.
    + rewrite Hfile. destruct rest as [|p rest'].
      * unfold WriteFile. rewrite String.eqb_refl, dump_cons.
        change (dump paymentRecord []) with EmptyString. rewrite append_nil_r. reflexivity.
      * rewrite (dump_cons paymentRecord payment), append_assoc. reflexivity.
    + intros name Hname. rewrite (Hother name Hname). unfold WriteFile.
      apply String.eqb_neq in Hname. rewrite Hname. reflexivity.
Qed.

Section HistoryChunks.
Variable ps : list Payment.t.
Variable R : nat.
Hypothesis R_positive : (0 < R)%nat.
Hypothesis more_than_a_chunk : (R < length ps)%nat.
Hypothesis ps_fits : len ps < maxLen.

Let total := len ps.
Let records := Z.of_nat R.

Lemma chunk_number_int64 (j : nat) : (j * R < length ps)%nat -> int64 (Z.of_nat j + 1).
Proof.
  intros Hj. unfold int64, Int64.in_range, Int64.min_int, Int64.max_int, Int64.half.
  unfold len, maxLen in ps_fits. nia.
Qed.

(* The loop from a state in which [k] chunks are written and [pending] holds
   the records of the chunk in progress. *)
Lemma historyLoop_chunks (rest : list Payment.t) :
  forall (k : nat) (pending : list Payment.t) (dir : Directory),
    skipn (k * R) ps = pending ++ rest ->
    (k * R <= length ps)%nat ->
    (length pending < R)%nat ->
    (rest = [] -> pending = []) ->
    exists dir',
      historyLoop total records rest (Z.of_nat (k * R + length pending))
        (dump paymentRecord pending) dir = Some dir'
      /\ (forall j, (k <= j)%nat -> (j * R < length ps)%nat ->
                    dir' (chunkFile (Z.of_nat j + 1))
                    = Some (dump paymentRecord (chunk ps R j)))
      /\ (forall name,
             (forall j, (k <= j)%nat -> (j * R < length ps)%nat ->
                        name <> chunkFile (Z.of_nat j + 1)) ->
             dir' name = dir name).
Proof.
  induction rest as [|payment rest IH]; intros k pending dir Hskip Hk Hp Hlast.
  - rewrite (Hlast eq_refl) in *. rewrite app_nil_r in Hskip.
    assert (Hlen : length (skipn (k * R) ps) = O) by (rewrite Hskip; reflexivity).
    rewrite length_skipn in Hlen.
    exists dir. split; [reflexivity|]. split; [|reflexivity].
    intros j Hj Hjn. exfalso. nia.
  - assert (Hlen : (length ps = k * R + length pending + S (length rest))%nat).
    { pose proof (f_equal (@length _) Hskip) as H.
      rewrite length_skipn, length_app in H. simpl in H. lia. }
    set (i := Z.of_nat (k * R + length pending)).
    assert (Hi : 0 <= i < total) by (unfold i, total, len; lia).
    assert (Hrec : 0 < records) by (unfold records; lia).
    assert (Htot : total < maxLen) by exact ps_fits.
    simpl historyLoop.
    destruct (Z.leb_spec total records) as [Hc|_];
      [unfold total, records, len in Hc; lia|].
    destruct (Z.eqb_spec records 0) as [Hc|_]; [lia|].
    assert (Hadd : Int64.add i 1 = i + 1).
    { apply Int64Facts.add_small.
      unfold Int64.in_range, Int64.min_int, Int64.max_int, Int64.half, maxLen in *. lia. }
    assert (Hsub : Int64.sub total 1 = total - 1).
    { apply Int64Facts.sub_small.
      unfold Int64.in_range, Int64.min_int, Int64.max_int, Int64.half, maxLen in *. lia. }
    assert (Hdiv : i / records = Z.of_nat k).
    { unfold i, records. rewrite Nat2Z.inj_add, Nat2Z.inj_mul.
      rewrite Z.div_add_l by lia. rewrite Z.div_small by lia. lia. }
    assert (Hquot : Int64.add (Int64.quot i records) 1 = Z.of_nat k + 1).
    { rewrite Int64Facts.quot_small, Hdiv; try lia.
      - apply Int64Facts.add_small.
        unfold total, len, Int64.in_range, Int64.min_int, Int64.max_int, Int64.half, maxLen in *.
        nia.
      - unfold Int64.in_range, Int64.min_int, Int64.max_int, Int64.half, maxLen in *. lia. }
    assert (Hrem : Z.rem (i + 1) records = (Z.of_nat (length pending) + 1) mod records).
    { rewrite Z.rem_mod_nonneg by lia. unfold i, records.
      rewrite Nat2Z.inj_add, Nat2Z.inj_mul.
      replace (Z.of_nat k * Z.of_nat R + Z.of_nat (length pending) + 1)
        with (Z.of_nat (length pending) + 1 + Z.of_nat k * Z.of_nat R) by lia.
      apply Z_mod_plus_full. }
    rewrite Hadd, Hsub, Hquot, Hrem.
    assert (Hbuf : (dump paymentRecord pending ++ paymentRecord payment)%string
                   = dump paymentRecord (pending ++ [payment])).
    { rewrite dump_app, dump_cons. change (dump paymentRecord []) with EmptyString.
      rewrite append_nil_r. reflexivity. }
    rewrite Hbuf.
    assert (HkR : (k * R < length ps)%nat) by lia.
    destruct (Nat.eq_dec (S (length pending)) R) as [Hfull|Hpart];
      [|destruct rest as [|next rest']].
    + (* the chunk is full *)
      assert (Hflush : ((Z.of_nat (length pending) + 1) mod records =? 0) = true).
      { apply Z.eqb_eq. replace (Z.of_nat (length pending) + 1) with records
          by (unfold records; lia).
        apply Z_mod_same_full. }
      rewrite Hflush. cbn [orb].
      assert (Hchunk : chunk ps R k = pending ++ [payment]).
      { unfold chunk. rewrite Hskip.
        replace (pending ++ payment :: rest) with ((pending ++ [payment]) ++ rest)
          by (rewrite <- app_assoc; reflexivity).
        replace R with (length (pending ++ [payment]) + 0)%nat
          by (rewrite length_app; simpl; lia).
        rewrite firstn_app_2. simpl. rewrite app_nil_r. reflexivity. }
      destruct (IH (S k) [] (WriteFile (chunkFile (Z.of_nat k + 1))
                               (dump paymentRecord (pending ++ [payment])) dir))
        as (dir' & Hrun & Hfiles & Hother).
      { replace (S k * R)%nat with (R + k * R)%nat by lia.
        rewrite <- skipn_skipn, Hskip.
        replace (pending ++ payment :: rest) with ((pending ++ [payment]) ++ rest)
          by (rewrite <- app_assoc; reflexivity).
        rewrite skipn_app.
        replace (R - length (pending ++ [payment]))%nat with O
          by (rewrite length_app; simpl; lia).
        rewrite skipn_all2 by (rewrite length_app; simpl; lia). reflexivity. }
      { lia. }
      { simpl. lia. }
      { auto. }
      exists dir'. split; [|split].
      * replace (i + 1) with (Z.of_nat (S k * R + length (@nil Payment.t)))
          by (unfold i; simpl length; lia).
        exact Hrun.
      * intros j Hj Hjn. destruct (Nat.eq_dec j k) as [->|Hne].
        -- rewrite Hother.
           ++ unfold WriteFile. rewrite String.eqb_refl, Hchunk. reflexivity.
           ++ intros j' Hj' Hjn' Heq.
              apply chunkFile_injective in Heq; try (apply chunk_number_int64; assumption).
              lia.
        -- apply Hfiles; [lia|assumption].
      * intros name Hname. rewrite Hother.
        -- unfold WriteFile.
           assert (Hne : name <> chunkFile (Z.of_nat k + 1)) by (apply Hname; auto).
           apply String.eqb_neq in Hne. rewrite Hne. reflexivity.
        -- intros j Hj Hjn. apply Hname; [lia|assumption].
    + (* the last payment of the history ends a shorter chunk *)
      assert (Hflush : (i =? total - 1) = true).
      { apply Z.eqb_eq. unfold i, total, len. simpl in Hlen. lia. }
      rewrite Hflush, orb_true_r.
      assert (Hchunk : chunk ps R k = pending ++ [payment]).
      { unfold chunk. rewrite Hskip. apply firstn_all2. rewrite length_app. simpl. lia. }
      exists (WriteFile (chunkFile (Z.of_nat k + 1))
                (dump paymentRecord (pending ++ [payment])) dir).
      split; [reflexivity|]. split.
      * intros j Hj Hjn. assert (j = k) by (simpl in Hlen; nia). subst j.
        unfold WriteFile. rewrite String.eqb_refl, Hchunk. reflexivity.
      * intros name Hname. unfold WriteFile.
        assert (Hne : name <> chunkFile (Z.of_nat k + 1)) by (apply Hname; auto).
        apply String.eqb_neq in Hne. rewrite Hne. reflexivity.
    + (* the chunk goes on *)
      assert (Hno1 : ((Z.of_nat (length pending) + 1) mod records =? 0) = false).
      { apply Z.eqb_neq. rewrite Z.mod_small by (unfold records; lia). lia. }
      assert (Hno2 : (i =? total - 1) = false).
      { apply Z.eqb_neq. unfold i, total, len. simpl in Hlen. lia. }
      rewrite Hno1, Hno2. cbn [orb].
      destruct (IH k (pending ++ [payment]) dir) as (dir' & Hrun & Hfiles & Hother).
      { rewrite Hskip, <- app_assoc. reflexivity. }
      { assumption. }
      { rewrite length_app. simpl. lia. }
      { discriminate. }
      exists dir'. split; [|split; assumption].
      replace (i + 1) with (Z.of_nat (k * R + length (pending ++ [payment])))
        by (unfold i; rewrite length_app; simpl; lia).
      exact Hrun.
Qed.

End HistoryChunks.

(** X17. HistoryToFiles, called with fewer records per file than there are
    payments: with [records = 0] the remainder [(i+1) % records] of the first
    round panics; with [0 < records] the call returns, and for every [j] with
    [j * records < len(payments)] the file [payments<j+1>.dump] holds the
    records of the payments [j*records .. (j+1)*records - 1] (the last file
    those that are left), while every other file of the directory is as
    before. *)
Theorem HistoryToFiles_chunks (payments : list Payment.t) (dir : option Directory)
    (records : Z) :
  len payments < maxLen ->
  records < len payments ->
  (records = 0 -> HistoryToFiles payments dir records = None)
  /\ (0 < records ->
      exists dir',
        HistoryToFiles payments dir records = Some dir'
        /\ (forall j, (j * Z.to_nat records < length payments)%nat ->
                      dir' (chunkFile (Z.of_nat j + 1))
                      = Some (dump paymentRecord (chunk payments (Z.to_nat records) j)))
        /\ (forall name,
               (forall j, (j * Z.to_nat records < length payments)%nat ->
                          name <> chunkFile (Z.of_nat j + 1)) ->
               dir' name = match dir with Some dir => dir name | None => emptyDirectory name end)).
Proof.
  intros Hfits Hmore. split.
  - intros ->. unfold HistoryToFiles. destruct payments as [|payment rest].
    + unfold len in Hmore. simpl in Hmore. lia.
    + simpl historyLoop. destruct (Z.leb_spec (len (payment :: rest)) 0); [lia|]. reflexivity.
  - intros Hpos. unfold HistoryToFiles.
    set (base := match dir with Some dir => dir | None => emptyDirectory end).
    assert (HR : (0 < Z.to_nat records)%nat) by lia.
    assert (Hlt : (Z.to_nat records < length payments)%nat) by (unfold len in Hmore; lia).
    destruct (historyLoop_chunks payments (Z.to_nat records) HR Hlt Hfits payments O [] base)
      as (dir' & Hrun & Hfiles & Hother).
    { reflexivity. }
    { simpl. lia. }
    { simpl. lia. }
    { reflexivity. }
    exists dir'. split; [|split].
    + rewrite Z2Nat.id in Hrun by lia. exact Hrun.
    + intros j Hj. apply Hfiles; [lia|assumption].
    + intros name Hname. rewrite Hother.
      * unfold base. destruct dir; reflexivity.
      * intros j _ Hj. apply Hname. assumption.
Qed.

Lemma HistoryToFiles_chunks_witness :
  exists dir',
    HistoryToFiles (payments fillData) None 4 = Some dir'
    /\ dir' "payments3.dump"%string
       = Some (dump paymentRecord (skipn 8 (payments fillData))).
Proof.
  assert (Hfits : len (payments fillData) < maxLen) by (vm_compute; reflexivity).
  assert (Hmore : 4 < len (payments fillData)) by (vm_compute; reflexivity).
  destruct (HistoryToFiles_chunks (payments fillData) None 4 Hfits Hmore) as (_ & Hreturns).
  destruct (Hreturns eq_refl) as (dir' & Hrun & Hfiles & _).
  exists dir'. split; [exact Hrun|].
  assert (Hthird : (2 * Z.to_nat 4 < length (payments fillData))%nat)
    by (vm_compute; repeat constructor).
  assert (Hname : chunkFile (Z.of_nat 2 + 1) = "payments3.dump"%string)
    by (vm_compute; reflexivity).
  assert (Hchunk : chunk (payments fillData) (Z.to_nat 4) 2 = skipn 8 (payments fillData))
    by (vm_compute; reflexivity).
  rewrite <- Hname, <- Hchunk. exact (Hfiles 2%nat Hthird).
Defined.

(** X18. HistoryToFiles, called with at least as many records per file as
    there are payments, returns and leaves every file but [payments.dump] as
    it was; [payments.dump] holds the records of all the payments, and is not
    written at all when there are no payments. *)
Theorem HistoryToFiles_one_file (payments : list Payment.t) (dir : option Directory)
    (records : Z) :
  len payments <= records ->
  exists dir',
    HistoryToFiles payments dir records = Some dir'
    /\ dir' "payments.dump"%string
       = match payments with
         | [] => match dir with Some dir => dir "payments.dump"%string | None => None end
         | _ => Some (dump paymentRecord payments)
         end
    /\ forall name, name <> "payments.dump"%string ->
                    dir' name = match dir with Some dir => dir name | None => None end.
Proof.
  intros Hle. unfold HistoryToFiles.
  destruct (historyLoop_one_file (len payments) records payments Hle 0 EmptyString
              (match dir with Some dir => dir | None => emptyDirectory end))
    as (dir' & Hrun & Hfile & Hother).
  exists dir'. split; [exact Hrun|]. split.
  - rewrite Hfile. destruct payments; destruct dir; reflexivity.
  - intros name Hname. rewrite (Hother name Hname). destruct dir; reflexivity.
Qed.

Lemma HistoryToFiles_one_file_witness :
  exists dir',
    HistoryToFiles (payments fillData) None 11 = Some dir'
    /\ dir' "payments.dump"%string = Some (dump paymentRecord (payments fillData))
    /\ dir' "payments1.dump"%string = None.
Proof.
  assert (Hle : len (payments fillData) <= 11) by (vm_compute; discriminate).
  destruct (HistoryToFiles_one_file (payments fillData) None 11 Hle)
    as (dir' & Hrun & Hfile & Hother).
  exists dir'. split; [exact Hrun|]. split.
  - exact Hfile.
  - apply (Hother "payments1.dump"%string). discriminate.
Defined.
